(** * dds: catalog, package manifests and the compile executor

    A shallow embedding of the parts of [dds] that its specification makes
    testable statements about:

    - [src/dds/package/id.hpp], [src/dds/package/manifest.cpp]
    - [src/dds/catalog/catalog.cpp]
    - [src/dds/build/plan/compile_exec.cpp]

    C++ exceptions are values of [exception]; a function that may throw
    returns a [result].  Code that works on the SQLite connection is written
    in a state-and-exception monad over the connection state. *)

From Stdlib Require Import ZArith String Ascii List Lia Permutation Sorted.
From Stdlib Require QArith DecimalString DecimalNat.
From stdpp Require Import base option strings list gmap.

Set Warnings "-register-all".

Local Open Scope string_scope.
Local Open Scope Z_scope.

(** ** Errors and exceptions *)

Module Errors.

(** The error kinds of [dds/error/errors.hpp] that the modelled code raises. *)
Inductive errc : Type :=
| invalid_pkg_name
| invalid_version_string
| invalid_version_range_string
| invalid_pkg_manifest
| unknown_test_driver
| invalid_catalog_json
| no_catalog_remote_info
| corrupted_catalog_db
| catalog_too_new
| compile_failure.

(** What a [throw] can carry.  [user_error e] and [external_error e] are
    [throw_user_error<e>] and [throw_external_error<e>]; the others are the
    exception types of the libraries the code calls. *)
Inductive exception : Type :=
| user_error (e : errc) (what : string)
| external_error (e : errc) (what : string)
| sqlite3_error (what : string)
| json_parse_error
| json_type_error
| invalid_version (s : string)
| invalid_range (s : string)
| runtime_error (what : string)
| system_error (what : string)
| assertion_failure (what : string).

Inductive result (A : Type) : Type :=
| Ok (a : A)
| Throw (e : exception).

Arguments Ok {A} a.
Arguments Throw {A} e.

#[export] Instance result_ret : MRet result := fun A a => Ok a.
#[export] Instance result_bind : MBind result := fun A B f r =>
  match r with
  | Ok a => f a
  | Throw e => Throw e
  end.

#[export] Instance result_fmap : FMap result := fun A B f r =>
  match r with
  | Ok a => Ok (f a)
  | Throw e => Throw e
  end.

Definition is_ok {A} (r : result A) : bool :=
  match r with Ok _ => true | Throw _ => false end.

(** The error kind of a [dds] error, if the exception is one. *)
Definition kind_of (e : exception) : option errc :=
  match e with
  | user_error k _ | external_error k _ => Some k
  | _ => None
  end.

(** [v.value()]-like helper: an absent value throws [e]. *)
Definition or_throw {A} (o : option A) (e : exception) : result A :=
  match o with
  | Some a => Ok a
  | None => Throw e
  end.

(** [assert(b)]: a failed assertion aborts. *)
Definition assert (b : bool) (what : string) : result unit :=
  if b then Ok tt else Throw (assertion_failure what).

End Errors.
Export Errors.

(** ** Text *)

Module Text.

(** Index of the last occurrence of [c] in [s] ([rfind]). *)
Fixpoint rindex (c : ascii) (s : string) : option nat :=
  match s with
  | EmptyString => None
  | String a rest =>
      match rindex c rest with
      | Some i => Some (S i)
      | None => if Ascii.eqb a c then Some 0%nat else None
      end
  end.

End Text.

(** ** The semver library

    [semver::version] and [semver::range] belong to a library outside the
    repository; the code uses them through this interface. *)

Class Semver : Type := {
  version : Type;
  version_eq_dec :: EqDecision version;
  (** a default-constructed [semver::version] *)
  version_default : version;
  (** [semver::version::parse]; [None] when it throws [invalid_version] *)
  version_parse : string -> option version;
  (** [semver::version::to_string] *)
  version_to_string : version -> string;
  (** [semver::range::parse], as the pair ([low()], [high()]) *)
  range_parse : string -> option (version * version);
  (** [semver::range::parse_restricted] *)
  range_parse_restricted : string -> option (version * version);
}.

(** The library's printing and parsing of versions agree. *)
Class SemverRoundTrip `{Semver} : Prop :=
  version_parse_to_string : forall v, version_parse (version_to_string v) = Some v.

(** The text of a version, [x.y.z[-pre][+meta]], holds no [@]. *)
Class SemverText `{Semver} : Prop :=
  version_to_string_no_at :
    forall v, Text.rindex "@"%char (version_to_string v) = None.

(** ** Package identifiers and dependencies *)

Section PackageData.
Context `{Semver}.

(** [struct package_id] of [id.hpp]. *)
Record package_id : Type := mk_package_id {
  name : string;
  pid_version : version;
}.

#[export] Instance package_id_eq_dec : EqDecision package_id.
Proof. solve_decision. Defined.

(** A [dependency]: a name and a set of version intervals [(low, high)],
    each half-open.  [{low, high}] builds the set of one interval. *)
Record dependency : Type := mk_dependency {
  dep_name : string;
  versions : list (version * version);
}.

Definition num_intervals (d : dependency) : nat := length (versions d).

Definition single_interval (n : string) (low high : version) : dependency :=
  mk_dependency n [(low, high)].

End PackageData.

Module PackageId.
Section PackageId.
Context `{Semver}.

(** Modelled from the spec: [package_id::to_string] ([id.cpp] is not among
    the sources).  The textual form is [name@x.y.z[-pre][+meta]]: the name,
    an [@], and the version as the semver library prints it. *)
Definition to_string (p : package_id) : string :=
  name p ++ "@" ++ version_to_string (pid_version p).

(** Modelled from the spec: [package_id::parse] ([id.cpp] is not among the
    sources).  The text is cut at the [@] that stands before the version,
    its last one: the name is what stands before it, and the version,
    parsed by the semver library, what stands after it.  A text without
    [@], or with a version the library rejects, is an error. *)
Definition parse (s : string) : result package_id :=
  match Text.rindex "@"%char s with
  | None => Throw (runtime_error ("Invalid package ID '" ++ s ++ "'"))
  | Some i =>
      let ver_str := String.substring (S i) (String.length s - S i) s in
      v ← or_throw (version_parse ver_str) (invalid_version ver_str);
      mret (mk_package_id (String.substring 0 i s) v)
  end.

End PackageId.
End PackageId.

(** ** The file system

    [std::filesystem] as the code uses it: a tree of paths, each a regular
    file (with its content and modification time) or a directory. *)

Module Fs.
Import Text.

Inductive node : Type :=
| regular_file (mtime : Z) (content : string)
| directory (mtime : Z).

Abbreviation filesystem := (gmap string node).

Definition exists_ (fs : filesystem) (p : string) : bool :=
  match fs !! p with Some _ => true | None => false end.

Definition is_regular_file (fs : filesystem) (p : string) : bool :=
  match fs !! p with Some (regular_file _ _) => true | _ => false end.

Definition last_write_time (fs : filesystem) (p : string) : option Z :=
  match fs !! p with
  | Some (regular_file t _) | Some (directory t) => Some t
  | None => None
  end.

(** [slurp_file]: the content of a file; a path that cannot be opened as a
    file throws. *)
Definition slurp_file (fs : filesystem) (p : string) : result string :=
  match fs !! p with
  | Some (regular_file _ c) => Ok c
  | _ => Throw (system_error ("Failed to open file " ++ p))
  end.

Definition ends_with_slash (s : string) : bool :=
  match rindex "/"%char s with
  | Some i => Nat.eqb (S i) (String.length s)
  | None => false
  end.

(** [dir / c] for a relative [c]. *)
Definition join (dir c : string) : string :=
  if String.eqb dir "" then c
  else if ends_with_slash dir then dir ++ c
  else dir ++ "/" ++ c.

Infix "//" := join (at level 40, left associativity).

(** [path::filename]. *)
Definition filename (p : string) : string :=
  match rindex "/"%char p with
  | Some i => String.substring (S i) (String.length p - S i) p
  | None => p
  end.

(** [path::extension]: from the last dot of the file name, unless that dot
    is its first character or the name is [.] or [..]. *)
Definition extension (p : string) : string :=
  let f := filename p in
  if String.eqb f "." || String.eqb f ".." then ""
  else match rindex "."%char f with
       | Some (S i) => String.substring (S i) (String.length f - S i) f
       | _ => ""
       end.

(** The overloads of [fs::exists] and [fs::is_regular_file] that take no
    [error_code].  They throw [filesystem_error], a [std::system_error],
    when the operating system cannot tell the status of the path, as for a
    path below a directory that may not be searched or a path that is too
    long; a path at which nothing stands is no such error.  The tree does
    not tell what the system refuses: [status_error fs p] is the message of
    the error, if there is one. *)
Module Throwing.
Section Throwing.
Variable status_error : filesystem -> string -> option string.

Definition status {A} (query : filesystem -> string -> A)
    (fs : filesystem) (p : string) : result A :=
  match status_error fs p with
  | Some what => Throw (system_error what)
  | None => Ok (query fs p)
  end.

Definition exists_ : filesystem -> string -> result bool := status exists_.

Definition is_regular_file : filesystem -> string -> result bool :=
  status is_regular_file.

End Throwing.
End Throwing.

End Fs.

(** ** Package manifests ([manifest.cpp]) *)

Module Json5.

(** [json5::data]: what [json5::parse_data] returns.  A mapping lists its
    entries in the order an iteration visits them. *)
Inductive data : Type :=
| null
| boolean (b : bool)
| number (value : QArith_base.Q)
| str (s : string)
| array (items : list data)
| mapping (entries : list (string * data)).

Definition is_object (d : data) : bool :=
  match d with mapping _ => true | _ => false end.

End Json5.

Module Manifest.
Import Fs.

Inductive test_lib : Type := catch_ | catch_main.

Section Manifest.
Context `{Semver}.

(** [struct package_manifest]. *)
Record package_manifest : Type := mk_manifest {
  pkg_id : package_id;
  namespace_ : string;
  test_driver : option test_lib;
  dependencies : list dependency;
}.

(** A default-constructed manifest. *)
Definition empty_manifest : package_manifest :=
  mk_manifest (mk_package_id "" version_default) "" None [].

Definition set_name (s : string) (m : package_manifest) : package_manifest :=
  mk_manifest (mk_package_id s (pid_version (pkg_id m)))
              (namespace_ m) (test_driver m) (dependencies m).

Definition set_version (v : version) (m : package_manifest) : package_manifest :=
  mk_manifest (mk_package_id (name (pkg_id m)) v)
              (namespace_ m) (test_driver m) (dependencies m).

Definition set_namespace (s : string) (m : package_manifest) : package_manifest :=
  mk_manifest (pkg_id m) s (test_driver m) (dependencies m).

Definition set_test_driver (t : test_lib) (m : package_manifest) : package_manifest :=
  mk_manifest (pkg_id m) (namespace_ m) (Some t) (dependencies m).

Definition push_dependency (d : dependency) (m : package_manifest) : package_manifest :=
  mk_manifest (pkg_id m) (namespace_ m) (test_driver m) (dependencies m ++ [d]).

Definition set_dependencies (ds : list dependency) (m : package_manifest)
  : package_manifest :=
  mk_manifest (pkg_id m) (namespace_ m) (test_driver m) ds.

(** The variables that [lm::read] fills: [ret.pkg_id.name],
    [ret.namespace_], [version_str], [depends_strs] and [opt_test_driver].
    A variable whose key is not read keeps its initial, empty value. *)
Record dds_fields : Type := mk_dds_fields {
  f_name : string;
  f_namespace : string;
  f_version : string;
  f_depends : list string;
  f_test_driver : option string;
}.

(** The helpers of other translation units that manifest loading calls. *)
Variable parse_data : string -> option Json5.data.
Variable lm_parse_string : string -> list (string * string).

(** [lm::read] with the readers of the call: [read_required] for [Name]
    and [Version], [read_opt] for [Namespace] and [Test-Driver],
    [read_accumulate] for [Depends] and [lm_reject_dym] for any other key.
    It returns the variables as the readers left them, or throws. *)
Variable lm_read : list (string * string) -> result dds_fields.

Variable parse_depends_string : string -> result dependency.
Variable did_you_mean : string -> list string -> option string.

(** The two branches on the test driver's name, shared by both loaders.
    [*did_you_mean(...)] reads an optional that must hold a value. *)
Definition read_test_driver (s : string) (m : package_manifest)
  : result package_manifest :=
  if String.eqb s "Catch-Main" then Ok (set_test_driver catch_main m)
  else if String.eqb s "Catch" then Ok (set_test_driver catch_ m)
  else
    dym ← or_throw (did_you_mean s ["Catch-Main"; "Catch"])
                   (assertion_failure "did_you_mean returned no candidate");
    Throw (user_error unknown_test_driver
             ("Unknown 'test_driver' '" ++ s ++ "' (Did you mean '" ++ dym ++ "'?)")).

(** *** [load_from_dds_file] *)

(** [depends_strs | transform(parse_depends_string) | to_vector] *)
Fixpoint parse_all_depends (l : list string) : result (list dependency) :=
  match l with
  | [] => Ok []
  | s :: rest =>
      d ← parse_depends_string s;
      ds ← parse_all_depends rest;
      mret (d :: ds)
  end.

Definition load_from_dds_file (fs : filesystem) (fpath : string)
  : result package_manifest :=
  content ← slurp_file fs fpath;
  f ← lm_read (lm_parse_string content);
  let ret := set_namespace (f_namespace f) (set_name (f_name f) empty_manifest) in
  let version_str := f_version f in
  if String.eqb (name (pkg_id ret)) "" then
    Throw (user_error invalid_pkg_name
             ("'Name' field in [" ++ fpath ++ "] may not be an empty string"))
  else if String.eqb version_str "" then
    Throw (user_error invalid_version_string
             ("'Version' field in [" ++ fpath ++ "] may not be an empty string"))
  else
    ret ← match f_test_driver f with
          | Some s => read_test_driver s ret
          | None => Ok ret
          end;
    let ret := if String.eqb (namespace_ ret) ""
               then set_namespace (name (pkg_id ret)) ret
               else ret in
    v ← or_throw (version_parse version_str) (invalid_version version_str);
    let ret := set_version v ret in
    ds ← parse_all_depends (f_depends f);
    mret (set_dependencies ds ret).

(** *** [load_from_file] *)

(** The outcome of one [semester] handler. *)
Inductive dc_result : Type :=
| dc_accept
| dc_reject (message : string)
| dc_pass.

(** The handler of the [depends] mapping, for one entry. *)
Definition depends_entry (pkg_name : string) (range_str_ : Json5.data)
    (ret : package_manifest) : result package_manifest :=
  match range_str_ with
  | Json5.str s =>
      match range_parse_restricted s with
      | Some (low, high) => Ok (push_dependency (single_interval pkg_name low high) ret)
      | None =>
          Throw (user_error invalid_version_range_string
                   ("Invalid version range string '" ++ s
                    ++ "' in dependency declaration for '" ++ pkg_name ++ "'"))
      end
  | _ => Throw (user_error invalid_pkg_manifest
                  ("Dependency for '" ++ pkg_name ++ "' must be a range string"))
  end.

Fixpoint depends_entries (entries : list (string * Json5.data))
    (ret : package_manifest) : result package_manifest :=
  match entries with
  | [] => Ok ret
  | (k, v) :: rest => ret' ← depends_entry k v ret; depends_entries rest ret'
  end.

(** The [if_key] handlers of the root mapping, tried in order on one entry;
    the last handler rejects a key none of them names. *)
Definition manifest_entry (key : string) (value : Json5.data)
    (ret : package_manifest) : result (dc_result * package_manifest) :=
  if String.eqb key "$schema" then Ok (dc_accept, ret)
  else if String.eqb key "name" then
    match value with
    | Json5.str s => Ok (dc_accept, set_name s ret)
    | _ => Ok (dc_reject "`name` must be a string", ret)
    end
  else if String.eqb key "namespace" then
    match value with
    | Json5.str s => Ok (dc_accept, set_namespace s ret)
    | _ => Ok (dc_reject "`namespace` must be a string", ret)
    end
  else if String.eqb key "version" then
    match value with
    | Json5.str s =>
        v ← or_throw (version_parse s) (invalid_version s);
        mret (dc_accept, set_version v ret)
    | _ => Ok (dc_reject "`version` must be a string", ret)
    end
  else if String.eqb key "depends" then
    match value with
    | Json5.mapping entries =>
        ret' ← depends_entries entries ret;
        mret (dc_accept, ret')
    | _ => Ok (dc_reject
                 "`depends` must be a mapping between package names and version ranges",
               ret)
    end
  else if String.eqb key "test_driver" then
    match value with
    | Json5.str s =>
        ret' ← read_test_driver s ret;
        mret (dc_accept, ret')
    | _ => Ok (dc_reject "`test_driver` must be a string", ret)
    end
  else Ok (dc_reject ("Unknown key `" ++ key ++ "` in package manifest"), ret).

(** [mapping{...}]: the entries in turn, until one is rejected. *)
Fixpoint decompose_mapping (entries : list (string * Json5.data))
    (ret : package_manifest) : result (dc_result * package_manifest) :=
  match entries with
  | [] => Ok (dc_accept, ret)
  | (k, v) :: rest =>
      '(r, ret') ← manifest_entry k v ret;
      match r with
      | dc_reject msg => Ok (dc_reject msg, ret')
      | _ => decompose_mapping rest ret'
      end
  end.

Definition load_from_file (fs : filesystem) (fpath : string)
  : result package_manifest :=
  content ← slurp_file fs fpath;
  data ← or_throw (parse_data content) (runtime_error "json5 parse error");
  match data with
  | Json5.mapping entries =>
      '(res, ret) ← decompose_mapping entries empty_manifest;
      match res with
      | dc_reject msg => Throw (user_error invalid_pkg_manifest msg)
      | _ =>
          if String.eqb (name (pkg_id ret)) "" then
            Throw (user_error invalid_pkg_manifest "The 'name' field is required.")
          else if String.eqb (namespace_ ret) "" then
            Throw (user_error invalid_pkg_manifest "The 'namespace'` field is required.")
          else Ok ret
      end
  | _ => Throw (user_error invalid_pkg_manifest "Root value must be an object")
  end.

(** *** Looking for a manifest in a directory *)

(** The four file names looked for. *)
Definition manifest_names : list string :=
  ["package.json5"; "package.jsonc"; "package.json"; "package.dds"].

Definition cands : list string :=
  ["package.json5"; "package.jsonc"; "package.json"].

(** What the system refuses when the status of a path is asked for. *)
Variable status_error : filesystem -> string -> option string.

(** The loop over [cands]: [fs::is_regular_file(cand)] may throw. *)
Fixpoint first_regular_file (fs : filesystem) (dirpath : string) (cs : list string)
  : result (option string) :=
  match cs with
  | [] => Ok None
  | c :: rest =>
      let cand := dirpath // c in
      found ← Throwing.is_regular_file status_error fs cand;
      if found : bool then Ok (Some cand)
      else first_regular_file fs dirpath rest
  end.

Definition find_in_directory (fs : filesystem) (dirpath : string)
  : result (option string) :=
  found ← first_regular_file fs dirpath cands;
  match found : option string with
  | Some cand => Ok (Some cand)
  | None =>
      let dds_fname := dirpath // "package.dds" in
      found ← Throwing.is_regular_file status_error fs dds_fname;
      if found : bool then Ok (Some dds_fname) else Ok None
  end.

Definition load_from_directory (fs : filesystem) (dirpath : string)
  : result (option package_manifest) :=
  found ← find_in_directory fs dirpath;
  match found : option string with
  | None => Ok None
  | Some found =>
      if String.eqb (extension found) ".dds"
      then Some <$> load_from_dds_file fs found
      else Some <$> load_from_file fs found
  end.

End Manifest.
End Manifest.

(** ** The compile executor ([compile_exec.cpp]) *)

Module CompileExec.
Import Fs.

(** One record of the file-deps database ([file_deps_info]). *)
Record file_deps_info : Type := mk_file_deps_info {
  output : string;
  inputs : list string;
  command : string;
  command_output : string;
}.

(** The file-deps database: the last record stored for each output file. *)
Abbreviation database := (gmap string file_deps_info).

(** What [get_rebuild_info] returns. *)
Record deps_rebuild_info : Type := mk_rebuild_info {
  newer_inputs : list string;
  previous_command : string;
  previous_command_output : string;
}.

(** [input] was modified strictly after [output]. *)
Definition newer_than (fs : filesystem) (output input : string) : bool :=
  match last_write_time fs input, last_write_time fs output with
  | Some t_in, Some t_out => t_out <? t_in
  | _, _ => false
  end.

(** Modelled from the spec: [get_rebuild_info] ([file_deps.cpp] is not among
    the sources) returns the prior command and those inputs whose mtime is
    strictly greater than the output's; with no record for the output there
    is no prior command and no input. *)
Definition get_rebuild_info (fs : filesystem) (db : database) (output_path : string)
  : deps_rebuild_info :=
  match db !! output_path with
  | Some rec =>
      mk_rebuild_info (List.filter (newer_than fs output_path) (inputs rec))
                      (command rec) (command_output rec)
  | None => mk_rebuild_info [] "" ""
  end.

(** Modelled from the spec: [update_deps_info] ([file_deps.cpp] is not among
    the sources) stores the record under its output, replacing the one of
    the last build. *)
Definition update_deps_info (db : database) (info : file_deps_info) : database :=
  <[output info := info]> db.

Inductive file_deps_mode : Type := deps_none | deps_gnu | deps_msvc.

(** [compile_command_info]: the command line and, for GNU-style
    dependencies, the file the compiler writes them to. *)
Record compile_command_info : Type := mk_command_info {
  cmd : list string;
  gnu_depfile_path : option string;
}.

(** What the executor reads of a [compile_file_plan]. *)
Record compile_file_plan : Type := mk_plan {
  source_path : string;
  qualifier : string;
}.

(** [struct compile_file_full]. *)
Record compile_file_full : Type := mk_full {
  plan : compile_file_plan;
  object_file_path : string;
  cmd_info : compile_command_info;
}.

(** What [run_proc] returns. *)
Record proc_result : Type := mk_proc_result {
  signal : Z;
  retc : Z;
  proc_output : string;
}.

(** Modelled from the spec: [proc_result::okay] ([proc.hpp] is not among the
    sources): the process left with exit code zero and no signal. *)
Definition okay (r : proc_result) : bool := (retc r =? 0) && (signal r =? 0).

(** What [parse_msvc_output_for_deps] returns. *)
Record msvc_deps_info : Type := mk_msvc_deps {
  deps_info : file_deps_info;
  cleaned_output : string;
}.

Definition is_empty {A} (l : list A) : bool :=
  match l with [] => true | _ => false end.

(** *** [parallel_run]

    The pool as a transition system.  A step is what one worker does while
    it holds the mutex, or the completion of the job it runs outside it.
    [shared] is everything the jobs act on. *)

Section Pool.
Context {Item Shared : Type}.
Variable fn : Item -> Shared -> result unit * Shared.

Inductive worker : Type :=
| at_loop_head
| running (item : Item)
| returned.

Record pool : Type := mk_pool {
  remaining : list Item;
  exceptions : list exception;
  workers : list worker;
  shared : Shared;
}.

Definition set_worker (i : nat) (w : worker) (p : pool) : pool :=
  mk_pool (remaining p) (exceptions p) (<[i := w]> (workers p)) (shared p).

Inductive step : pool -> pool -> Prop :=
| step_break_on_exception p i :
    workers p !! i = Some at_loop_head ->
    exceptions p <> [] ->
    step p (set_worker i returned p)
| step_break_at_stop p i :
    workers p !! i = Some at_loop_head ->
    exceptions p = [] ->
    remaining p = [] ->
    step p (set_worker i returned p)
| step_take p i item rest :
    workers p !! i = Some at_loop_head ->
    exceptions p = [] ->
    remaining p = item :: rest ->
    step p (mk_pool rest (exceptions p) (<[i := running item]> (workers p)) (shared p))
| step_job_returns p i item sh :
    workers p !! i = Some (running item) ->
    fn item (shared p) = (Ok tt, sh) ->
    step p (mk_pool (remaining p) (exceptions p) (<[i := at_loop_head]> (workers p)) sh)
| step_job_throws p i item e sh :
    workers p !! i = Some (running item) ->
    fn item (shared p) = (Throw e, sh) ->
    step p (mk_pool (remaining p) (exceptions p ++ [e]) (<[i := returned]> (workers p)) sh).

Inductive steps : pool -> pool -> Prop :=
| steps_refl p : steps p p
| steps_cons p q r : step p q -> steps q r -> steps p r.

(** A bound on the steps the pool can still take: each job left costs a
    take and a completion, each worker its way out of the loop. *)
Definition weight (w : worker) : nat :=
  match w with
  | at_loop_head => 2
  | running _ => 4
  | returned => 0
  end.

Definition steps_left (p : pool) : nat :=
  (3 * length (remaining p) + list_sum (List.map weight (workers p)))%nat.

(** Every thread can be joined. *)
Definition all_returned (p : pool) : Prop :=
  Forall (fun w => w = returned) (workers p).

(** [int n_jobs] after [n_jobs = hardware_concurrency() + 2]: the sum is
    taken on [unsigned] and converted back. *)
Definition to_int32 (z : Z) : Z :=
  let m := z mod 2 ^ 32 in if m <? 2 ^ 31 then m else m - 2 ^ 32.

Definition effective_jobs (hardware_concurrency n_jobs : Z) : Z :=
  if n_jobs <? 1 then to_int32 ((hardware_concurrency + 2) mod 2 ^ 32) else n_jobs.

Definition start (rng : list Item) (hardware_concurrency n_jobs : Z) (sh : Shared) : pool :=
  mk_pool rng [] (replicate (Z.to_nat (effective_jobs hardware_concurrency n_jobs))
                            at_loop_head) sh.

(** The exception's [what()], which the pool writes to the error log. *)
Definition what (e : exception) : string :=
  match e with
  | user_error _ w | external_error _ w | sqlite3_error w
  | runtime_error w | system_error w | assertion_failure w => w
  | invalid_version s | invalid_range s => s
  | json_parse_error => "parse error"
  | json_type_error => "type error"
  end.

(** After the joins: every recorded exception is rethrown inside a [try]
    whose handler, for [std::exception], writes its message to the error
    log (every exception of the model is one), and the pool returns
    whether there was none.  The second component is the error log. *)
Definition after_join (p : pool) : result bool * list string :=
  (Ok (is_empty (exceptions p)), List.map what (exceptions p)).

(** [parallel_run rng n_jobs fn] can return [r], leaving [sh'] and having
    logged [log]. *)
Definition parallel_run (rng : list Item) (hardware_concurrency n_jobs : Z)
    (sh : Shared) (r : result bool) (log : list string) (sh' : Shared) : Prop :=
  exists p, steps (start rng hardware_concurrency n_jobs sh) p
            /\ all_returned p
            /\ after_join p = (r, log)
            /\ shared p = sh'.

End Pool.

Arguments pool : clear implicits.
Arguments worker : clear implicits.


Section Executor.

(** The build environment: helpers of other translation units and the
    toolchain, as the executor calls them. *)
Variable quote_command : list string -> string.
Variable run_proc : list string -> filesystem -> proc_result * filesystem.
Variable create_directories : string -> filesystem -> filesystem.
Variable parent_path : string -> string.
Variable parse_mkfile_deps_file : filesystem -> string -> result file_deps_info.
Variable parse_msvc_output_for_deps : string -> string -> msvc_deps_info.
Variable deps_mode : file_deps_mode.
Variable generate_compile_command : compile_file_plan -> compile_command_info.
Variable calc_object_file_path : compile_file_plan -> string.
Variable hardware_concurrency : Z.

(** *** [should_compile] *)

Definition should_compile (fs : filesystem) (db : database) (comp : compile_file_full)
  : bool :=
  if negb (exists_ fs (object_file_path comp)) then true
  else
    let rb_info := get_rebuild_info fs db (object_file_path comp) in
    if String.eqb (previous_command rb_info) "" then true
    else if negb (is_empty (newer_inputs rb_info)) then true
    else
      let cur_cmd_str := quote_command (cmd (cmd_info comp)) in
      if negb (String.eqb cur_cmd_str (previous_command rb_info)) then true
      else false.

(** *** [do_compile]

    The messages written to the log, the timing and the progress counter
    are left out; so is the trimming of [compiler_output] after the
    dependency record was built, which only the log reads. *)

Definition do_compile (cf : compile_file_full) (fs : filesystem)
  : result (option file_deps_info) * filesystem :=
  let fs := create_directories (parent_path (object_file_path cf)) fs in
  let source_path := source_path (plan cf) in
  let '(proc_res, fs) := run_proc (cmd (cmd_info cf)) fs in
  let compiled_okay := okay proc_res in
  let compiler_output := proc_output proc_res in
  let ret_deps_info : result (option file_deps_info) :=
    match deps_mode with
    | deps_gnu =>
        df_path ← or_throw (gnu_depfile_path (cmd_info cf))
                           (assertion_failure "cf.cmd_info.gnu_depfile_path.has_value()");
        if negb (is_regular_file fs df_path) then Ok None
        else
          dep_info ← parse_mkfile_deps_file fs df_path;
          _ ← assert (String.eqb (output dep_info) (object_file_path cf))
                     "dep_info.output == cf.object_file_path";
          mret (Some (mk_file_deps_info (output dep_info) (inputs dep_info)
                        (quote_command (cmd (cmd_info cf))) compiler_output))
    | deps_msvc =>
        let msvc_deps :=
          parse_msvc_output_for_deps compiler_output "Note: including file:" in
        let compiler_output := cleaned_output msvc_deps in
        if negb (is_empty (inputs (deps_info msvc_deps))) then
          Ok (Some (mk_file_deps_info
                      (object_file_path cf)
                      (inputs (deps_info msvc_deps) ++ [source_path])
                      (quote_command (cmd (cmd_info cf)))
                      compiler_output))
        else Ok None
    | deps_none => Ok None
    end in
  (r ← ret_deps_info;
   if negb compiled_okay then
     Throw (user_error compile_failure ("Compilation failed [" ++ source_path ++ "]"))
   else mret r,
   fs).

Definition realize_plan (p : compile_file_plan) : compile_file_full :=
  mk_full p (calc_object_file_path p) (generate_compile_command p).

(** *** [compile_all]

    The jobs of the pool act on the file system and on the list
    [all_new_deps], to which a job that produced a record appends it. *)

Definition compile_job (full : compile_file_full)
    (sh : filesystem * list file_deps_info)
  : result unit * (filesystem * list file_deps_info) :=
  let '(fs, all_new_deps) := sh in
  let '(new_dep, fs) := do_compile full fs in
  match new_dep with
  | Ok (Some d) => (Ok tt, (fs, (all_new_deps ++ [d])%list))
  | Ok None => (Ok tt, (fs, all_new_deps))
  | Throw e => (Throw e, (fs, all_new_deps))
  end.

(** [compile_all compiles njobs] can return [r] and leave the file system
    [fs'] and the database [db'], having logged [log]. *)
Definition compile_all (compiles : list compile_file_plan) (njobs : Z)
    (fs : filesystem) (db : database)
    (r : result bool) (log : list string) (fs' : filesystem) (db' : database) : Prop :=
  let each_realized :=
    List.filter (should_compile fs db) (List.map realize_plan compiles) in
  exists okay all_new_deps,
    parallel_run compile_job each_realized hardware_concurrency njobs (fs, [])
                 okay log (fs', all_new_deps)
    /\ db' = fold_left update_deps_info all_new_deps db
    /\ r = okay.

End Executor.


End CompileExec.

(** ** JSON values ([nlohmann::json]) *)

Module Json.

(** A parsed document.  Integers keep the two representations of the
    library: [number_unsigned] for what fits [uint64_t], [number_integer]
    for negative numbers that fit [int64_t]; any other number is a float,
    held here by its value.  An object lists its members in key order, as
    the iteration of the underlying [std::map] does. *)
Inductive json : Type :=
| null
| boolean (b : bool)
| number_integer (z : Z)
| number_unsigned (n : Z)
| number_float (value : QArith_base.Q)
| jstring (s : string)
| array (items : list json)
| object (members : list (string * json)).

Definition is_null (j : json) : bool :=
  match j with null => true | _ => false end.

Definition is_object (j : json) : bool :=
  match j with object _ => true | _ => false end.

Definition is_string (j : json) : bool :=
  match j with jstring _ => true | _ => false end.

Definition is_number_integer (j : json) : bool :=
  match j with number_integer _ | number_unsigned _ => true | _ => false end.

Fixpoint lookup_key (k : string) (members : list (string * json)) : option json :=
  match members with
  | [] => None
  | (k', v) :: rest => if String.eqb k k' then Some v else lookup_key k rest
  end.

(** [j[k]] on an object that is not [const]: a missing key reads as
    [null]. *)
Definition at_key (j : json) (k : string) : json :=
  match j with
  | object members => default null (lookup_key k members)
  | _ => null
  end.

(** [j[k] = v]: the member is replaced, or added at its place in key
    order. *)
Fixpoint set_key (k : string) (v : json) (members : list (string * json))
  : list (string * json) :=
  match members with
  | [] => [(k, v)]
  | (k', v') :: rest =>
      if String.eqb k k' then (k, v) :: rest
      else if String.ltb k k' then (k, v) :: (k', v') :: rest
      else (k', v') :: set_key k v rest
  end.

(** [items()]. *)
Definition items (j : json) : list (string * json) :=
  match j with object members => members | _ => [] end.

(** Conversion to [std::string]; any other type throws [type_error]. *)
Definition get_string (j : json) : result string :=
  match j with
  | jstring s => Ok s
  | _ => Throw json_type_error
  end.

(** [static_cast] to [int64_t] and to [int]. *)
Definition to_int64 (z : Z) : Z :=
  let m := z mod 2 ^ 64 in if m <? 2 ^ 63 then m else m - 2 ^ 64.

Definition to_int (z : Z) : Z :=
  let m := z mod 2 ^ 32 in if m <? 2 ^ 31 then m else m - 2 ^ 32.

(** Conversion of a number to [int]: the stored value is cast. *)
Definition get_int (j : json) : result Z :=
  match j with
  | number_integer z | number_unsigned z => Ok (to_int z)
  | _ => Throw json_type_error
  end.

(** [j <= i] for an [int] [i], that is [!(json(i) < j)]: two integers are
    compared as [int64_t], the unsigned one being cast, and a float by its
    value.  On any other type the comparison is one of type tags, of which
    only [null] and [boolean] are below the numbers. *)
Definition le_int (j : json) (i : Z) : bool :=
  match j with
  | number_integer z => z <=? i
  | number_unsigned n => to_int64 n <=? i
  | number_float q => QArith_base.Qle_bool q (QArith_base.inject_Z i)
  | null | boolean _ => true
  | jstring _ | array _ | object _ => false
  end.

End Json.

(** ** The catalog database ([catalog.cpp])

    The SQLite database file holds the three tables of the schema and the
    counters of its [AUTOINCREMENT] keys.  A connection adds the state of
    the open transaction. *)

Module Catalog.
Import Json.

(** A row of [dds_cat_pkgs]. *)
Record pkg_row : Type := mk_pkg_row {
  pkg_id : Z;
  row_name : string;
  row_version : string;
  git_url : option string;
  git_ref : option string;
  lm_name : option string;
  lm_namespace : option string;
  row_description : string;
}.

(** A row of [dds_cat_pkg_deps]. *)
Record dep_row : Type := mk_dep_row {
  dep_id : Z;
  dep_pkg_id : Z;
  row_dep_name : string;
  low : string;
  high : string;
}.

(** The content of the database file.  A table that was not created is
    [None]; rows are in rowid order.  [seq_pkgs] and [seq_deps] are the
    entries of [sqlite_sequence]. *)
Record tables : Type := mk_tables {
  dds_cat_meta : option (list string);
  dds_cat_pkgs : option (list pkg_row);
  dds_cat_pkg_deps : option (list dep_row);
  seq_pkgs : Z;
  seq_deps : Z;
}.

Definition empty_file : tables := mk_tables None None None 0 0.

(** A connection ([sqlite3::database]).  [journal] is the content at the
    [BEGIN] of the open transaction, to which [ROLLBACK] returns. *)
Record database : Type := mk_database {
  content : tables;
  journal : option tables;
  foreign_keys : bool;
  last_insert_rowid : Z;
}.

(** [sqlite3::database::open]: foreign keys are off on a new connection. *)
Definition database_open (file : tables) : database :=
  mk_database file None false 0.

Definition in_transaction (db : database) : bool :=
  match journal db with Some _ => true | None => false end.

(** Code that runs on the connection and may throw. *)
Definition M (A : Type) : Type := database -> result A * database.

#[export] Instance M_ret : MRet M := fun A a db => (Ok a, db).
#[export] Instance M_bind : MBind M := fun A B f m db =>
  match m db with
  | (Ok a, db') => f a db'
  | (Throw e, db') => (Throw e, db')
  end.

Definition throw {A} (e : exception) : M A := fun db => (Throw e, db).

Definition lift {A} (r : result A) : M A := fun db => (r, db).

Definition set_content (t : tables) (db : database) : database :=
  mk_database t (journal db) (foreign_keys db) (last_insert_rowid db).

(** [sqlite3::transaction_guard]: [BEGIN] when it is built, [COMMIT] when
    the scope is left normally and [ROLLBACK] when an exception leaves it.
    A guard built while a transaction is open takes no part in it. *)
Definition transaction_guard {A} (body : M A) : M A := fun db =>
  match journal db with
  | Some _ => body db
  | None =>
      let begun := mk_database (content db) (Some (content db))
                               (foreign_keys db) (last_insert_rowid db) in
      match body begun with
      | (Ok a, db') =>
          (Ok a, mk_database (content db') None
                             (foreign_keys db') (last_insert_rowid db'))
      | (Throw e, db') =>
          (Throw e, mk_database (default (content db') (journal db')) None
                                (foreign_keys db') (last_insert_rowid db'))
      end
  end.

(** [PRAGMA foreign_keys = 1] does nothing inside a transaction. *)
Definition pragma_foreign_keys_on : M unit := fun db =>
  match journal db with
  | Some _ => (Ok tt, db)
  | None => (Ok tt, mk_database (content db) (journal db) true (last_insert_rowid db))
  end.

Definition max_rowid : Z := 2 ^ 63 - 1.

(** The largest rowid a table ever held: the larger of its counter and of
    the rowids present. *)
Definition largest_rowid {R} (rowid : R -> Z) (seq : Z) (rows : list R) : Z :=
  fold_right (fun r acc => Z.max (rowid r) acc) seq rows.

(** Insertion of [r] before the first element whose key is not smaller, on
    the byte order of the keys. *)
Fixpoint insert_by {R} (key : R -> string) (r : R) (l : list R) : list R :=
  match l with
  | [] => [r]
  | x :: rest =>
      if String.leb (key r) (key x) then r :: l
      else x :: insert_by key r rest
  end.

(** [ORDER BY key]. *)
Definition order_by {R} (key : R -> string) (l : list R) : list R :=
  fold_right (insert_by key) [] l.

(** The order of [ORDER BY key] between two rows. *)
Definition by_key {R} (key : R -> string) (a b : R) : Prop :=
  String.leb (key a) (key b) = true.

(** *** The statements the catalog runs *)

Definition no_such_table (t : string) : exception :=
  sqlite3_error ("no such table: " ++ t).

Definition constraint_failed (c : string) : exception :=
  sqlite3_error ("constraint failed: " ++ c).

(** [CASE WHEN ?n = '' THEN NULL ELSE ?n END] *)
Definition null_if_empty (s : string) : option string :=
  if String.eqb s "" then None else Some s.

Definition not_null {A} (o : option A) : bool :=
  match o with Some _ => true | None => false end.

(** The two [CHECK] constraints of [dds_cat_pkgs]. *)
Definition has_source_info (r : pkg_row) : bool :=
  not_null (git_url r) && not_null (git_ref r).

Definition valid_lm_info (r : pkg_row) : bool :=
  Z.b2z (not_null (lm_name r) && not_null (lm_namespace r))
  + Z.b2z (negb (not_null (lm_name r)) && negb (not_null (lm_namespace r)))
  =? 1.

(** The rows that [UNIQUE(name, version)] sets against a new row. *)
Definition same_key (n v : string) (r : pkg_row) : bool :=
  String.eqb (row_name r) n && String.eqb (row_version r) v.

Definition references (d : dep_row) (r : pkg_row) : bool :=
  dep_pkg_id d =? pkg_id r.

(** [INSERT OR REPLACE INTO dds_cat_pkgs (...) VALUES (...)].  The row gets
    the next [pkg_id]; the rows of the same name and version are deleted,
    which the foreign key of [dds_cat_pkg_deps] forbids, when it is
    enforced, for a row that dependencies refer to. *)
Definition insert_or_replace_pkg (n v : string) (url ref : option string)
    (lm_n lm_ns : string) (descr : string) : M unit := fun db =>
  let t := content db in
  match dds_cat_pkgs t with
  | None => (Throw (no_such_table "dds_cat_pkgs"), db)
  | Some rows =>
      let largest := largest_rowid pkg_id (seq_pkgs t) rows in
      let row := mk_pkg_row (largest + 1) n v url ref
                            (null_if_empty lm_n) (null_if_empty lm_ns) descr in
      if max_rowid <=? largest then
        (Throw (sqlite3_error "database or disk is full"), db)
      else if negb (has_source_info row) then
        (Throw (constraint_failed "has_source_info"), db)
      else if negb (valid_lm_info row) then
        (Throw (constraint_failed "valid_lm_info"), db)
      else
        let replaced := List.filter (same_key n v) rows in
        let kept := List.filter (fun r => negb (same_key n v r)) rows in
        if foreign_keys db
           && existsb (fun d => existsb (references d) replaced)
                      (default [] (dds_cat_pkg_deps t))
        then (Throw (constraint_failed "FOREIGN KEY"), db)
        else
          (Ok tt,
           mk_database
             (mk_tables (dds_cat_meta t) (Some (kept ++ [row])%list) (dds_cat_pkg_deps t)
                        (largest + 1) (seq_deps t))
             (journal db) (foreign_keys db) (largest + 1))
  end.

(** The row that [insert_or_replace_pkg] writes into the table [rows]. *)
Definition new_pkg_row (t : tables) (rows : list pkg_row)
    (n v : string) (url ref : option string) (lm_n lm_ns descr : string) : pkg_row :=
  mk_pkg_row (largest_rowid pkg_id (seq_pkgs t) rows + 1) n v url ref
             (null_if_empty lm_n) (null_if_empty lm_ns) descr.

(** [INSERT INTO dds_cat_pkg_deps (pkg_id, dep_name, low, high) VALUES (...)] *)
Definition insert_dep (p : Z) (n lo hi : string) : M unit := fun db =>
  let t := content db in
  match dds_cat_pkg_deps t with
  | None => (Throw (no_such_table "dds_cat_pkg_deps"), db)
  | Some rows =>
      let largest := largest_rowid dep_id (seq_deps t) rows in
      if max_rowid <=? largest then
        (Throw (sqlite3_error "database or disk is full"), db)
      else if existsb (fun d => (dep_pkg_id d =? p) && String.eqb (row_dep_name d) n) rows
      then (Throw (constraint_failed "UNIQUE(pkg_id, dep_name)"), db)
      else if foreign_keys db
              && negb (existsb (fun r => pkg_id r =? p) (default [] (dds_cat_pkgs t)))
      then (Throw (constraint_failed "FOREIGN KEY"), db)
      else
        (Ok tt,
         mk_database
           (mk_tables (dds_cat_meta t) (dds_cat_pkgs t)
                      (Some (rows ++ [mk_dep_row (largest + 1) p n lo hi])%list)
                      (seq_pkgs t) (largest + 1))
           (journal db) (foreign_keys db) (largest + 1))
  end.

(** [SELECT ... FROM dds_cat_pkgs WHERE name = ? AND version = ?], read
    with [unpack_single_opt]: the first row, if there is one. *)
Definition select_pkg (n v : string) (db : database) : result (option pkg_row) :=
  match dds_cat_pkgs (content db) with
  | None => Throw (no_such_table "dds_cat_pkgs")
  | Some rows => Ok (head (List.filter (same_key n v) rows))
  end.

(** The query of [dependencies_of]: the dependency rows of the packages of
    that name and version, [ORDER BY dep_name]. *)
Definition select_deps (n v : string) (db : database) : result (list dep_row) :=
  match dds_cat_pkgs (content db), dds_cat_pkg_deps (content db) with
  | Some pkgs, Some deps =>
      let this_pkg_id := List.filter (same_key n v) pkgs in
      Ok (order_by row_dep_name
            (List.filter (fun d => existsb (references d) this_pkg_id) deps))
  | None, _ => Throw (no_such_table "dds_cat_pkgs")
  | _, None => Throw (no_such_table "dds_cat_pkg_deps")
  end.

Definition dq : string := String (Ascii.ascii_of_nat 34) "".

(** The text [{"version": 0}]. *)
Definition initial_meta : string := "{" ++ dq ++ "version" ++ dq ++ ": 0}".

(** [CREATE TABLE IF NOT EXISTS dds_cat_meta AS ...] *)
Definition create_meta_if_not_exists : M unit := fun db =>
  let t := content db in
  match dds_cat_meta t with
  | Some _ => (Ok tt, db)
  | None =>
      (Ok tt, set_content (mk_tables (Some [initial_meta]) (dds_cat_pkgs t)
                                     (dds_cat_pkg_deps t) (seq_pkgs t) (seq_deps t)) db)
  end.

(** [SELECT meta FROM dds_cat_meta], read with [unpack_single]. *)
Definition select_meta : M string := fun db =>
  match dds_cat_meta (content db) with
  | None => (Throw (no_such_table "dds_cat_meta"), db)
  | Some [] => (Throw (sqlite3_error "no row"), db)
  | Some (meta :: _) => (Ok meta, db)
  end.

(** [UPDATE dds_cat_meta SET meta=?] *)
Definition update_meta (meta : string) : M unit := fun db =>
  let t := content db in
  match dds_cat_meta t with
  | None => (Throw (no_such_table "dds_cat_meta"), db)
  | Some rows =>
      (Ok tt, set_content (mk_tables (Some (List.map (fun _ => meta) rows))
                                     (dds_cat_pkgs t) (dds_cat_pkg_deps t)
                                     (seq_pkgs t) (seq_deps t)) db)
  end.

(** [migrate_repodb_1]: the two [CREATE TABLE] statements, in turn. *)
Definition migrate_repodb_1 : M unit := fun db =>
  let t := content db in
  match dds_cat_pkgs t with
  | Some _ => (Throw (sqlite3_error "table dds_cat_pkgs already exists"), db)
  | None =>
      let t1 := mk_tables (dds_cat_meta t) (Some []) (dds_cat_pkg_deps t)
                          0 (seq_deps t) in
      match dds_cat_pkg_deps t1 with
      | Some _ =>
          (Throw (sqlite3_error "table dds_cat_pkg_deps already exists"),
           set_content t1 db)
      | None =>
          (Ok tt, set_content (mk_tables (dds_cat_meta t1) (dds_cat_pkgs t1)
                                         (Some []) (seq_pkgs t1) 0) db)
      end
  end.

(** *** The catalog *)

(** [lm::usage]: the namespace and the name of a library. *)
Record usage : Type := mk_usage {
  usage_namespace : string;
  usage_name : string;
}.

Record git_remote_listing : Type := mk_git {
  url : string;
  ref : string;
  auto_lib : option usage;
}.

(** [std::variant<git_remote_listing>] *)
Inductive remote_listing : Type :=
| git_remote (git : git_remote_listing).

Section Catalog.
Context `{Semver}.

(** The helpers of other libraries. *)
Variable json_parse : string -> option json.
Variable json_dump : json -> string.
Variable split_usage_string : string -> result usage.

Record package_info : Type := mk_package_info {
  ident : package_id;
  deps : list dependency;
  description : string;
  remote : remote_listing;
}.

Definition current_database_version : Z := 1.

Definition ensure_migrated : M unit :=
  transaction_guard (
    _ ← pragma_foreign_keys_on;
    _ ← create_meta_if_not_exists;
    meta_json ← select_meta;
    meta ← lift (or_throw (json_parse meta_json) json_parse_error);
    if negb (is_object meta) then throw (external_error corrupted_catalog_db "")
    else
      let version_ := at_key meta "version" in
      if negb (is_number_integer version_) then
        throw (external_error corrupted_catalog_db
                 "The catalog database metadata is invalid [bad dds_meta.version]")
      else
        version ← lift (get_int version_);
        if version >? current_database_version then
          throw (external_error catalog_too_new "")
        else
          _ ← (if version <? 1 then migrate_repodb_1 else mret tt);
          let meta := object (set_key "version" (number_integer 1) (items meta)) in
          update_meta (json_dump meta)).

(** [catalog::open] from the point where the connection is made: the [try]
    block and the [return], on a connection to a database file of content
    [file] ([empty_file] for a path where there was none).  It gives the
    catalog, or the exception, and the content of the file afterwards.
    The calls that stand before the [try], which make the directory of the
    path and the connection, are those of [CatalogOpen.open]. *)
Definition open (file : tables) : result database * tables :=
  let db := database_open file in
  match ensure_migrated db with
  | (Ok _, db') => (Ok db', content db')
  | (Throw (sqlite3_error _), db') =>
      (Throw (external_error corrupted_catalog_db ""), content db')
  | (Throw e, db') => (Throw e, content db')
  end.

Definition _store_pkg (pkg : package_info) (git : git_remote_listing) : M unit :=
  let lm_usage := default (mk_usage "" "") (auto_lib git) in
  insert_or_replace_pkg (name (ident pkg))
                        (version_to_string (pid_version (ident pkg)))
                        (Some (url git)) (Some (ref git))
                        (usage_name lm_usage) (usage_namespace lm_usage)
                        (description pkg).

(** The loop of [store] over the dependencies. *)
Fixpoint store_deps (db_pkg_id : Z) (ds : list dependency) : M unit :=
  match ds with
  | [] => mret tt
  | dep :: rest =>
      _ ← lift (assert (Nat.eqb (num_intervals dep) 1)
                       "dep.versions.num_intervals() == 1");
      match versions dep with
      | iv_1 :: _ =>
          _ ← insert_dep db_pkg_id (dep_name dep)
                         (version_to_string (fst iv_1))
                         (version_to_string (snd iv_1));
          store_deps db_pkg_id rest
      | [] => throw (assertion_failure "dep.versions.num_intervals() == 1")
      end
  end.

(** The body of [store], which its [transaction_guard] encloses. *)
Definition store_body (pkg : package_info) : M unit :=
  _ ← match remote pkg with git_remote git => _store_pkg pkg git end;
  db_pkg_id ← (fun db => (Ok (last_insert_rowid db), db));
  store_deps db_pkg_id (deps pkg).

Definition store (pkg : package_info) : M unit :=
  transaction_guard (store_body pkg).

(** A row of [dds_cat_pkg_deps] as [store] writes it for the dependency
    [d] of the package of row [p]. *)
Definition row_of_dep (p : Z) (r : dep_row) (d : dependency) : Prop :=
  dep_pkg_id r = p
  /\ row_dep_name r = dep_name d
  /\ exists lo hi, versions d = [(lo, hi)]
                   /\ low r = version_to_string lo
                   /\ high r = version_to_string hi.

(** The rows of [dependencies_of], each turned into a [dependency]. *)
Fixpoint deps_of_rows (rows : list dep_row) : result (list dependency) :=
  match rows with
  | [] => Ok []
  | r :: rest =>
      lo ← or_throw (version_parse (low r)) (invalid_version (low r));
      hi ← or_throw (version_parse (high r)) (invalid_version (high r));
      ds ← deps_of_rows rest;
      mret (single_interval (row_dep_name r) lo hi :: ds)
  end.

Definition dependencies_of (db : database) (pkg : package_id)
  : result (list dependency) :=
  rows ← select_deps (name pkg) (version_to_string (pid_version pkg)) db;
  deps_of_rows rows.

(** [catalog::get].  The function is [noexcept] and does not change the
    database: a [Throw] here ends the program.  The suggestion it leaves
    for the error message of a miss is not modelled. *)
Definition get (db : database) (pk_id : package_id) : result (option package_info) :=
  opt_tup ← select_pkg (name pk_id) (version_to_string (pid_version pk_id)) db;
  match opt_tup with
  | None => Ok None
  | Some row =>
      _ ← assert (String.eqb (name pk_id) (row_name row)) "pk_id.name == name";
      v ← or_throw (version_parse (row_version row)) (invalid_version (row_version row));
      _ ← assert (bool_decide (pid_version pk_id = v))
                 "pk_id.version == semver::version::parse(version)";
      git_url ← or_throw (git_url row) (assertion_failure "git_url");
      git_ref ← or_throw (git_ref row) (assertion_failure "git_ref");
      deps ← dependencies_of db pk_id;
      lm ← match lm_name row with
           | Some lm_name =>
               lm_namespace ← or_throw (lm_namespace row)
                                       (assertion_failure "lm_namespace");
               mret (Some (mk_usage lm_namespace lm_name))
           | None => Ok None
           end;
      mret (Some (mk_package_info pk_id deps (row_description row)
                                  (git_remote (mk_git git_url git_ref lm))))
  end.

(** *** [import_json_str] *)

Definition check_json (b : bool) (what : string) : result unit :=
  if b then Ok tt
  else Throw (user_error invalid_catalog_json ("Catalog JSON is invalid: " ++ what)).

(** The error of a document of a later format. *)
Definition too_new : exception :=
  user_error invalid_catalog_json
    "Catalog JSON is invalid: /version is too new. We don't know how to parse this.".

(** The loop over the members of [depends]. *)
Fixpoint import_deps (pkg_name version_ : string) (members : list (string * json))
  : result (list dependency) :=
  match members with
  | [] => Ok []
  | (dep_name, dep_version) :: rest =>
      _ ← check_json (is_string dep_version)
            ("/packages/" ++ pkg_name ++ "/" ++ version_ ++ "/depends/" ++ dep_name
             ++ " must be a string");
      s ← get_string dep_version;
      range ← or_throw (range_parse s) (invalid_range s);
      ds ← import_deps pkg_name version_ rest;
      mret (single_interval dep_name (fst range) (snd range) :: ds)
  end.

(** The body of the inner loop up to the call of [store]: the
    [package_info] described by one member of a package's versions. *)
Definition import_info (pkg_name version_ : string) (pkg_info : json)
  : result package_info :=
  version ← or_throw (version_parse version_) (invalid_version version_);
  _ ← check_json (is_object pkg_info)
        ("/packages/" ++ pkg_name ++ "/" ++ version_ ++ " must be an object");
  let deps := at_key pkg_info "depends" in
  info_deps ←
    (if negb (is_null deps) then
       _ ← check_json (is_object deps)
             ("/packages/" ++ pkg_name ++ "/" ++ version_ ++ "/depends must be an object");
       import_deps pkg_name version_ (items deps)
     else Ok []);
  let git_remote_ := at_key pkg_info "git" in
  info_remote ←
    (if negb (is_null git_remote_) then
       _ ← check_json (is_object git_remote_) "`git` must be an object";
       url ← get_string (at_key git_remote_ "url");
       ref ← get_string (at_key git_remote_ "ref");
       let lm_usage := at_key git_remote_ "auto-lib" in
       autolib ←
         (if negb (is_null lm_usage) then
            s ← get_string lm_usage;
            u ← split_usage_string s;
            mret (Some u)
          else Ok None);
       mret (git_remote (mk_git url ref autolib))
     else
       Throw (user_error no_catalog_remote_info
                ("No remote info for /packages/" ++ pkg_name ++ "/" ++ version_)));
  let desc_ := at_key pkg_info "description" in
  info_description ←
    (if negb (is_null desc_) then
       _ ← check_json (is_string desc_) "`description` must be a string";
       get_string desc_
     else Ok "");
  mret (mk_package_info (mk_package_id pkg_name version)
                        info_deps info_description info_remote).

(** The inner loop: the versions of one package. *)
Fixpoint import_versions (pkg_name : string) (members : list (string * json))
  : M unit :=
  match members with
  | [] => mret tt
  | (version_, pkg_info) :: rest =>
      info ← lift (import_info pkg_name version_ pkg_info);
      _ ← store info;
      import_versions pkg_name rest
  end.

(** The outer loop: the packages. *)
Fixpoint import_packages (members : list (string * json)) : M unit :=
  match members with
  | [] => mret tt
  | (pkg_name, versions_map) :: rest =>
      _ ← lift (check_json (is_object versions_map)
                  ("/packages/" ++ pkg_name ++ " must be an object"));
      _ ← import_versions pkg_name (items versions_map);
      import_packages rest
  end.

Definition import_json_str (content : string) : M unit :=
  root ← lift (or_throw (json_parse content) json_parse_error);
  _ ← lift (check_json (is_object root)
              "Root of JSON must be an object (key-value mapping)");
  let version := at_key root "version" in
  _ ← lift (check_json (is_number_integer version)
              "/version must be an integral value");
  _ ← lift (check_json (le_int version 1)
              "/version is too new. We don't know how to parse this.");
  let packages := at_key root "packages" in
  _ ← lift (check_json (is_object packages) "/packages must be an object");
  transaction_guard (import_packages (items packages)).

(** The packages a document describes: the name and the version text of
    every member of every package. *)
Definition described_packages (root : json) : list (string * string) :=
  flat_map (fun '(pkg_name, versions_map) =>
              List.map (fun '(version_, _) => (pkg_name, version_)) (items versions_map))
           (items (at_key root "packages")).

End Catalog.

(** The package of name [n] and version text [v] has a row. *)
Definition has_package (t : tables) (n v : string) : Prop :=
  exists rows r, dds_cat_pkgs t = Some rows /\ In r rows /\ same_key n v r = true.

(** What holds of the file of a catalog: the two tables of the schema
    exist, and no dependency refers to a [pkg_id] beyond the largest that
    was ever given out. *)
Definition catalog_inv (t : tables) : Prop :=
  exists pkgs deps,
    dds_cat_pkgs t = Some pkgs
    /\ dds_cat_pkg_deps t = Some deps
    /\ Forall (fun d => dep_pkg_id d <= largest_rowid pkg_id (seq_pkgs t) pkgs) deps.

End Catalog.

(** ** An instance of the semver interface

    Versions [major.minor.patch] of decimal numbers, and the ranges [^v],
    from [v] up to the next major version.  The examples below run the model
    on it. *)

Module NumericSemver.

Definition print (n : nat) : string :=
  DecimalString.NilEmpty.string_of_uint (Nat.to_uint n).

Definition read (s : string) : option nat :=
  if String.eqb s "" then None
  else Nat.of_uint <$> DecimalString.NilEmpty.uint_of_string s.

(** The text before and after the first dot. *)
Fixpoint split_dot (s : string) : option (string * string) :=
  match s with
  | EmptyString => None
  | String c rest =>
      if Ascii.eqb c "."%char then Some (EmptyString, rest)
      else '(a, b) ← split_dot rest; Some (String c a, b)
  end.

Definition to_string (v : nat * nat * nat) : string :=
  let '(major, minor, patch) := v in
  print major ++ "." ++ print minor ++ "." ++ print patch.

Definition parse (s : string) : option (nat * nat * nat) :=
  '(a, r) ← split_dot s;
  '(b, c) ← split_dot r;
  major ← read a;
  minor ← read b;
  patch ← read c;
  Some (major, minor, patch).

Definition parse_range (s : string) : option ((nat * nat * nat) * (nat * nat * nat)) :=
  match s with
  | String c rest =>
      if Ascii.eqb c "^"%char then
        low ← parse rest;
        Some (low, (S (fst (fst low)), 0%nat, 0%nat))
      else None
  | EmptyString => None
  end.

#[export] Instance semver : Semver := {|
  version := nat * nat * nat;
  version_default := (0%nat, 0%nat, 0%nat);
  version_parse := parse;
  version_to_string := to_string;
  range_parse := parse_range;
  range_parse_restricted := parse_range;
|}.

End NumericSemver.

(** * Further parts of the code

    The listings of the catalog and the opening of a catalog at a path
    ([catalog.cpp]), the order of package ids ([id.hpp]) and the making of
    archives ([src/dds/build/plan/archive.cpp]), with the vocabulary of the
    properties stated of them further down. *)

(** ** The listings of the catalog ([catalog::all], [catalog::by_name]) *)

Module CatalogListing.
Import Catalog.

Section Listing.
Context `{Semver}.

(** The order in which a [SELECT] without [ORDER BY] yields the rows it
    selects is the choice of the query planner. *)
Variable table_scan : list pkg_row -> list pkg_row.

(** [pair_to_pkg_id]: the version text of the row is parsed. *)
Definition pair_to_pkg_id (pair : string * string) : result package_id :=
  let '(name, ver) := pair in
  v ← or_throw (version_parse ver) (invalid_version ver);
  mret (mk_package_id name v).

(** [... | transform(pair_to_pkg_id) | to_vector] *)
Fixpoint to_pkg_ids (pairs : list (string * string)) : result (list package_id) :=
  match pairs with
  | [] => Ok []
  | p :: rest =>
      id ← pair_to_pkg_id p;
      ids ← to_pkg_ids rest;
      mret (id :: ids)
  end.

(** [SELECT name, version FROM dds_cat_pkgs], with or without a [WHERE]. *)
Definition select_name_version (where_ : pkg_row -> bool) (db : database)
  : result (list (string * string)) :=
  match dds_cat_pkgs (content db) with
  | None => Throw (no_such_table "dds_cat_pkgs")
  | Some rows =>
      Ok (List.map (fun r => (row_name r, row_version r))
                   (table_scan (List.filter where_ rows)))
  end.

(** [catalog::all] and [catalog::by_name].  Both are [noexcept]: a [Throw]
    here ends the program. *)
Definition all (db : database) : result (list package_id) :=
  pairs ← select_name_version (fun _ => true) db;
  to_pkg_ids pairs.

Definition by_name (db : database) (sv : string) : result (list package_id) :=
  pairs ← select_name_version (fun r => String.eqb (row_name r) sv) db;
  to_pkg_ids pairs.

(** Both listings run the same query, with another [WHERE]. *)
Definition listing (where_ : pkg_row -> bool) (db : database) : result (list package_id) :=
  pairs ← select_name_version where_ db;
  to_pkg_ids pairs.

(** The columns that a listing reads of a row, and the id that the row is
    listed as. *)
Definition name_version (r : pkg_row) : string * string := (row_name r, row_version r).

Definition listed_as (p : string * string) (id : package_id) : Prop :=
  pair_to_pkg_id p = Ok id.

(** The dependency that a row of [dds_cat_pkg_deps] is read as. *)
Definition read_as (r : dep_row) (d : dependency) : Prop :=
  dep_name d = row_dep_name r /\ num_intervals d = 1%nat.

End Listing.

(** The [git] member of a package description of a catalog document names
    a URL and a ref. *)
Definition has_git_remote (pkg_info : Json.json) : Prop :=
  exists url ref,
    Json.at_key (Json.at_key pkg_info "git") "url" = Json.jstring url
    /\ Json.at_key (Json.at_key pkg_info "git") "ref" = Json.jstring ref.

End CatalogListing.

(** ** Opening a catalog at a path ([catalog::open]) *)

Module CatalogOpen.
Import Json Catalog.

Section Open.
Variable json_parse : string -> option json.
Variable json_dump : json -> string.

(** The calls that stand before the [try] of [catalog::open].  Each of
    them can throw: [fs::weakly_canonical] and [fs::create_directories] a
    [filesystem_error], [sqlite3::database::open] a [sqlite3_error] (its
    message is [connect_error], if the connection cannot be made).  The
    catalog does not read the directory tree, so that of these calls the
    model keeps the exception. *)
Variable weakly_canonical : string -> result string.
Variable parent_path : string -> string.
Variable create_directories : string -> result unit.
Variable connect_error : string -> option string.

(** [sqlite3::database::open(db_path)], then the [try] block. *)
Definition connect (db_path : string) (file : tables) : result database * tables :=
  match connect_error db_path with
  | Some what => (Throw (sqlite3_error what), file)
  | None => Catalog.open json_parse json_dump file
  end.

(** [catalog::open(db_path)], where the file at [db_path] has the content
    [file].  No [catch] stands around the first calls: what they throw
    leaves [open] as it is.  The database of [":memory:"] is a new one,
    and no file is touched for it. *)
Definition open (db_path : string) (file : tables) : result database * tables :=
  if negb (String.eqb db_path ":memory:") then
    match dir ← weakly_canonical db_path; create_directories (parent_path dir) with
    | Throw e => (Throw e, file)
    | Ok _ => connect db_path file
    end
  else (fst (connect db_path empty_file), file).

End Open.
End CatalogOpen.

(** ** Manifests: the keys of the JSON format *)

Module ManifestKeys.
Import Manifest.

(** The keys that the handlers of [load_from_file] take. *)
Definition known_keys : list string :=
  ["$schema"; "name"; "namespace"; "version"; "depends"; "test_driver"].

(** Every dependency listed has one version interval. *)
Definition single_intervals `{Semver} (m : package_manifest) : Prop :=
  Forall (fun d => num_intervals d = 1%nat) (dependencies m).

End ManifestKeys.

(** ** The compile executor: the process of a compilation, and the items of
    the pool *)

Module CompileRuns.
Import Fs CompileExec.

(** The outcome of the compiler process that [do_compile] starts. *)
Definition compiler_run (run_proc : list string -> filesystem -> proc_result * filesystem)
    (create_directories : string -> filesystem -> filesystem)
    (parent_path : string -> string)
    (cf : compile_file_full) (fs : filesystem) : proc_result :=
  fst (run_proc (cmd (cmd_info cf))
                (create_directories (parent_path (object_file_path cf)) fs)).

Section Items.
Context {Item Shared : Type}.
Variable fn : Item -> Shared -> result unit * Shared.

(** The item that a worker runs, if it runs one. *)
Definition job_of (w : worker Item) : option Item :=
  match w with running item => Some item | _ => None end.

Definition running_items (ws : list (worker Item)) : list Item := omap job_of ws.

(** The number of workers that have left the loop. *)
Definition has_returned (w : worker Item) : bool :=
  match w with returned => true | _ => false end.

Definition returned_workers (ws : list (worker Item)) : nat :=
  length (List.filter has_returned ws).

(** The effect of one job on what the jobs share. *)
Definition run (s : Shared) (item : Item) : Shared := snd (fn item s).

(** What holds of the pool as long as no job throws: every item of the
    range is done, running or left; what was done makes up the shared
    state; and a worker has left the loop only when no item was left. *)
Definition all_accounted (rng : list Item) (sh : Shared) (p : pool Item Shared) : Prop :=
  exceptions p = []
  /\ (exists done,
        Permutation (done ++ running_items (workers p) ++ remaining p) rng
        /\ shared p = fold_left run done sh)
  /\ ((exists i, workers p !! i = Some returned) -> remaining p = []).

End Items.
End CompileRuns.

(** ** The order of package ids ([id.hpp]) *)

(** [operator<] of [semver::version]. *)
Class SemverOrder `{Semver} : Type :=
  version_lt : version -> version -> bool.

(** It is a strict total order. *)
Class SemverStrictOrder `{SemverOrder} : Prop := {
  version_lt_irrefl : forall a, version_lt a a = false;
  version_lt_trans : forall a b c,
    version_lt a b = true -> version_lt b c = true -> version_lt a c = true;
  version_lt_total : forall a b,
    version_lt a b = false -> version_lt b a = false -> a = b;
}.

Module PackageIdOrder.
Section Order.
Context `{SemverOrder}.

(** [operator<]: [std::tie(lhs.name, lhs.version) < std::tie(rhs.name,
    rhs.version)].  Tuples are compared member by member with [<] alone:
    the first member that is smaller on either side decides. *)
Definition lt (lhs rhs : package_id) : bool :=
  if String.ltb (name lhs) (name rhs) then true
  else if String.ltb (name rhs) (name lhs) then false
  else version_lt (pid_version lhs) (pid_version rhs).

(** [operator==]: both members are equal. *)
Definition eq (lhs rhs : package_id) : bool :=
  String.eqb (name lhs) (name rhs)
  && bool_decide (pid_version lhs = pid_version rhs).

End Order.
End PackageIdOrder.

(** ** Paths as [fs::path] compares them *)

Module Paths.
Import Fs.

(** The texts that the slashes of a path separate. *)
Fixpoint split_at_slash (p : string) : list string :=
  match p with
  | EmptyString => [""]
  | String c rest =>
      if Ascii.eqb c "/" then "" :: split_at_slash rest
      else match split_at_slash rest with
           | e :: es => String c e :: es
           | [] => [String c ""]
           end
  end.

(** What an iteration over a path visits: the root directory, if the path
    begins with a slash; the names between the slashes, where slashes that
    follow one another count as one; and an empty name at the end, if the
    path ends on a slash. *)
Definition path_elements (p : string) : bool * list string * bool :=
  (String.prefix "/" p,
   List.filter (fun e => negb (String.eqb e "")) (split_at_slash p),
   ends_with_slash p).

(** [operator==] of [fs::path]: two paths are equal when they have the
    same elements, so that [x/y] and [x//y] are one path. *)
Definition same_path (p q : string) : Prop := path_elements p = path_elements q.

End Paths.

(** ** Archives ([archive.cpp]) *)

Module Archive.
Import Fs CompileExec.

(** A directory that holds an entry. *)
Definition has_entries (fs : filesystem) (p : string) : bool :=
  existsb (fun q => String.prefix (p ++ "/") q) (List.map fst (map_to_list fs)).

(** [archive_spec]: what the toolchain makes the command of. *)
Record archive_spec : Type := mk_archive_spec {
  input_files : list string;
  out_path : string;
}.

Record create_archive_plan : Type := mk_archive_plan {
  _name : string;
  _subdir : string;
  _compile_files : list compile_file_plan;
}.

Section Archive.

(** The build environment and the helpers of other translation units. *)
Variable output_root : string.
Variable archive_suffix : string.
Variable create_archive_command : archive_spec -> list string.
Variable calc_object_file_path : compile_file_plan -> string.
Variable run_proc : list string -> filesystem -> proc_result * filesystem.
Variable parent_path : string -> string.

(** The calls of [std::filesystem] in [archive] take no [error_code]: each
    of them throws [filesystem_error] when the operating system refuses.
    [status_error] and [remove_error] are the messages of the errors that
    the tree does not tell of, as for a file in a directory that may not
    be written; [fs::relative] and [fs::create_directories] are known by
    what they return or throw, and [fs::create_directories] by the tree it
    leaves in both cases. *)
Variable status_error : filesystem -> string -> option string.
Variable remove_error : filesystem -> string -> option string.
Variable create_directories : string -> filesystem -> result unit * filesystem.
Variable relative : string -> string -> filesystem -> result string.

(** [fs::remove]: a file or an empty directory is deleted; a directory
    that holds an entry cannot be, and neither can what the system
    refuses to delete. *)
Definition remove (fs : filesystem) (p : string) : result filesystem :=
  match remove_error fs p with
  | Some what => Throw (system_error what)
  | None =>
      match fs !! p with
      | None => Ok fs
      | Some (regular_file _ _) => Ok (delete p fs)
      | Some (directory _) =>
          if has_entries fs p
          then Throw (system_error ("cannot remove " ++ p ++ ": Directory not empty"))
          else Ok (delete p fs)
      end
  end.

(** [calc_archive_file_path]; the subdirectory of a plan is a relative
    path.  Paths are kept as their text; [Paths.same_path] tells when two
    texts are one [fs::path]. *)
Definition calc_archive_file_path (plan : create_archive_plan) : string :=
  output_root // _subdir plan // ("lib" ++ _name plan ++ archive_suffix).

(** The archive command of a plan: the object files of its compilations,
    in their order, and the path of the archive. *)
Definition archive_command (plan : create_archive_plan) : list string :=
  let objects := List.map calc_object_file_path (_compile_files plan) in
  create_archive_command (mk_archive_spec objects (calc_archive_file_path plan)).

(** What [archive] does to the file system before it runs the command:
    the prior copy of the archive is removed, and the directory of the
    archive is made. *)
Definition archive_setup (plan : create_archive_plan) (fs : filesystem)
  : result unit * filesystem :=
  let out_path := calc_archive_file_path plan in
  match Throwing.exists_ status_error fs out_path with
  | Throw e => (Throw e, fs)
  | Ok found =>
      match (if found : bool then remove fs out_path else Ok fs) with
      | Throw e => (Throw e, fs)
      | Ok fs => create_directories (parent_path out_path) fs
      end
  end.

(** [create_archive_plan::archive].  The messages written to the log and
    the timing are left out. *)
Definition archive (plan : create_archive_plan) (fs : filesystem)
  : result unit * filesystem :=
  match relative (calc_archive_file_path plan) output_root fs with
  | Throw e => (Throw e, fs)
  | Ok out_relpath =>
      match archive_setup plan fs with
      | (Throw e, fs) => (Throw e, fs)
      | (Ok _, fs) =>
          let '(ar_res, fs) := run_proc (archive_command plan) fs in
          if negb (okay ar_res) then
            (Throw (runtime_error ("Creating archive [" ++ out_relpath ++ "] failed for '"
                                   ++ _name plan ++ "'")),
             fs)
          else (Ok tt, fs)
      end
  end.

End Archive.
End Archive.

(** ** Example data

    Concrete inputs on which the properties below are exercised. *)

Module ManifestExamples.
Import Fs Manifest NumericSemver.

(** A project directory with a legacy manifest and one with a JSON
    manifest, neither naming a namespace, and a directory with sources
    only. *)
Definition example_fs : filesystem :=
  list_to_map
    [("legacy/package.dds", regular_file 10 "Name: a; Version: 1.2.3");
     ("modern/package.json5", regular_file 10 "{name: 'a', version: '1.2.3'}");
     ("bare/src", directory 10);
     ("bare/package.json", directory 10)].

Definition example_lm_parse (content : string) : list (string * string) :=
  if String.eqb content "Name: a; Version: 1.2.3"
  then [("Name", "a"); ("Version", "1.2.3")]
  else [].

(** A reader of key-value pairs for the examples: a key that is read once
    is refused a second time, and so is a key that no reader takes. *)
Definition read_pair (kv : string * string) (seen : list string) (f : dds_fields)
  : result (list string * dds_fields) :=
  let '(key, value) := kv in
  let once (f' : dds_fields) : result (list string * dds_fields) :=
    if existsb (String.eqb key) seen
    then Throw (runtime_error ("Duplicated key '" ++ key ++ "' is not allowed."))
    else Ok (key :: seen, f') in
  if String.eqb key "Name" then
    once (mk_dds_fields value (f_namespace f) (f_version f) (f_depends f) (f_test_driver f))
  else if String.eqb key "Namespace" then
    once (mk_dds_fields (f_name f) value (f_version f) (f_depends f) (f_test_driver f))
  else if String.eqb key "Version" then
    once (mk_dds_fields (f_name f) (f_namespace f) value (f_depends f) (f_test_driver f))
  else if String.eqb key "Depends" then
    Ok (seen, mk_dds_fields (f_name f) (f_namespace f) (f_version f)
                            (f_depends f ++ [value]) (f_test_driver f))
  else if String.eqb key "Test-Driver" then
    once (mk_dds_fields (f_name f) (f_namespace f) (f_version f) (f_depends f) (Some value))
  else Throw (runtime_error ("Unknown key '" ++ key ++ "'")).

Fixpoint read_pairs (kvs : list (string * string)) (seen : list string) (f : dds_fields)
  : result (list string * dds_fields) :=
  match kvs with
  | [] => Ok (seen, f)
  | kv :: rest => '(seen', f') ← read_pair kv seen f; read_pairs rest seen' f'
  end.

Definition example_lm_read (kvs : list (string * string)) : result dds_fields :=
  '(seen, f) ← read_pairs kvs [] (mk_dds_fields "" "" "" [] None);
  if negb (existsb (String.eqb "Name") seen) then
    Throw (runtime_error "Missing required key 'Name'")
  else if negb (existsb (String.eqb "Version") seen) then
    Throw (runtime_error "Missing required key 'Version'")
  else Ok f.

Definition example_parse_data (content : string) : option Json5.data :=
  if String.eqb content "{name: 'a', version: '1.2.3'}"
  then Some (Json5.mapping [("name", Json5.str "a"); ("version", Json5.str "1.2.3")])
  else None.

Definition manifest_a : package_manifest :=
  mk_manifest (mk_package_id (H := semver) "a" (1, 2, 3)%nat) "a" None [].

Definition no_depends (s : string) : result dependency :=
  Throw (user_error invalid_version_range_string s).

Definition no_suggestion (s : string) (candidates : list string) : option string := None.

(** A system that can tell the status of every path, and one on which the
    directory [locked], which holds a source file only, may not be
    searched. *)
Definition no_status_error (fs : filesystem) (p : string) : option string := None.

Definition locked_fs : filesystem :=
  list_to_map
    [("locked", directory 10);
     ("locked/main.cpp", regular_file 10 "int main() {}")].

Definition locked_status_error (fs : filesystem) (p : string) : option string :=
  if String.prefix "locked/" p
  then Some ("filesystem error: status: Permission denied [" ++ p ++ "]")
  else None.

End ManifestExamples.

Module CompileExamples.
Import Fs CompileExec.

(** A toolchain whose compiler fails on every source, and one that reports
    the headers it read the way [cl.exe /showIncludes] does. *)
Definition example_quote (command : list string) : string := String.concat " " command.

Definition failing_proc (command : list string) (fs : filesystem)
  : proc_result * filesystem :=
  (mk_proc_result 0 1 "a.cpp:1: error: expected ';'", fs).

Definition msvc_proc (command : list string) (fs : filesystem)
  : proc_result * filesystem :=
  (mk_proc_result 0 0 "Note: including file: a.hpp", fs).

Definition example_msvc_parse (output leader : string) : msvc_deps_info :=
  if String.eqb output "Note: including file: a.hpp"
  then mk_msvc_deps (mk_file_deps_info "" ["a.hpp"] "" "") ""
  else mk_msvc_deps (mk_file_deps_info "" [] "" "") output.

Definition no_directories (p : string) (fs : filesystem) : filesystem := fs.

Definition example_parent (p : string) : string := "_build".

Definition no_mkfile_deps (fs : filesystem) (p : string) : result file_deps_info :=
  Throw (system_error p).

Definition example_command (p : compile_file_plan) : compile_command_info :=
  mk_command_info ["c++"; "-c"; source_path p] None.

Definition example_object (p : compile_file_plan) : string :=
  "_build/" ++ source_path p ++ ".o".

Definition plan_a : compile_file_plan := mk_plan "a.cpp" "lib".

(** A build tree in which [a.cpp] was edited after [a.cpp.o] was made. *)
Definition edited_fs : filesystem :=
  list_to_map
    [("a.cpp", regular_file 7 "int main() {}");
     ("_build/a.cpp.o", regular_file 5 "")].

Definition edited_db : database :=
  {[ "_build/a.cpp.o" := mk_file_deps_info "_build/a.cpp.o" ["a.cpp"] "c++ -c a.cpp" "" ]}.

(** The same tree before the edit. *)
Definition built_fs : filesystem :=
  list_to_map
    [("a.cpp", regular_file 4 "int main() {}");
     ("_build/a.cpp.o", regular_file 5 "")].

Definition plan_b : compile_file_plan := mk_plan "b.cpp" "lib".

End CompileExamples.

Module CatalogExamples.
Import Json Catalog NumericSemver.

(** A database written by a later release, whose schema version does not
    fit an [int]. *)
Definition quoted (s : string) : string := dq ++ s ++ dq.

Definition meta_of_version (digits : string) : string :=
  "{" ++ quoted "version" ++ ": " ++ digits ++ "}".

Definition far_future_file : tables :=
  mk_tables (Some [meta_of_version "4294967297"]) (Some []) (Some []) 0 0.

Definition next_release_file : tables :=
  mk_tables (Some [meta_of_version "2"]) (Some []) (Some []) 0 0.

(** The documents of the examples, as text and parsed. *)
Definition doc_version_2_text : string :=
  "{" ++ quoted "version" ++ ": 2, " ++ quoted "packages" ++ ": {}}".

Definition doc_version_2 : json :=
  object [("packages", object []); ("version", number_unsigned 2)].

Definition git_text : string :=
  quoted "git" ++ ": {" ++ quoted "url" ++ ": " ++ quoted "u" ++ ", "
  ++ quoted "ref" ++ ": " ++ quoted "r" ++ "}".

Definition doc_a_text : string :=
  "{" ++ quoted "version" ++ ": 1, " ++ quoted "packages" ++ ": {"
  ++ quoted "a" ++ ": {" ++ quoted "1.0.0" ++ ": {" ++ git_text ++ ", "
  ++ quoted "depends" ++ ": {" ++ quoted "b" ++ ": " ++ quoted "^1.2.0" ++ "}}}}}".

Definition doc_a : json :=
  object
    [("packages",
      object
        [("a",
          object
            [("1.0.0",
              object
                [("depends", object [("b", jstring "^1.2.0")]);
                 ("git", object [("ref", jstring "r"); ("url", jstring "u")])])])]);
     ("version", number_unsigned 1)].

(** The second package of this document has no [git] member. *)
Definition doc_partial_text : string :=
  "{" ++ quoted "version" ++ ": 1, " ++ quoted "packages" ++ ": {"
  ++ quoted "a" ++ ": {" ++ quoted "1.0.0" ++ ": {" ++ git_text ++ "}}, "
  ++ quoted "b" ++ ": {" ++ quoted "2.0.0" ++ ": {}}}}".

Definition doc_partial : json :=
  object
    [("packages",
      object
        [("a",
          object
            [("1.0.0",
              object [("git", object [("ref", jstring "r"); ("url", jstring "u")])])]);
         ("b", object [("2.0.0", object [])])]);
     ("version", number_unsigned 1)].

Definition example_json_parse (text : string) : option json :=
  if String.eqb text initial_meta then Some (object [("version", number_unsigned 0)])
  else if String.eqb text (meta_of_version "1")
       then Some (object [("version", number_unsigned 1)])
  else if String.eqb text (meta_of_version "2")
       then Some (object [("version", number_unsigned 2)])
  else if String.eqb text (meta_of_version "4294967297")
       then Some (object [("version", number_unsigned 4294967297)])
  else if String.eqb text doc_version_2_text then Some doc_version_2
  else if String.eqb text doc_a_text then Some doc_a
  else if String.eqb text doc_partial_text then Some doc_partial
  else None.

Definition example_json_dump (j : json) : string :=
  match j with
  | object [(k, number_integer 1)] =>
      if String.eqb k "version" then meta_of_version "1" else "null"
  | _ => "null"
  end.

Definition example_split_usage (s : string) : result usage :=
  Throw (runtime_error ("Invalid usage string: " ++ s)).

(** A catalog right after its creation. *)
Definition fresh_catalog : database :=
  mk_database (mk_tables (Some [meta_of_version "1"]) (Some []) (Some []) 0 0)
              None false 0.

Definition v (major minor patch : nat) : version := (major, minor, patch).

(** Two descriptions of [a@1.0.0], with different dependencies. *)
Definition pkg_a : package_info :=
  mk_package_info (mk_package_id "a" (v 1 0 0))
    [single_interval "zlib" (v 1 2 0) (v 2 0 0);
     single_interval "fmt" (v 6 0 0) (v 7 0 0)]
    "first"
    (git_remote (mk_git "u" "r" (Some (mk_usage "a" "a")))).

Definition pkg_a' : package_info :=
  mk_package_info (mk_package_id "a" (v 1 0 0))
    [single_interval "spdlog" (v 1 4 0) (v 2 0 0)]
    "second"
    (git_remote (mk_git "u" "r2" None)).

(** A package whose [auto_lib] is present with an empty name and
    namespace. *)
Definition pkg_blank_auto_lib : package_info :=
  mk_package_info (mk_package_id "a" (v 1 0 0)) [] "d"
    (git_remote (mk_git "u" "r" (Some (mk_usage "" "")))).

End CatalogExamples.

(** ** More example data *)

Module ListingExamples.
Import Json Catalog CatalogExamples NumericSemver.

(** A scan that yields the rows in the order of their rowids. *)
Definition rowid_order (rows : list pkg_row) : list pkg_row := rows.

(** A second package, and the catalog after [a@1.0.0] and after both were
    stored. *)
Definition pkg_b : package_info :=
  mk_package_info (mk_package_id "b" (v 1 2 3))
    [single_interval "a" (v 1 0 0) (v 2 0 0)]
    "the second package"
    (git_remote (mk_git "u/b" "1.2.3" None)).

Definition catalog_a : database := snd (store pkg_a fresh_catalog).

Definition catalog_ab : database := snd (store pkg_b catalog_a).

End ListingExamples.

Module OpenExamples.

(** A system on which every directory can be made, and on which no
    database below the read-only directory [ro] can be opened. *)
Definition canonical_as_given (p : string) : result string := Ok p.

Definition directory_of (p : string) : string :=
  match Text.rindex "/"%char p with
  | Some i => String.substring 0 i p
  | None => ""
  end.

Definition directories_made (p : string) : result unit := Ok tt.

Definition read_only_connect_error (p : string) : option string :=
  if String.prefix "ro/" p then Some "unable to open database file" else None.

End OpenExamples.

Module ManifestMoreExamples.
Import Fs Manifest NumericSemver ManifestExamples.

(** A project with a JSON manifest beside a legacy one, and a project whose
    manifest holds a key that no manifest has. *)
Definition full_text : string :=
  "{name: 'a', namespace: 'ns', version: '1.2.3', depends: {b: '^1.0.0'}}".

Definition odd_text : string := "{name: 'a', license: 'MIT'}".

Definition modern_fs : filesystem :=
  list_to_map
    [("full/package.json", regular_file 12 full_text);
     ("full/package.dds", regular_file 11 "Name: a; Version: 1.2.3");
     ("odd/package.jsonc", regular_file 12 odd_text)].

Definition odd_entries : list (string * Json5.data) :=
  [("name", Json5.str "a"); ("license", Json5.str "MIT")].

Definition modern_parse_data (content : string) : option Json5.data :=
  if String.eqb content full_text
  then Some (Json5.mapping [("name", Json5.str "a"); ("namespace", Json5.str "ns");
                            ("version", Json5.str "1.2.3");
                            ("depends", Json5.mapping [("b", Json5.str "^1.0.0")])])
  else if String.eqb content odd_text then Some (Json5.mapping odd_entries)
  else None.

Definition manifest_full : package_manifest :=
  mk_manifest (mk_package_id (H := semver) "a" (1, 2, 3)%nat) "ns" None
              [single_interval "b" (1, 0, 0)%nat (2, 0, 0)%nat].

End ManifestMoreExamples.

Module CompileMoreExamples.
Import Fs CompileExec CompileExamples.

(** The build of [a.cpp] with a compiler that succeeds and reports the
    header it read. *)
Definition full_a : compile_file_full := realize_plan example_command example_object plan_a.

Definition record_a : file_deps_info :=
  mk_file_deps_info "_build/a.cpp.o" ["a.hpp"; "a.cpp"] "c++ -c a.cpp" "".

Definition msvc_job : compile_file_full -> filesystem * list file_deps_info
                      -> result unit * (filesystem * list file_deps_info) :=
  compile_job example_quote msvc_proc no_directories example_parent
              no_mkfile_deps example_msvc_parse deps_msvc.

(** A record of another build tree. *)
Definition other_db : database :=
  {[ "_build/z.cpp.o" := mk_file_deps_info "_build/z.cpp.o" ["z.cpp"] "c++ -c z.cpp" "" ]}.

End CompileMoreExamples.

Module OrderExamples.
Import NumericSemver.

(** The order of numeric versions: by major, then minor, then patch. *)
Definition triple_lt (a b : nat * nat * nat) : bool :=
  let '(a1, a2, a3) := a in
  let '(b1, b2, b3) := b in
  if Nat.ltb a1 b1 then true
  else if Nat.ltb b1 a1 then false
  else if Nat.ltb a2 b2 then true
  else if Nat.ltb b2 a2 then false
  else Nat.ltb a3 b3.

#[export] Instance numeric_order : SemverOrder := triple_lt.

End OrderExamples.

Module ArchiveExamples.
Import Fs CompileExec Archive CompileExamples.

(** The library [a] of one source, a build tree that holds an archive of
    an earlier build, and an archiver that writes the archive. *)
Definition lib_a : create_archive_plan := mk_archive_plan "a" "" [plan_a].

Definition lib_b : create_archive_plan := mk_archive_plan "b" "" [plan_b].

Definition stale_fs : filesystem :=
  list_to_map
    [("_build/a.cpp.o", regular_file 5 "");
     ("_build/liba.a", regular_file 3 "old objects")].

Definition ar_command (spec : archive_spec) : list string :=
  "ar" :: "rcs" :: out_path spec :: input_files spec.

Definition ar_proc (command : list string) (fs : filesystem) : proc_result * filesystem :=
  (mk_proc_result 0 0 "", <["_build/liba.a" := regular_file 9 "new objects"]> fs).

Definition relative_to_root (p base : string) (fs : filesystem) : result string :=
  Ok (String.substring (S (String.length base))
                       (String.length p - S (String.length base)) p).

(** A system that refuses nothing and on which the build directory
    stands, and one on which the build directory may not be written. *)
Definition nothing_refused (fs : filesystem) (p : string) : option string := None.

Definition directory_stands (p : string) (fs : filesystem) : result unit * filesystem :=
  (Ok tt, fs).

Definition build_tree_is_read_only (fs : filesystem) (p : string) : option string :=
  if String.prefix "_build/" p
  then Some ("filesystem error: cannot remove: Permission denied [" ++ p ++ "]")
  else None.

End ArchiveExamples.

(** * Properties *)

(** Steps shared by the proofs about code that may throw. *)
Ltac unfold_result :=
  unfold mbind, mret, fmap, result_bind, result_ret, result_fmap, or_throw, assert in *.

Ltac eqb_subst :=
  repeat match goal with
    | E : String.eqb _ _ = true |- _ => apply String.eqb_eq in E; subst
    | E : String.eqb _ _ = false |- _ => apply String.eqb_neq in E
    end.

(** ** The numeric semver instance prints what it parses *)

Module NumericSemverFacts.
Import NumericSemver.

Lemma split_dot_digits (d : Decimal.uint) (r : string) :
  split_dot (DecimalString.NilEmpty.string_of_uint d ++ String "."%char r)
  = Some (DecimalString.NilEmpty.string_of_uint d, r).
Proof.
  induction d; simpl; try reflexivity; rewrite IHd; reflexivity.
Qed.

Lemma split_dot_print (n : nat) (r : string) :
  split_dot (print n ++ "." ++ r) = Some (print n, r).
Proof. apply split_dot_digits. Qed.

Lemma to_uint_not_nil (n : nat) : Nat.to_uint n <> Decimal.Nil.
Proof.
  rewrite <- (DecimalNat.Unsigned.of_to n) at 1.
  rewrite DecimalNat.Unsigned.to_of. unfold Decimal.unorm.
  destruct (Decimal.nzhead (Nat.to_uint n)); discriminate.
Qed.

Lemma read_print (n : nat) : read (print n) = Some n.
Proof.
  unfold read, print.
  destruct (String.eqb_spec (DecimalString.NilEmpty.string_of_uint (Nat.to_uint n)) "")
    as [E | _].
  - exfalso. apply (to_uint_not_nil n).
    destruct (Nat.to_uint n); simpl in E; try discriminate; reflexivity.
  - rewrite DecimalString.NilEmpty.usu. simpl.
    now rewrite DecimalNat.Unsigned.of_to.
Qed.

Lemma numeric_parse_to_string (v : nat * nat * nat) : parse (to_string v) = Some v.
Proof.
  destruct v as [[major minor] patch]. unfold parse, to_string.
  rewrite split_dot_print. simpl.
  rewrite split_dot_print. simpl.
  rewrite !read_print. reflexivity.
Qed.

#[export] Instance round_trip : SemverRoundTrip.
Proof. exact numeric_parse_to_string. Qed.

Lemma rindex_app_none (c : ascii) (s t : string) :
  Text.rindex c s = None -> Text.rindex c t = None -> Text.rindex c (s ++ t) = None.
Proof.
  intros Hs Ht. induction s as [| a s IH]; [exact Ht |].
  change (String a s ++ t) with (String a (s ++ t)).
  cbn [Text.rindex] in *.
  destruct (Text.rindex c s); [discriminate |]. rewrite IH by reflexivity.
  destruct (Ascii.eqb a c); [discriminate | reflexivity].
Qed.

Lemma rindex_digits (d : Decimal.uint) :
  Text.rindex "@"%char (DecimalString.NilEmpty.string_of_uint d) = None.
Proof. induction d; cbn; try reflexivity; now rewrite IHd. Qed.

#[export] Instance text : SemverText.
Proof.
  intros [[major minor] patch]. cbn. unfold to_string, print.
  repeat (apply rindex_app_none; [first [apply rindex_digits | reflexivity] |]).
  apply rindex_digits.
Qed.

End NumericSemverFacts.

(** ** Package manifests *)

Module ManifestFacts.
Import Fs Manifest.

Section ManifestFacts.
Context `{Semver}.
Variable parse_data : string -> option Json5.data.
Variable lm_parse_string : string -> list (string * string).
Variable lm_read : list (string * string) -> result dds_fields.
Variable parse_depends_string : string -> result dependency.
Variable did_you_mean : string -> list string -> option string.
Variable status_error : filesystem -> string -> option string.

Lemma read_test_driver_keeps s m m' :
  read_test_driver did_you_mean s m = Ok m' ->
  namespace_ m' = namespace_ m /\ pkg_id m' = pkg_id m.
Proof.
  unfold read_test_driver. unfold_result.
  destruct (String.eqb s "Catch-Main"); [intros [= <-]; auto |].
  destruct (String.eqb s "Catch"); [intros [= <-]; auto |].
  destruct (did_you_mean _ _); discriminate.
Qed.

(** *** The legacy reader *)

(** What [read_opt] leaves in [ret.namespace_]: the initial, empty string,
    or a value the file gives for [Namespace]. *)
Hypothesis lm_read_namespace :
  forall kvs f, lm_read kvs = Ok f ->
                f_namespace f = "" \/ In ("Namespace", f_namespace f) kvs.

Lemma load_from_dds_file_namespace fs fpath content m :
  slurp_file fs fpath = Ok content ->
  (forall v, In ("Namespace", v) (lm_parse_string content) -> v = "") ->
  load_from_dds_file lm_parse_string lm_read parse_depends_string did_you_mean fs fpath = Ok m ->
  namespace_ m = name (pkg_id m).
Proof.
  intros Hslurp Hns. unfold load_from_dds_file. rewrite Hslurp.
  unfold_result.
  destruct (lm_read (lm_parse_string content)) as [f |] eqn:Hread; [| done].
  assert (Hempty : f_namespace f = "").
  { destruct (lm_read_namespace _ _ Hread) as [Hf | Hin]; [exact Hf | now apply Hns]. }
  rewrite Hempty. simpl.
  destruct (String.eqb (f_name f) ""); [done |].
  destruct (String.eqb (f_version f) ""); [done |].
  set (ret0 := set_namespace "" (set_name (f_name f) empty_manifest)).
  destruct (match f_test_driver f with
            | Some s => read_test_driver did_you_mean s ret0
            | None => Ok ret0
            end) as [ret1 |] eqn:Hdrv; [| done].
  assert (Hkeep : namespace_ ret1 = "" /\ pkg_id ret1 = pkg_id ret0).
  { destruct (f_test_driver f).
    - apply read_test_driver_keeps in Hdrv. exact Hdrv.
    - injection Hdrv as <-. auto. }
  destruct Hkeep as [Hns1 Hid1]. rewrite Hns1. simpl.
  destruct (version_parse (f_version f)); [| done].
  destruct (parse_all_depends parse_depends_string (f_depends f)); [| done].
  intros [= <-]. simpl. rewrite Hid1. reflexivity.
Qed.

(** *** The JSON reader *)

Lemma depends_entries_keeps entries ret ret' :
  depends_entries entries ret = Ok ret' ->
  namespace_ ret' = namespace_ ret.
Proof.
  revert ret. induction entries as [| [k v] rest IH]; cbn [depends_entries]; intros ret.
  - now intros [= <-].
  - unfold_result. destruct (depends_entry k v ret) as [ret1 |] eqn:E; [| done].
    intros Hrest. rewrite (IH _ Hrest). unfold depends_entry in E.
    destruct v; try discriminate.
    destruct (range_parse_restricted s) as [[lo hi] |]; [| done].
    now injection E as <-.
Qed.

(** The namespace of the manifest being built is the one it started with,
    or the string under a [namespace] key. *)
Lemma decompose_mapping_namespace entries ret r ret' :
  decompose_mapping did_you_mean entries ret = Ok (r, ret') ->
  namespace_ ret' = namespace_ ret
  \/ exists s, In ("namespace", Json5.str s) entries /\ namespace_ ret' = s.
Proof.
  revert ret. induction entries as [| [k v] rest IH]; cbn [decompose_mapping]; intros ret.
  - intros [= <- <-]. now left.
  - unfold_result.
    destruct (manifest_entry did_you_mean k v ret) as [[r1 ret1] |] eqn:E; [| done].
    intros Hrest.
    assert (Hone : namespace_ ret1 = namespace_ ret
                   \/ exists s, (k, v) = ("namespace", Json5.str s) /\ namespace_ ret1 = s).
    { unfold manifest_entry in E. unfold_result.
      destruct (String.eqb k "$schema"); [injection E as <- <-; now left |].
      destruct (String.eqb k "name").
      { destruct v; injection E as <- <-; now left. }
      destruct (String.eqb k "namespace") eqn:K.
      { eqb_subst. destruct v; injection E as <- <-; try (now left).
        right. eexists. split; reflexivity. }
      destruct (String.eqb k "version").
      { destruct v; try (injection E as <- <-; now left).
        destruct (version_parse s); [| done]. injection E as <- <-. now left. }
      destruct (String.eqb k "depends").
      { destruct v; try (injection E as <- <-; now left).
        destruct (depends_entries entries ret) eqn:D; [| done].
        injection E as <- <-. left. eapply depends_entries_keeps; eauto. }
      destruct (String.eqb k "test_driver").
      { destruct v; try (injection E as <- <-; now left).
        destruct (read_test_driver did_you_mean s ret) eqn:D; [| done].
        injection E as <- <-. left. eapply read_test_driver_keeps; eauto. }
      injection E as <- <-. now left. }
    assert (Hrest' : namespace_ ret' = namespace_ ret1
                     \/ exists s, In ("namespace", Json5.str s) rest /\ namespace_ ret' = s).
    { destruct r1; [apply IH; exact Hrest | | apply IH; exact Hrest].
      injection Hrest as <- <-. now left. }
    destruct Hrest' as [Heq | (s & Hin & Hs)].
    + rewrite Heq. destruct Hone as [-> | (s & Hkv & Hs)]; [now left |].
      right. exists s. split; [left; exact Hkv | exact Hs].
    + right. exists s. split; [now right | exact Hs].
Qed.

Lemma load_from_file_requires_namespace fs fpath content entries :
  slurp_file fs fpath = Ok content ->
  parse_data content = Some (Json5.mapping entries) ->
  (forall s, In ("namespace", Json5.str s) entries -> s = "") ->
  exists e, load_from_file parse_data did_you_mean fs fpath = Throw e.
Proof.
  intros Hslurp Hparse Hns. unfold load_from_file. rewrite Hslurp.
  unfold_result. rewrite Hparse.
  destruct (decompose_mapping did_you_mean entries empty_manifest)
    as [[res ret] |] eqn:D; [| eauto].
  assert (Hempty : namespace_ ret = "").
  { destruct (decompose_mapping_namespace _ _ _ _ D) as [-> | (s & Hin & ->)];
      [reflexivity | now apply Hns]. }
  destruct res; eauto; rewrite Hempty; simpl;
    destruct (String.eqb (name (pkg_id ret)) ""); eauto.
Qed.

(** A legacy manifest that is valid apart from its namespace is loaded,
    with the name as its namespace. *)
Lemma load_from_dds_file_defaults fs fpath content f v ds :
  slurp_file fs fpath = Ok content ->
  (forall s, In ("Namespace", s) (lm_parse_string content) -> s = "") ->
  lm_read (lm_parse_string content) = Ok f ->
  f_name f <> "" ->
  f_version f <> "" ->
  version_parse (f_version f) = Some v ->
  (forall s, f_test_driver f = Some s -> s = "Catch" \/ s = "Catch-Main") ->
  parse_all_depends parse_depends_string (f_depends f) = Ok ds ->
  exists m,
    load_from_dds_file lm_parse_string lm_read parse_depends_string did_you_mean fs fpath = Ok m
    /\ namespace_ m = f_name f
    /\ pkg_id m = mk_package_id (f_name f) v
    /\ dependencies m = ds.
Proof.
  intros Hslurp Hns Hread Hname Hversion Hparse Hdriver Hdeps.
  assert (Hempty : f_namespace f = "").
  { destruct (lm_read_namespace _ _ Hread) as [Hf | Hin]; [exact Hf | now apply Hns]. }
  unfold load_from_dds_file. rewrite Hslurp. unfold_result. rewrite Hread, Hempty.
  cbn [set_namespace set_name pkg_id name empty_manifest].
  apply String.eqb_neq in Hname, Hversion. rewrite Hname, Hversion, Hparse, Hdeps.
  destruct (f_test_driver f) as [s |] eqn:Hs.
  - unfold read_test_driver.
    destruct (Hdriver s eq_refl) as [-> | ->]; cbn; eexists; repeat split.
  - cbn. eexists. repeat split.
Qed.

(** C5 (as amended).  A legacy [package.dds] manifest whose [Namespace] is
    absent or empty is loaded whenever the rest of it is valid: when
    [lm::read] accepts the file, [Name] and [Version] are not empty, the
    version parses, [Test-Driver] is absent, [Catch] or [Catch-Main] and
    every [Depends] entry parses.  The manifest loaded then has the package
    name as its namespace, as has every manifest loaded from such a file.
    A JSON manifest ([package.json5], [.jsonc], [.json]) whose [namespace]
    is absent or the empty string is never loaded: [load_from_file]
    throws. *)
Theorem manifest_namespace_default fs fpath content :
  slurp_file fs fpath = Ok content ->
  (forall f v ds,
     (forall s, In ("Namespace", s) (lm_parse_string content) -> s = "") ->
     lm_read (lm_parse_string content) = Ok f ->
     f_name f <> "" ->
     f_version f <> "" ->
     version_parse (f_version f) = Some v ->
     (forall s, f_test_driver f = Some s -> s = "Catch" \/ s = "Catch-Main") ->
     parse_all_depends parse_depends_string (f_depends f) = Ok ds ->
     exists m,
       load_from_dds_file lm_parse_string lm_read parse_depends_string did_you_mean fs fpath
       = Ok m
       /\ namespace_ m = name (pkg_id m)
       /\ pkg_id m = mk_package_id (f_name f) v
       /\ dependencies m = ds)
  /\ (forall m,
        (forall v, In ("Namespace", v) (lm_parse_string content) -> v = "") ->
        load_from_dds_file lm_parse_string lm_read parse_depends_string did_you_mean fs fpath
        = Ok m ->
        namespace_ m = name (pkg_id m))
  /\ (forall entries,
        parse_data content = Some (Json5.mapping entries) ->
        (forall s, In ("namespace", Json5.str s) entries -> s = "") ->
        exists e, load_from_file parse_data did_you_mean fs fpath = Throw e).
Proof.
  intros Hslurp. split; [| split].
  - intros f v ds Hns Hread Hname Hversion Hparse Hdriver Hdeps.
    destruct (load_from_dds_file_defaults fs fpath content f v ds)
      as (m & Hload & Hnamespace & Hid & Hds); try assumption.
    exists m. repeat split; try assumption. now rewrite Hnamespace, Hid.
  - intros m Hns Hload. eapply load_from_dds_file_namespace; eauto.
  - intros entries Hparse Hns. eapply load_from_file_requires_namespace; eauto.
Qed.

(** *** Directories without a manifest *)

Local Abbreviation probe := (Throwing.is_regular_file status_error).

Lemma probe_inv fs p (r : result bool) :
  probe fs p = r ->
  match r with
  | Ok b => status_error fs p = None /\ b = is_regular_file fs p
  | Throw e => exists what, status_error fs p = Some what /\ e = system_error what
  end.
Proof.
  unfold Throwing.is_regular_file, Throwing.status.
  destruct (status_error fs p) as [what |]; intros <-; eauto.
Qed.

(** What [find_in_directory] returns or throws is settled by the first of
    the four probes that does not return [false]. *)
Lemma find_in_directory_first fs dirpath :
  (find_in_directory status_error fs dirpath = Ok None
   /\ forall c, In c manifest_names -> probe fs (dirpath // c) = Ok false)
  \/ exists i c,
       manifest_names !! i = Some c
       /\ (forall j c', (j < i)%nat -> manifest_names !! j = Some c' ->
                        probe fs (dirpath // c') = Ok false)
       /\ ((probe fs (dirpath // c) = Ok true
            /\ find_in_directory status_error fs dirpath = Ok (Some (dirpath // c)))
           \/ exists e, probe fs (dirpath // c) = Throw e
                        /\ find_in_directory status_error fs dirpath = Throw e).
Proof.
  unfold find_in_directory, cands. cbn [first_regular_file]. unfold_result.
  assert (Hbefore : forall n : nat,
             (forall k c', (k < n)%nat -> manifest_names !! k = Some c' ->
                           probe fs (dirpath // c') = Ok false) ->
             forall c, manifest_names !! n = Some c ->
             probe fs (dirpath // c) = Ok false ->
             forall j c', (j < S n)%nat -> manifest_names !! j = Some c' ->
                          probe fs (dirpath // c') = Ok false).
  { intros n Hn c Hc Hfalse j c' Hj Hc'.
    destruct (decide (j = n)) as [-> | Hne]; [congruence |].
    apply (Hn j); [lia | exact Hc']. }
  assert (H0 : forall k c', (k < 0)%nat -> manifest_names !! k = Some c' ->
                            probe fs (dirpath // c') = Ok false) by (intros; lia).
  destruct (probe fs (dirpath // "package.json5")) as [[|] | e] eqn:E1;
    [right; exists 0%nat, "package.json5"; eauto 10 | |
     right; exists 0%nat, "package.json5"; eauto 10].
  pose proof (Hbefore 0%nat H0 _ eq_refl E1) as H1.
  destruct (probe fs (dirpath // "package.jsonc")) as [[|] | e] eqn:E2;
    [right; exists 1%nat, "package.jsonc"; eauto 10 | |
     right; exists 1%nat, "package.jsonc"; eauto 10].
  pose proof (Hbefore 1%nat H1 _ eq_refl E2) as H2.
  destruct (probe fs (dirpath // "package.json")) as [[|] | e] eqn:E3;
    [right; exists 2%nat, "package.json"; eauto 10 | |
     right; exists 2%nat, "package.json"; eauto 10].
  pose proof (Hbefore 2%nat H2 _ eq_refl E3) as H3.
  destruct (probe fs (dirpath // "package.dds")) as [[|] | e] eqn:E4;
    [right; exists 3%nat, "package.dds"; eauto 10 | |
     right; exists 3%nat, "package.dds"; eauto 10].
  left. split; [reflexivity |].
  intros c Hin. cbn in Hin. destruct Hin as [<- | [<- | [<- | [<- | []]]]]; assumption.
Qed.

Lemma find_in_directory_none fs dirpath :
  (forall c, In c manifest_names -> probe fs (dirpath // c) = Ok false) ->
  find_in_directory status_error fs dirpath = Ok None.
Proof.
  intros Hnone. unfold find_in_directory, cands. cbn [first_regular_file]. unfold_result.
  rewrite !Hnone by (simpl; auto). reflexivity.
Qed.

Lemma find_in_directory_some fs dirpath found :
  find_in_directory status_error fs dirpath = Ok (Some found) ->
  exists c, In c manifest_names /\ found = dirpath // c
            /\ is_regular_file fs found = true.
Proof.
  intros Hfound.
  destruct (find_in_directory_first fs dirpath)
    as [[Hnone _] | (i & c & Hc & _ & [[Hprobe Hsome] | (e & _ & Hthrow)])];
    [congruence | | congruence].
  rewrite Hsome in Hfound. injection Hfound as <-.
  exists c. split; [eapply list_elem_of_In, list_elem_of_lookup_2; eauto |].
  split; [reflexivity |]. apply probe_inv in Hprobe. now destruct Hprobe.
Qed.

Lemma load_from_directory_throws_after_probe fs dirpath e :
  load_from_directory parse_data lm_parse_string lm_read parse_depends_string did_you_mean
                      status_error fs dirpath = Throw e ->
  exists i c,
    manifest_names !! i = Some c
    /\ (forall j c', (j < i)%nat -> manifest_names !! j = Some c' ->
                     probe fs (dirpath // c') = Ok false)
    /\ (probe fs (dirpath // c) = Throw e \/ probe fs (dirpath // c) = Ok true).
Proof.
  unfold load_from_directory. unfold_result.
  destruct (find_in_directory_first fs dirpath)
    as [[Hnone _] | (i & c & Hc & Hbefore & [[Hprobe Hsome] | (e' & Hprobe & Hthrow)])].
  - rewrite Hnone. discriminate.
  - intros _. exists i, c. auto.
  - rewrite Hthrow. intros [= <-]. exists i, c. auto.
Qed.

(** C10 (as amended).  In a directory where the status of each of
    [package.json5], [package.jsonc], [package.json] and [package.dds] can
    be read and none of them is a regular file, [load_from_directory]
    returns the empty optional and does not throw.  Whenever it throws,
    the probes before one of the four candidates found nothing, and either
    the probe for that candidate threw this very error, or the candidate
    was found as a regular file. *)
Theorem load_from_directory_without_manifest fs dirpath :
  ((forall c, In c manifest_names ->
              Throwing.is_regular_file status_error fs (dirpath // c) = Ok false) ->
   load_from_directory parse_data lm_parse_string lm_read parse_depends_string did_you_mean
                       status_error fs dirpath = Ok None)
  /\ (forall e,
        load_from_directory parse_data lm_parse_string lm_read parse_depends_string did_you_mean
                            status_error fs dirpath = Throw e ->
        exists i c,
          manifest_names !! i = Some c
          /\ (forall j c', (j < i)%nat -> manifest_names !! j = Some c' ->
                Throwing.is_regular_file status_error fs (dirpath // c') = Ok false)
          /\ (Throwing.is_regular_file status_error fs (dirpath // c) = Throw e
              \/ Throwing.is_regular_file status_error fs (dirpath // c) = Ok true)).
Proof.
  split.
  - intros Hnone. unfold load_from_directory.
    now rewrite find_in_directory_none.
  - apply load_from_directory_throws_after_probe.
Qed.

End ManifestFacts.
End ManifestFacts.

(** *** Examples on concrete manifests *)

Module ManifestExampleFacts.
Import Fs Manifest NumericSemver NumericSemverFacts ManifestExamples.

(** The reader of the examples stores under [Namespace] only what the
    file gives for it. *)
Lemma read_pairs_namespace kvs seen f seen' f' :
  read_pairs kvs seen f = Ok (seen', f') ->
  f_namespace f' = f_namespace f \/ In ("Namespace", f_namespace f') kvs.
Proof.
  revert seen f. induction kvs as [| [key value] rest IH]; cbn [read_pairs]; intros seen f.
  - intros [= <- <-]. now left.
  - unfold_result.
    destruct (read_pair (key, value) seen f) as [[seen1 f1] |] eqn:E1; [| done].
    intros Hrest. destruct (IH _ _ Hrest) as [Heq | Hin]; [| right; now right].
    rewrite Heq. unfold read_pair in E1.
    destruct (String.eqb key "Name");
      [destruct (existsb _ seen); [done |]; injection E1 as <- <-; now left |].
    destruct (String.eqb key "Namespace") eqn:K.
    { destruct (existsb _ seen); [done |]. injection E1 as <- <-. eqb_subst.
      right. left. cbn. congruence. }
    destruct (String.eqb key "Version");
      [destruct (existsb _ seen); [done |]; injection E1 as <- <-; now left |].
    destruct (String.eqb key "Depends"); [injection E1 as <- <-; now left |].
    destruct (String.eqb key "Test-Driver"); [| done].
    destruct (existsb _ seen); [done |]. injection E1 as <- <-. now left.
Qed.

Lemma example_lm_read_namespace kvs f :
  example_lm_read kvs = Ok f ->
  f_namespace f = "" \/ In ("Namespace", f_namespace f) kvs.
Proof.
  unfold example_lm_read. unfold_result.
  destruct (read_pairs kvs [] _) as [[seen f'] |] eqn:E; [| done].
  destruct (negb _); [done |]. destruct (negb _); [done |].
  intros [= <-]. apply (read_pairs_namespace _ _ _ _ _ E).
Qed.

Example extension_of_manifests :
  extension ("legacy" // "package.dds") = ".dds"
  /\ extension ("modern/" // "package.json5") = ".json5"
  /\ extension "src/.clang-format" = ""
  /\ extension "a.d/archive.tar.gz" = ".gz"
  /\ extension "a.d/README" = "".
Proof. repeat split. Qed.

Example find_prefers_json5 :
  find_in_directory no_status_error
    (<["legacy/package.json5" := regular_file 11 "{}"]> example_fs) "legacy"
  = Ok (Some "legacy/package.json5").
Proof. vm_compute. reflexivity. Qed.

Example load_legacy_directory :
  load_from_directory example_parse_data example_lm_parse example_lm_read no_depends no_suggestion
                      no_status_error example_fs "legacy"
  = Ok (Some manifest_a).
Proof. vm_compute. reflexivity. Qed.

Example load_legacy_manifest :
  load_from_dds_file example_lm_parse example_lm_read no_depends no_suggestion
                     example_fs "legacy/package.dds"
  = Ok manifest_a.
Proof. vm_compute. reflexivity. Qed.

(** The claim of C5 fails on a JSON manifest: without a [namespace] the
    manifest is refused, it is not given the name as its namespace. *)
Lemma json_manifest_without_namespace_is_refused :
  load_from_file example_parse_data no_suggestion example_fs "modern/package.json5"
  = Throw (user_error invalid_pkg_manifest "The 'namespace'` field is required.")
  /\ ~ (exists m,
          load_from_file example_parse_data no_suggestion
                         example_fs "modern/package.json5" = Ok m
          /\ namespace_ m = name (pkg_id m)).
Proof.
  assert (E : load_from_file example_parse_data no_suggestion
                             example_fs "modern/package.json5"
              = Throw (user_error invalid_pkg_manifest
                         "The 'namespace'` field is required."))
    by (vm_compute; reflexivity).
  split; [exact E |]. intros (m & Hm & _). rewrite E in Hm. discriminate.
Qed.

Lemma manifest_namespace_default_witness :
  (exists m,
     load_from_dds_file example_lm_parse example_lm_read no_depends no_suggestion
                        example_fs "legacy/package.dds" = Ok m
     /\ namespace_ m = name (pkg_id m)
     /\ pkg_id m = mk_package_id "a" (1, 2, 3)%nat
     /\ dependencies m = [])
  /\ namespace_ manifest_a = name (pkg_id manifest_a)
  /\ exists e, load_from_file example_parse_data no_suggestion
                              example_fs "modern/package.json5" = Throw e.
Proof.
  destruct (ManifestFacts.manifest_namespace_default
              example_parse_data example_lm_parse example_lm_read no_depends no_suggestion
              example_lm_read_namespace
              example_fs "legacy/package.dds" "Name: a; Version: 1.2.3"
              ltac:(vm_compute; reflexivity)) as (Hloads & Hdds & _).
  destruct (ManifestFacts.manifest_namespace_default
              example_parse_data example_lm_parse example_lm_read no_depends no_suggestion
              example_lm_read_namespace
              example_fs "modern/package.json5" "{name: 'a', version: '1.2.3'}"
              ltac:(vm_compute; reflexivity)) as (_ & _ & Hjson).
  assert (Hns : forall s, In ("Namespace", s) (example_lm_parse "Name: a; Version: 1.2.3")
                          -> s = "").
  { intros s Hin. vm_compute in Hin. destruct Hin as [Hin | [Hin | []]]; discriminate. }
  split; [| split].
  - apply (Hloads (mk_dds_fields "a" "" "1.2.3" [] None) (1, 2, 3)%nat []).
    + exact Hns.
    + vm_compute. reflexivity.
    + discriminate.
    + discriminate.
    + vm_compute. reflexivity.
    + discriminate.
    + reflexivity.
  - apply (Hdds manifest_a).
    + exact Hns.
    + vm_compute. reflexivity.
  - apply (Hjson [("name", Json5.str "a"); ("version", Json5.str "1.2.3")]).
    + vm_compute. reflexivity.
    + intros s Hin. vm_compute in Hin. destruct Hin as [Hin | [Hin | []]]; discriminate.
Defined.

(** The claim of C10 fails where the status of a candidate cannot be
    read.  The directory [locked] holds none of the four files, and it may
    not be searched: the first probe throws, and so does
    [load_from_directory], where the claim has it return the empty
    optional. *)
Lemma locked_directory_throws :
  (forall c, In c manifest_names -> exists_ locked_fs ("locked" // c) = false)
  /\ load_from_directory example_parse_data example_lm_parse example_lm_read no_depends
                         no_suggestion locked_status_error locked_fs "locked"
     = Throw (system_error
                "filesystem error: status: Permission denied [locked/package.json5]")
  /\ load_from_directory example_parse_data example_lm_parse example_lm_read no_depends
                         no_suggestion locked_status_error locked_fs "locked"
     <> Ok None.
Proof.
  assert (E : load_from_directory example_parse_data example_lm_parse example_lm_read
                no_depends no_suggestion locked_status_error locked_fs "locked"
              = Throw (system_error
                         "filesystem error: status: Permission denied [locked/package.json5]"))
    by (vm_compute; reflexivity).
  split; [| split; [exact E | rewrite E; discriminate]].
  intros c Hin. simpl in Hin.
  destruct Hin as [<- | [<- | [<- | [<- | []]]]]; vm_compute; reflexivity.
Qed.

Lemma load_from_directory_without_manifest_witness :
  load_from_directory example_parse_data example_lm_parse example_lm_read no_depends no_suggestion
                      no_status_error example_fs "bare" = Ok None.
Proof.
  apply (proj1 (ManifestFacts.load_from_directory_without_manifest
                  example_parse_data example_lm_parse example_lm_read no_depends no_suggestion
                  no_status_error example_fs "bare")).
  intros c Hin. simpl in Hin.
  destruct Hin as [<- | [<- | [<- | [<- | []]]]]; vm_compute; reflexivity.
Defined.

End ManifestExampleFacts.

(** ** Package identifiers *)

Module PackageIdFacts.
Import PackageId.

Lemma substring_all (s : string) : String.substring 0 (String.length s) s = s.
Proof. induction s as [| c s IH]; simpl; [reflexivity | now rewrite IH]. Qed.

Lemma substring_prefix (n r : string) :
  String.substring 0 (String.length n) (n ++ r) = n.
Proof.
  induction n as [| c n IH]; simpl.
  - now destruct r.
  - now rewrite IH.
Qed.

Lemma substring_after (n r : string) (c : ascii) :
  let s := n ++ String c r in
  String.substring (S (String.length n)) (String.length s - S (String.length n)) s = r.
Proof.
  induction n as [| a n IH]; simpl.
  - rewrite Nat.sub_0_r. apply substring_all.
  - exact IH.
Qed.

(** The last [c] of a text that ends in a [c] and a text without [c]. *)
Lemma rindex_app (c : ascii) (n r : string) :
  Text.rindex c r = None ->
  Text.rindex c (n ++ String c r) = Some (String.length n).
Proof.
  intros Hr. induction n as [| a n IH].
  - change ("" ++ String c r) with (String c r). cbn [Text.rindex String.length].
    now rewrite Hr, Ascii.eqb_refl.
  - change (String a n ++ String c r) with (String a (n ++ String c r)).
    cbn [Text.rindex String.length]. now rewrite IH.
Qed.

Section PackageIdFacts.
Context `{Semver} `{!SemverRoundTrip} `{!SemverText}.

(** C9.  For every package id, parsing its textual form [name@version]
    yields the id again; the semver library is taken to parse what it
    prints and to print no [@]. *)
Theorem package_id_round_trip (p : package_id) :
  parse (to_string p) = Ok p.
Proof.
  unfold parse, to_string.
  change ("@" ++ version_to_string (pid_version p))
    with (String "@"%char (version_to_string (pid_version p))).
  rewrite (rindex_app _ _ _ (version_to_string_no_at _)).
  rewrite substring_after, substring_prefix.
  rewrite version_parse_to_string. simpl.
  now destruct p.
Qed.

End PackageIdFacts.

Import NumericSemver NumericSemverFacts.

Example to_string_fmt :
  PackageId.to_string (mk_package_id (H := semver) "fmt" (6, 1, 2)%nat) = "fmt@6.1.2".
Proof. reflexivity. Qed.

Example parse_fmt :
  PackageId.parse "fmt@6.1.2" = Ok (mk_package_id (H := semver) "fmt" (6, 1, 2)%nat)
  /\ PackageId.parse "fmt" = Throw (runtime_error "Invalid package ID 'fmt'")
  /\ PackageId.parse "fmt@six" = Throw (invalid_version "six").
Proof. repeat split. Qed.

Lemma package_id_round_trip_witness :
  PackageId.parse (PackageId.to_string (mk_package_id (H := semver) "fmt" (6, 1, 2)%nat))
  = Ok (mk_package_id (H := semver) "fmt" (6, 1, 2)%nat).
Proof.
  apply (package_id_round_trip (mk_package_id (H := semver) "fmt" (6, 1, 2)%nat)).
Defined.

End PackageIdFacts.

(** ** The compile executor *)

Module CompileExecFacts.
Import Fs CompileExec.

Section RebuildDecision.
Variable quote_command : list string -> string.



(** The decision of [should_compile], read off the code: an empty stored
    command counts as no command. *)
Lemma should_compile_cases fs db comp :
  should_compile quote_command fs db comp = true
  <-> exists_ fs (object_file_path comp) = false
      \/ previous_command (get_rebuild_info fs db (object_file_path comp)) = ""
      \/ newer_inputs (get_rebuild_info fs db (object_file_path comp)) <> []
      \/ quote_command (cmd (cmd_info comp))
         <> previous_command (get_rebuild_info fs db (object_file_path comp)).
Proof.
  unfold should_compile.
  destruct (exists_ fs (object_file_path comp)); simpl; [| tauto].
  set (rb := get_rebuild_info fs db (object_file_path comp)).
  destruct (String.eqb_spec (previous_command rb) "") as [E | NE]; [tauto |].
  destruct (newer_inputs rb) as [| i l] eqn:N; simpl.
  - destruct (String.eqb_spec (quote_command (cmd (cmd_info comp))) (previous_command rb))
      as [E' | NE']; simpl.
    + split; [discriminate |]. intros [? | [? | [? | ?]]]; congruence.
    + tauto.
  - split; [| reflexivity]. intros _. right. right. left. discriminate.
Qed.


(** For a job with a command line, a record without a command is one
    whose command differs: the second case is then that of no record. *)
Lemma should_compile_with_command fs (db : database) comp :
  quote_command (cmd (cmd_info comp)) <> "" ->
  should_compile quote_command fs db comp = true
  <-> exists_ fs (object_file_path comp) = false
      \/ db !! object_file_path comp = None
      \/ newer_inputs (get_rebuild_info fs db (object_file_path comp)) <> []
      \/ (exists rec,
            db !! object_file_path comp = Some rec
            /\ quote_command (cmd (cmd_info comp)) <> command rec).
Proof.
  intros Hcmd. rewrite should_compile_cases. unfold get_rebuild_info.
  destruct (db !! object_file_path comp) as [rec |] eqn:Hrec; simpl.
  - split.
    + intros [Hex | [Hprev | [Hnew | Hdiff]]].
      * now left.
      * right. right. right. exists rec. split; [reflexivity | congruence].
      * right. right. left. exact Hnew.
      * right. right. right. exists rec. auto.
    + intros [Hex | [Hnone | [Hnew | Hdiff]]].
      * now left.
      * discriminate.
      * right. right. left. exact Hnew.
      * destruct Hdiff as (rec' & [= <-] & Hdiff). right. right. right. exact Hdiff.
  - split; [| tauto]. intros _. right. left. reflexivity.
Qed.

End RebuildDecision.

(** *** The record of a compilation in MSVC mode *)

Section MsvcDeps.
Variable quote_command : list string -> string.
Variable run_proc : list string -> filesystem -> proc_result * filesystem.
Variable create_directories : string -> filesystem -> filesystem.
Variable parent_path : string -> string.
Variable parse_mkfile_deps_file : filesystem -> string -> result file_deps_info.
Variable parse_msvc_output_for_deps : string -> string -> msvc_deps_info.


End MsvcDeps.

End CompileExecFacts.

(** *** The worker pool *)

Module PoolFacts.
Import Fs CompileExec.

Section PoolFacts.
Context {Item Shared : Type}.
Variable fn : Item -> Shared -> result unit * Shared.

Lemma weight_insert (ws : list (worker Item)) i w w' :
  ws !! i = Some w ->
  (list_sum (List.map weight (<[i := w']> ws)) + weight w
   = list_sum (List.map weight ws) + weight w')%nat.
Proof.
  revert i. induction ws as [| a ws IH]; intros [| i]; simpl; try discriminate.
  - intros [= ->]. lia.
  - intros Hi. specialize (IH _ Hi). lia.
Qed.

(** Every step uses up some of the bound: no schedule runs forever. *)
Lemma step_decreases p q : step fn p q -> (steps_left q < steps_left p)%nat.
Proof.
  intros Hstep. unfold steps_left.
  destruct Hstep as [p i Hw _ | p i Hw _ _ | p i item rest Hw _ Hrem
                    | p i item sh Hw _ | p i item e sh Hw _]; simpl.
  - pose proof (weight_insert _ _ _ returned Hw). simpl in *. lia.
  - pose proof (weight_insert _ _ _ returned Hw). simpl in *. lia.
  - pose proof (weight_insert _ _ _ (running item) Hw). rewrite Hrem. simpl in *. lia.
  - pose proof (weight_insert _ _ _ at_loop_head Hw). simpl in *. lia.
  - pose proof (weight_insert _ _ _ returned Hw). simpl in *. lia.
Qed.

Lemma all_returned_dec (p : pool Item Shared) :
  all_returned p \/ exists i w, workers p !! i = Some w /\ w <> returned.
Proof.
  unfold all_returned. induction (workers p) as [| w ws IH].
  - left. constructor.
  - destruct w.
    + right. exists 0%nat, at_loop_head. split; [reflexivity | discriminate].
    + right. exists 0%nat, (running item). split; [reflexivity | discriminate].
    + destruct IH as [Hall | (i & w & Hi & Hw)].
      * left. constructor; [reflexivity | exact Hall].
      * right. exists (S i), w. auto.
Qed.

(** A worker that has not returned can take a step. *)
Lemma progress p :
  ~ all_returned p -> exists q, step fn p q.
Proof.
  intros Hnot. destruct (all_returned_dec p) as [Hall | (i & w & Hi & Hw)]; [tauto |].
  destruct w as [| item |]; [| | congruence].
  - destruct (exceptions p) as [| e es] eqn:He.
    + destruct (remaining p) as [| item rest] eqn:Hr.
      * eexists. apply (step_break_at_stop fn p i); assumption.
      * eexists. apply (step_take fn p i item rest); assumption.
    + eexists. apply (step_break_on_exception fn p i); [assumption | congruence].
  - destruct (fn item (shared p)) as [[[] | e] sh] eqn:Hfn.
    + eexists. apply (step_job_returns fn p i item sh); assumption.
    + eexists. apply (step_job_throws fn p i item e sh); assumption.
Qed.

(** From every state the pool reaches one where all workers returned, so
    the joins come to an end. *)
Lemma completes p : exists q, steps fn p q /\ all_returned q.
Proof.
  remember (steps_left p) as n eqn:Hn. revert p Hn.
  induction n as [n IH] using lt_wf_ind. intros p ->.
  destruct (all_returned_dec p) as [Hall | (i & w & Hi & Hw)].
  - exists p. split; [constructor | exact Hall].
  - destruct (progress p) as [q Hstep].
    { intros Hall. unfold all_returned in Hall. rewrite Forall_forall in Hall.
      apply Hw, Hall. eapply list_elem_of_lookup_2; eauto. }
    destruct (IH _ (step_decreases _ _ Hstep) q eq_refl) as (r & Hsteps & Hall).
    exists r. split; [econstructor; eauto | exact Hall].
Qed.

(** Once an exception is recorded no job is taken: the jobs left stay, and
    a worker runs a job only if it ran it before. *)
Lemma step_latched p q :
  step fn p q -> exceptions p <> [] ->
  remaining q = remaining p
  /\ (forall i item, workers q !! i = Some (running item) ->
                     workers p !! i = Some (running item)).
Proof.
  intros Hstep Hex.
  assert (Hins : forall i (w : worker Item) j item,
             w <> running item ->
             <[i := w]> (workers p) !! j = Some (running item) ->
             workers p !! j = Some (running item)).
  { intros i w j item Hw Hj. destruct (decide (i = j)) as [-> | Hne].
    - destruct (decide (j < length (workers p))%nat) as [Hlt | Hge].
      + rewrite list_lookup_insert_eq in Hj by exact Hlt. congruence.
      + rewrite list_insert_ge in Hj by lia. exact Hj.
    - rewrite list_lookup_insert_ne in Hj by exact Hne. exact Hj. }
  destruct Hstep; simpl; try congruence;
    (split; [reflexivity |]); intros j it Hj; eapply Hins; eauto; discriminate.
Qed.

(** Exceptions are recorded in the order they are thrown; none is lost. *)
Lemma step_records p q :
  step fn p q -> exists l, exceptions q = (exceptions p ++ l)%list.
Proof.
  intros Hstep. destruct Hstep; simpl;
    try (exists []; now rewrite app_nil_r).
  eexists. reflexivity.
Qed.

Lemma steps_latched p q :
  steps fn p q -> exceptions p <> [] -> remaining q = remaining p.
Proof.
  induction 1 as [| p q r Hstep _ IH]; [reflexivity |]. intros Hex.
  destruct (step_latched _ _ Hstep Hex) as [Hrem _].
  destruct (step_records _ _ Hstep) as [l Hl].
  rewrite <- Hrem. apply IH. rewrite Hl. destruct (exceptions p); [congruence | discriminate].
Qed.

(** What [parallel_run] returns is a [bool]: no exception leaves it. *)
Lemma parallel_run_returns rng hc n_jobs sh r log sh' :
  parallel_run fn rng hc n_jobs sh r log sh' ->
  exists okay, r = Ok okay /\ (okay = false <-> log <> []).
Proof.
  intros (p & _ & _ & Hjoin & _). unfold after_join in Hjoin.
  injection Hjoin as <- <-. eexists. split; [reflexivity |].
  destruct (exceptions p); simpl; split; congruence.
Qed.

Lemma steps_records p q :
  steps fn p q -> exists l, exceptions q = (exceptions p ++ l)%list.
Proof.
  induction 1 as [p | p q r Hstep _ [l' Hl']].
  - exists []. now rewrite app_nil_r.
  - destruct (step_records _ _ Hstep) as [l Hl].
    exists (l ++ l')%list. now rewrite Hl', Hl, app_assoc.
Qed.

(** [parallel_run] returns when every worker has returned; what it returns
    and what it logs is told by the exceptions recorded until then. *)
Lemma parallel_run_reports rng hc n_jobs sh r log sh' :
  parallel_run fn rng hc n_jobs sh r log sh' ->
  exists p,
    steps fn (start rng hc n_jobs sh) p
    /\ all_returned p
    /\ r = Ok (is_empty (exceptions p))
    /\ log = List.map what (exceptions p)
    /\ (forall q, steps fn q p -> exceptions q <> [] ->
          r = Ok false /\ exists l, log = (List.map what (exceptions q) ++ l)%list).
Proof.
  intros (p & Hsteps & Hall & Hjoin & _). unfold after_join in Hjoin.
  injection Hjoin as <- <-. exists p.
  split; [exact Hsteps |]. split; [exact Hall |]. split; [reflexivity |].
  split; [reflexivity |].
  intros q Hq Hex. destruct (steps_records _ _ Hq) as [l Hl]. rewrite Hl. split.
  - destruct (exceptions q); [congruence | reflexivity].
  - rewrite List.map_app. eauto.
Qed.

End PoolFacts.
End PoolFacts.

(** *** What the executor does with a failed job *)

Module CompileAllFacts.
Import Fs CompileExec PoolFacts.

Section CompileAllFacts.
Variable quote_command : list string -> string.
Variable run_proc : list string -> filesystem -> proc_result * filesystem.
Variable create_directories : string -> filesystem -> filesystem.
Variable parent_path : string -> string.
Variable parse_mkfile_deps_file : filesystem -> string -> result file_deps_info.
Variable parse_msvc_output_for_deps : string -> string -> msvc_deps_info.
Variable deps_mode : file_deps_mode.
Variable generate_compile_command : compile_file_plan -> compile_command_info.
Variable calc_object_file_path : compile_file_plan -> string.
Variable hardware_concurrency : Z.

Local Abbreviation job :=
  (compile_job quote_command run_proc create_directories parent_path
               parse_mkfile_deps_file parse_msvc_output_for_deps deps_mode).

Local Abbreviation run_all :=
  (compile_all quote_command run_proc create_directories parent_path
               parse_mkfile_deps_file parse_msvc_output_for_deps deps_mode
               generate_compile_command calc_object_file_path
               hardware_concurrency).

(** [compile_all] hands on what [parallel_run] returned. *)
Lemma compile_all_returns compiles njobs fs db r log fs' db' :
  run_all compiles njobs fs db r log fs' db' ->
  exists okay, r = Ok okay /\ (okay = false <-> log <> []).
Proof.
  intros (okay & deps & Hrun & _ & ->).
  eapply parallel_run_returns; eauto.
Qed.

(** [compile_all] runs the pool on the compilations that are due, and
    hands on what [parallel_run] returned. *)
Lemma compile_all_reports compiles njobs fs db r log fs' db' :
  run_all compiles njobs fs db r log fs' db' ->
  exists p,
    steps job (start (List.filter (should_compile quote_command fs db)
                        (List.map (realize_plan generate_compile_command
                                                calc_object_file_path) compiles))
                     hardware_concurrency njobs (fs, [])) p
    /\ all_returned p
    /\ r = Ok (is_empty (exceptions p))
    /\ log = List.map what (exceptions p)
    /\ (forall q, steps job q p -> exceptions q <> [] ->
          r = Ok false /\ exists l, log = (List.map what (exceptions q) ++ l)%list).
Proof.
  intros (okay & deps & Hrun & _ & ->).
  eapply parallel_run_reports; eauto.
Qed.

(** C6 (as amended).  Once a worker has recorded an exception no worker
    takes another job.  Every schedule of the workers is finite and goes on
    until all of them have returned, so that the executor joins them.
    What [compile_all] then returns is told by the exceptions that the
    workers recorded: it returns whether there is none, and its error log
    holds their messages in the order they were recorded.  So from the
    moment a worker has recorded an exception, every run ends with
    [compile_all] returning [false] to its caller and the message of that
    exception in the log: no exception leaves it. *)
Theorem compile_all_reports_failure :
  (forall p q, steps job p q -> exceptions p <> [] -> remaining q = remaining p)
  /\ (forall p q, step job p q -> (steps_left q < steps_left p)%nat)
  /\ (forall p, ~ all_returned p -> exists q, step job p q)
  /\ (forall p, exists q, steps job p q /\ all_returned q)
  /\ (forall compiles njobs fs db r log fs' db',
        run_all compiles njobs fs db r log fs' db' ->
        exists p,
          steps job (start (List.filter (should_compile quote_command fs db)
                              (List.map (realize_plan generate_compile_command
                                                      calc_object_file_path) compiles))
                           hardware_concurrency njobs (fs, [])) p
          /\ all_returned p
          /\ r = Ok (is_empty (exceptions p))
          /\ log = List.map what (exceptions p)
          /\ (forall q, steps job q p -> exceptions q <> [] ->
                r = Ok false
                /\ exists l, log = (List.map what (exceptions q) ++ l)%list)).
Proof.
  split; [| split; [| split; [| split]]].
  - apply steps_latched.
  - apply step_decreases.
  - apply progress.
  - apply completes.
  - apply compile_all_reports.
Qed.

End CompileAllFacts.

(** *** Examples *)

Import CompileExamples.

Example edited_source_is_recompiled :
  should_compile example_quote edited_fs edited_db (realize_plan example_command example_object plan_a)
  = true.
Proof. vm_compute. reflexivity. Qed.

Example unchanged_source_is_skipped :
  should_compile example_quote built_fs edited_db
                 (realize_plan example_command example_object plan_a)
  = false.
Proof. vm_compute. reflexivity. Qed.

Example new_flags_recompile :
  should_compile example_quote built_fs edited_db
                 (mk_full plan_a "_build/a.cpp.o"
                          (mk_command_info ["c++"; "-O2"; "-c"; "a.cpp"] None))
  = true.
Proof. vm_compute. reflexivity. Qed.


(** The claim of C6 fails when a job throws.  With one worker and one
    source that does not compile, the worker records [compile_failure];
    [compile_all] then returns [false] with the message in the error log,
    and on no run does the exception leave it. *)
Lemma failed_job_is_not_rethrown :
  let run := compile_all example_quote failing_proc no_directories example_parent
                         no_mkfile_deps example_msvc_parse deps_none
                         example_command example_object 4 [plan_a] 1 ∅ ∅ in
  run (Ok false) ["Compilation failed [a.cpp]"] ∅ ∅
  /\ (forall r log fs' db', run r log fs' db' -> forall e, r <> Throw e).
Proof.
  split.
  - exists (Ok false), []. split; [| split; reflexivity].
    set (job := compile_job example_quote failing_proc no_directories example_parent
                            no_mkfile_deps example_msvc_parse deps_none).
    set (full := realize_plan example_command example_object plan_a).
    set (e := user_error compile_failure "Compilation failed [a.cpp]").
    exists (mk_pool [] [e] [returned] (∅, [])).
    split; [| split; [| split]].
    + eapply steps_cons.
      { apply (step_take job _ 0%nat full []); reflexivity. }
      eapply steps_cons.
      { apply (step_job_throws job _ 0%nat full e (∅, [])); reflexivity. }
      apply steps_refl.
    + repeat constructor.
    + reflexivity.
    + reflexivity.
  - intros r log fs' db' Hrun e ->.
    destruct (compile_all_returns
                example_quote failing_proc no_directories example_parent
                no_mkfile_deps example_msvc_parse deps_none
                example_command example_object 4 _ _ _ _ _ _ _ _ Hrun)
      as (okay & Hok & _).
    discriminate.
Qed.

(** Two workers and two sources that do not compile.  When the first
    worker has recorded its failure before the second looks for a job, the
    second source is never compiled. *)
Example second_job_is_not_taken :
  let job := compile_job example_quote failing_proc no_directories example_parent
                         no_mkfile_deps example_msvc_parse deps_none in
  let full_a := realize_plan example_command example_object plan_a in
  let full_b := realize_plan example_command example_object plan_b in
  exists p,
    steps job (start [full_a; full_b] 4 2 (∅, [])) p
    /\ all_returned p
    /\ remaining p = [full_b]
    /\ after_join p = (Ok false, ["Compilation failed [a.cpp]"]).
Proof.
  intros job full_a full_b.
  set (e := user_error compile_failure "Compilation failed [a.cpp]").
  exists (mk_pool [full_b] [e] [returned; returned] (∅, [])).
  split; [| split; [repeat constructor | split; reflexivity]].
  eapply steps_cons.
  { apply (step_take job _ 0%nat full_a [full_b]); reflexivity. }
  eapply steps_cons.
  { apply (step_job_throws job _ 0%nat full_a e (∅, [])); reflexivity. }
  eapply steps_cons.
  { apply (step_break_on_exception job _ 1%nat); [reflexivity | discriminate]. }
  apply steps_refl.
Qed.

End CompileAllFacts.

(** ** The catalog *)

Module CatalogFacts.
Import Json Catalog.

Ltac unfold_M :=
  unfold mbind, mret, M_bind, M_ret, lift, throw in *.

Section Open.
Context `{Semver}.
Variable json_parse : string -> option json.
Variable json_dump : json -> string.

Lemma to_int_small z : - 2 ^ 31 <= z < 2 ^ 31 -> to_int z = z.
Proof.
  intros Hz. unfold to_int.
  destruct (Z_lt_le_dec z 0) as [Hneg | Hpos].
  - replace (z mod 2 ^ 32) with (z + 2 ^ 32).
    + destruct (Z.ltb_spec (z + 2 ^ 32) (2 ^ 31)); lia.
    + apply Z.mod_unique with (q := -1); lia.
  - rewrite Z.mod_small by lia.
    destruct (Z.ltb_spec z (2 ^ 31)); lia.
Qed.

Lemma to_int64_small z : - 2 ^ 63 <= z < 2 ^ 63 -> to_int64 z = z.
Proof.
  intros Hz. unfold to_int64.
  destruct (Z_lt_le_dec z 0) as [Hneg | Hpos].
  - replace (z mod 2 ^ 64) with (z + 2 ^ 64).
    + destruct (Z.ltb_spec (z + 2 ^ 64) (2 ^ 63)); lia.
    + apply Z.mod_unique with (q := -1); lia.
  - rewrite Z.mod_small by lia.
    destruct (Z.ltb_spec z (2 ^ 63)); lia.
Qed.

(** What [ensure_migrated] does once the stored version is read, when the
    [int] it is converted to is above the current version. *)
Lemma ensure_migrated_too_new file meta_json rest members version_ v :
  dds_cat_meta file = Some (meta_json :: rest) ->
  json_parse meta_json = Some (object members) ->
  lookup_key "version" members = Some version_ ->
  version_ = number_integer v \/ version_ = number_unsigned v ->
  1 < to_int v ->
  open json_parse json_dump file = (Throw (external_error catalog_too_new ""), file).
Proof.
  intros Hmeta Hparse Hkey Hv Hnew.
  assert (Hint : is_number_integer version_ = true) by (destruct Hv; subst; reflexivity).
  assert (Hget : get_int version_ = Ok (to_int v)) by (destruct Hv; subst; reflexivity).
  assert (Hgt : (to_int v >? current_database_version) = true)
    by (unfold current_database_version; destruct (Z.gtb_spec (to_int v) 1); [reflexivity | lia]).
  unfold open, ensure_migrated, transaction_guard, database_open.
  unfold_M. unfold pragma_foreign_keys_on, create_meta_if_not_exists, select_meta, or_throw.
  cbn [journal content foreign_keys last_insert_rowid].
  rewrite Hmeta. cbn [journal content foreign_keys last_insert_rowid].
  rewrite Hmeta, Hparse. cbn [is_object negb at_key]. rewrite Hkey. cbn [default from_option id].
  rewrite Hint, Hget. cbn [negb]. rewrite Hgt. reflexivity.
Qed.

(** Opening a database of a version beyond the current one, within the
    range of [int], fails with [catalog_too_new] and leaves the file as it
    was. *)
Lemma open_too_new file meta_json rest members version_ v :
  dds_cat_meta file = Some (meta_json :: rest) ->
  json_parse meta_json = Some (object members) ->
  lookup_key "version" members = Some version_ ->
  version_ = number_integer v \/ version_ = number_unsigned v ->
  1 < v < 2 ^ 31 ->
  open json_parse json_dump file = (Throw (external_error catalog_too_new ""), file).
Proof.
  intros Hmeta Hparse Hkey Hv Hrange.
  eapply ensure_migrated_too_new; eauto.
  rewrite to_int_small; lia.
Qed.

(** A stored version whose conversion to [int] gives the current version
    is taken for it, whatever the stored integer: the database is opened
    and the metadata rewritten. *)
Lemma open_wrapped_version file meta_json rest members version_ v :
  dds_cat_meta file = Some (meta_json :: rest) ->
  json_parse meta_json = Some (object members) ->
  lookup_key "version" members = Some version_ ->
  version_ = number_integer v \/ version_ = number_unsigned v ->
  to_int v = 1 ->
  exists db,
    open json_parse json_dump file = (Ok db, content db)
    /\ dds_cat_meta (content db)
       = Some (List.map (fun _ => json_dump (object (set_key "version" (number_integer 1)
                                                            members)))
                        (meta_json :: rest)).
Proof.
  intros Hmeta Hparse Hkey Hv Hwrap.
  assert (Hint : is_number_integer version_ = true) by (destruct Hv; subst; reflexivity).
  assert (Hget : get_int version_ = Ok 1) by (destruct Hv; subst; cbn; now rewrite Hwrap).
  unfold open, ensure_migrated, transaction_guard, database_open.
  unfold_M. unfold pragma_foreign_keys_on, create_meta_if_not_exists, select_meta, or_throw.
  cbn [journal content foreign_keys last_insert_rowid].
  rewrite Hmeta. cbn [journal content foreign_keys last_insert_rowid].
  rewrite Hmeta, Hparse. cbn [is_object negb at_key items]. rewrite Hkey.
  cbn [default from_option id].
  rewrite Hint, Hget. cbn [negb]. unfold current_database_version. cbn [Z.gtb Z.ltb Z.compare Pos.compare Pos.compare_cont].
  unfold update_meta. cbn [journal content foreign_keys last_insert_rowid].
  rewrite Hmeta. cbn [journal content foreign_keys last_insert_rowid set_content dds_cat_meta].
  match goal with |- exists db, (Ok ?X, _) = _ /\ _ => exists X end.
  split; reflexivity.
Qed.

(** Opening a database that does not exist yet creates a catalog whose
    file satisfies the invariant, with foreign keys off: the pragma that
    would turn them on is run inside the transaction of the migration. *)
Lemma open_creates_catalog members :
  json_parse initial_meta = Some (object members) ->
  lookup_key "version" members = Some (number_unsigned 0) ->
  exists db,
    open json_parse json_dump empty_file = (Ok db, content db)
    /\ catalog_inv (content db)
    /\ in_transaction db = false
    /\ foreign_keys db = false.
Proof.
  intros Hparse Hkey.
  unfold open, ensure_migrated, transaction_guard, database_open.
  unfold_M. unfold pragma_foreign_keys_on, create_meta_if_not_exists, select_meta, or_throw.
  cbn [journal content foreign_keys last_insert_rowid empty_file dds_cat_meta set_content].
  rewrite Hparse. cbn [is_object negb at_key items]. rewrite Hkey.
  cbn [default from_option id is_number_integer negb get_int].
  change (to_int 0) with 0. unfold current_database_version.
  cbn [Z.gtb Z.ltb Z.compare].
  unfold migrate_repodb_1, update_meta.
  cbn [journal content foreign_keys last_insert_rowid set_content
       dds_cat_meta dds_cat_pkgs dds_cat_pkg_deps seq_pkgs seq_deps].
  unfold empty_file, set_content. cbn -[initial_meta].
  match goal with |- exists db, (Ok ?X, _) = _ /\ _ => exists X end.
  repeat split. exists [], []. repeat split. constructor.
Qed.

End Open.

Import CatalogExamples NumericSemver.

Example open_next_release :
  open example_json_parse example_json_dump next_release_file
  = (Throw (external_error catalog_too_new ""), next_release_file).
Proof. vm_compute. reflexivity. Qed.

(** C8 fails on a stored version that does not fit an [int].  The version
    4294967297 is converted to the [int] 1: the database is opened, no
    error is raised, and the stored version is overwritten with 1. *)
Theorem open_wraps_stored_version :
  open example_json_parse example_json_dump far_future_file
  = (Ok (mk_database (mk_tables (Some [meta_of_version "1"]) (Some []) (Some []) 0 0)
                     None false 0),
     mk_tables (Some [meta_of_version "1"]) (Some []) (Some []) 0 0).
Proof. vm_compute. reflexivity. Qed.

End CatalogFacts.

(** *** The version of an imported document *)

Module ImportVersionFacts.
Import Json Catalog CatalogFacts.

Section ImportVersion.
Context `{Semver}.
Variable json_parse : string -> option json.
Variable split_usage_string : string -> result usage.

(** C4 (as amended).  A document whose [version] is an integer above 1
    (and within [int64_t]) is refused with the error kind
    [invalid_catalog_json], the kind of every validation failure of the
    import, and the message that the version is too new; the database is
    not touched. *)
Theorem import_rejects_newer_version content members version_ v db :
  json_parse content = Some (object members) ->
  lookup_key "version" members = Some version_ ->
  version_ = number_integer v \/ version_ = number_unsigned v ->
  1 < v < 2 ^ 63 ->
  import_json_str json_parse split_usage_string content db = (Throw too_new, db).
Proof.
  intros Hparse Hkey Hv Hrange.
  assert (Hint : is_number_integer version_ = true) by (destruct Hv; subst; reflexivity).
  assert (Hle : le_int version_ 1 = false).
  { destruct Hv; subst; cbn [le_int]; [| rewrite to_int64_small by lia];
      destruct (Z.leb_spec v 1); lia || reflexivity. }
  unfold import_json_str. unfold_M. unfold or_throw, check_json.
  rewrite Hparse. cbn [is_object at_key]. rewrite Hkey. cbn [default from_option id].
  rewrite Hint, Hle. reflexivity.
Qed.

End ImportVersion.

Import CatalogExamples NumericSemver.

(** Beyond [int64_t] the comparison is made on the cast value: the largest
    unsigned version reads as -1 and passes the check. *)
Example largest_version_passes_check :
  le_int (number_unsigned (2 ^ 64 - 1)) 1 = true /\ le_int (number_unsigned 2) 1 = false.
Proof. split; reflexivity. Qed.

(** The claim of C4 fails on the version 2: the import is refused, but the
    kind of the error is [invalid_catalog_json], not [catalog_too_new]. *)
Lemma import_version_2_is_invalid_json :
  exists e,
    import_json_str example_json_parse example_split_usage doc_version_2_text fresh_catalog
    = (Throw e, fresh_catalog)
    /\ kind_of e = Some invalid_catalog_json
    /\ kind_of e <> Some catalog_too_new.
Proof.
  exists too_new. split; [vm_compute; reflexivity |]. split; [reflexivity | discriminate].
Qed.

Lemma import_rejects_newer_version_witness :
  import_json_str example_json_parse example_split_usage doc_version_2_text fresh_catalog
  = (Throw too_new, fresh_catalog).
Proof.
  apply (import_rejects_newer_version example_json_parse example_split_usage
           doc_version_2_text
           [("packages", object []); ("version", number_unsigned 2)]
           (number_unsigned 2) 2 fresh_catalog).
  - vm_compute. reflexivity.
  - reflexivity.
  - right. reflexivity.
  - lia.
Defined.

End ImportVersionFacts.

(** *** The statements of [store] *)

Module StoreFacts.
Import Json Catalog CatalogFacts.

Lemma largest_rowid_ge_seq {R} (rowid : R -> Z) seq rows :
  seq <= largest_rowid rowid seq rows.
Proof. induction rows; simpl; lia. Qed.

Lemma largest_rowid_ge_row {R} (rowid : R -> Z) seq rows r :
  In r rows -> rowid r <= largest_rowid rowid seq rows.
Proof.
  induction rows as [| a rows IH]; simpl; [tauto |].
  intros [-> | Hin]; [lia | specialize (IH Hin); lia].
Qed.

Lemma largest_rowid_mono {R} (rowid : R -> Z) seq seq' rows :
  seq <= seq' -> largest_rowid rowid seq rows <= largest_rowid rowid seq' rows.
Proof. intros Hle. induction rows; simpl; lia. Qed.

Lemma insert_or_replace_pkg_inv n v url ref lm_n lm_ns descr db r db' :
  insert_or_replace_pkg n v url ref lm_n lm_ns descr db = (r, db') ->
  (exists e, r = Throw e /\ db' = db)
  \/ (exists rows,
        let t := content db in
        let row := new_pkg_row t rows n v url ref lm_n lm_ns descr in
        dds_cat_pkgs t = Some rows
        /\ r = Ok tt
        /\ valid_lm_info row = true
        /\ db' = mk_database
                   (mk_tables (dds_cat_meta t)
                      (Some (List.filter (fun r => negb (same_key n v r)) rows ++ [row])%list)
                      (dds_cat_pkg_deps t) (pkg_id row) (seq_deps t))
                   (journal db) (foreign_keys db) (pkg_id row)).
Proof.
  unfold insert_or_replace_pkg, new_pkg_row.
  destruct (dds_cat_pkgs (content db)) as [rows |]; [| intros [= <- <-]; eauto].
  destruct (max_rowid <=? _); [intros [= <- <-]; eauto |].
  destruct (negb (has_source_info _)); [intros [= <- <-]; eauto |].
  destruct (valid_lm_info _) eqn:Hlm; cbn [negb]; [| intros [= <- <-]; eauto].
  destruct (foreign_keys db && _); intros [= <- <-]; [eauto |].
  right. exists rows. cbn. auto.
Qed.

Lemma insert_dep_inv p n lo hi db r db' :
  insert_dep p n lo hi db = (r, db') ->
  (exists e, r = Throw e /\ db' = db)
  \/ (exists rows,
        let t := content db in
        let id := largest_rowid dep_id (seq_deps t) rows + 1 in
        dds_cat_pkg_deps t = Some rows
        /\ r = Ok tt
        /\ db' = mk_database
                   (mk_tables (dds_cat_meta t) (dds_cat_pkgs t)
                      (Some (rows ++ [mk_dep_row id p n lo hi])%list)
                      (seq_pkgs t) id)
                   (journal db) (foreign_keys db) id).
Proof.
  unfold insert_dep.
  destruct (dds_cat_pkg_deps (content db)) as [rows |]; [| intros [= <- <-]; eauto].
  destruct (max_rowid <=? _); [intros [= <- <-]; eauto |].
  destruct (existsb _ rows); [intros [= <- <-]; eauto |].
  destruct (foreign_keys db && _); intros [= <- <-]; [eauto |].
  right. exists rows. cbn. auto.
Qed.

Section Store.
Context `{Semver}.

(** Failed or not, [store_deps] leaves the transaction as it found it and
    touches the table of dependencies only. *)
Lemma store_deps_frame p ds db r db' :
  store_deps p ds db = (r, db') ->
  journal db' = journal db
  /\ foreign_keys db' = foreign_keys db
  /\ dds_cat_meta (content db') = dds_cat_meta (content db)
  /\ dds_cat_pkgs (content db') = dds_cat_pkgs (content db)
  /\ seq_pkgs (content db') = seq_pkgs (content db).
Proof.
  revert db. induction ds as [| d ds IH]; intros db; cbn [store_deps].
  - unfold_M. intros [= <- <-]. auto.
  - unfold_M. unfold assert.
    destruct (Nat.eqb (num_intervals d) 1); [| intros [= <- <-]; auto].
    destruct (versions d) as [| iv ivs]; [intros [= <- <-]; auto |].
    destruct (insert_dep p _ _ _ db) as [r1 db1] eqn:Hins.
    apply insert_dep_inv in Hins.
    destruct Hins as [(e & -> & ->) | (rows & Hrows & -> & ->)].
    + intros [= <- <-]. auto.
    + intros Hrest. apply IH in Hrest. cbn in Hrest. exact Hrest.
Qed.

(** When it succeeds, [store_deps] has appended one row for each
    dependency, in their order. *)
Lemma store_deps_ok p ds db db' old :
  dds_cat_pkg_deps (content db) = Some old ->
  store_deps p ds db = (Ok tt, db') ->
  exists new,
    dds_cat_pkg_deps (content db') = Some (old ++ new)%list
    /\ Forall2 (row_of_dep p) new ds.
Proof.
  revert db old. induction ds as [| d ds IH]; intros db old Hold; cbn [store_deps].
  - unfold_M. intros [= <-]. exists []. rewrite app_nil_r. split; [exact Hold | constructor].
  - unfold_M. unfold assert.
    destruct (Nat.eqb (num_intervals d) 1) eqn:Hone; [| discriminate].
    destruct (versions d) as [| [lo hi] ivs] eqn:Hver; [discriminate |].
    assert (ivs = []) as ->.
    { apply Nat.eqb_eq in Hone. unfold num_intervals in Hone. rewrite Hver in Hone.
      destruct ivs; [reflexivity | discriminate]. }
    destruct (insert_dep p _ _ _ db) as [r1 db1] eqn:Hins.
    apply insert_dep_inv in Hins.
    destruct Hins as [(e & -> & ->) | (rows & Hrows & -> & ->)]; [discriminate |].
    cbn zeta in Hrows. rewrite Hold in Hrows. injection Hrows as <-.
    intros Hrest. eapply IH in Hrest; [| reflexivity].
    destruct Hrest as (new & Hnew & Hall).
    eexists (_ :: new). rewrite <- app_assoc in Hnew. split; [exact Hnew |].
    constructor; [| exact Hall].
    repeat split. exists lo, hi. auto.
Qed.

Lemma store_body_journal pkg db r db' :
  store_body pkg db = (r, db') ->
  journal db' = journal db /\ foreign_keys db' = foreign_keys db.
Proof.
  unfold store_body, _store_pkg. unfold_M. destruct (remote pkg) as [git].
  destruct (insert_or_replace_pkg _ _ _ _ _ _ _ db) as [r1 db1] eqn:Hins.
  apply insert_or_replace_pkg_inv in Hins.
  destruct Hins as [(e & -> & ->) | (rows & Hrows & -> & Hlm & ->)].
  - intros [= <- <-]. auto.
  - intros Hdeps. apply store_deps_frame in Hdeps. cbn in Hdeps. tauto.
Qed.

(** What a successful [store_body] has written. *)
Lemma store_body_ok pkg db db' :
  store_body pkg db = (Ok tt, db') ->
  exists git pkgs row new,
    let t := content db in
    remote pkg = git_remote git
    /\ dds_cat_pkgs t = Some pkgs
    /\ row = new_pkg_row t pkgs (name (ident pkg))
               (version_to_string (pid_version (ident pkg)))
               (Some (url git)) (Some (ref git))
               (usage_name (default (mk_usage "" "") (auto_lib git)))
               (usage_namespace (default (mk_usage "" "") (auto_lib git)))
               (description pkg)
    /\ valid_lm_info row = true
    /\ dds_cat_pkgs (content db')
       = Some (List.filter (fun r => negb (same_key (row_name row) (row_version row) r)) pkgs
               ++ [row])%list
    /\ seq_pkgs (content db') = pkg_id row
    /\ dds_cat_meta (content db') = dds_cat_meta t
    /\ Forall2 (row_of_dep (pkg_id row)) new (deps pkg)
    /\ forall old, dds_cat_pkg_deps t = Some old ->
                   dds_cat_pkg_deps (content db') = Some (old ++ new)%list.
Proof.
  unfold store_body, _store_pkg. unfold_M. destruct (remote pkg) as [git].
  destruct (insert_or_replace_pkg _ _ _ _ _ _ _ db) as [r1 db1] eqn:Hins.
  apply insert_or_replace_pkg_inv in Hins.
  destruct Hins as [(e & -> & ->) | (rows & Hrows & -> & Hlm & ->)]; [discriminate |].
  cbn [last_insert_rowid]. intros Hdeps.
  pose proof (store_deps_frame _ _ _ _ _ Hdeps) as (_ & _ & Hmeta & Hpkgs & Hseq).
  cbn in Hmeta, Hpkgs, Hseq.
  destruct (dds_cat_pkg_deps (content db)) as [old |] eqn:Hold.
  - match type of Hdeps with
    | store_deps _ _ ?d = _ =>
        assert (Hold' : dds_cat_pkg_deps (content d) = Some old) by reflexivity
    end.
    destruct (store_deps_ok _ _ _ _ _ Hold' Hdeps) as (new & Hnew & Hall).
    exists git, rows, (new_pkg_row (content db) rows (name (ident pkg))
               (version_to_string (pid_version (ident pkg)))
               (Some (url git)) (Some (ref git))
               (usage_name (default (mk_usage "" "") (auto_lib git)))
               (usage_namespace (default (mk_usage "" "") (auto_lib git)))
               (description pkg)), new.
    cbn zeta. repeat split; try assumption.
    intros old' [= <-]. exact Hnew.
  - destruct (deps pkg) as [| d ds] eqn:Hds.
    + exists git, rows, (new_pkg_row (content db) rows (name (ident pkg))
               (version_to_string (pid_version (ident pkg)))
               (Some (url git)) (Some (ref git))
               (usage_name (default (mk_usage "" "") (auto_lib git)))
               (usage_namespace (default (mk_usage "" "") (auto_lib git)))
               (description pkg)), [].
      cbn zeta. repeat split; try assumption; [constructor | discriminate].
    + exfalso. cbn [store_deps] in Hdeps. unfold_M. unfold assert in Hdeps.
      destruct (Nat.eqb (num_intervals d) 1); [| discriminate].
      destruct (versions d); [discriminate |].
      unfold insert_dep in Hdeps. cbn in Hdeps. discriminate.
Qed.

(** [store] runs its body on the content it finds and keeps what the body
    wrote; a transaction that was open stays open, and none is left open
    otherwise. *)
Lemma store_ok pkg db db' :
  store pkg db = (Ok tt, db') ->
  journal db' = journal db
  /\ foreign_keys db' = foreign_keys db
  /\ exists db0 db1,
       content db0 = content db
       /\ store_body pkg db0 = (Ok tt, db1)
       /\ content db' = content db1.
Proof.
  unfold store, transaction_guard.
  destruct (journal db) as [j |] eqn:Hj.
  - intros Hbody. pose proof (store_body_journal _ _ _ _ Hbody) as [Hj' Hfk].
    rewrite Hj'. repeat split; [exact Hj | exact Hfk |].
    exists db, db'. auto.
  - destruct (store_body pkg _) as [[[] | e] db1] eqn:Hbody; [| discriminate].
    intros [= <-]. pose proof (store_body_journal _ _ _ _ Hbody) as [_ Hfk].
    cbn. repeat split; [exact Hfk |].
    eexists _, db1. split; [| split; [exact Hbody | reflexivity]]. reflexivity.
Qed.

(** A [store] that throws inside an open transaction leaves the
    transaction open; outside of one, it leaves the content as it was. *)
Lemma store_throw pkg db e db' :
  store pkg db = (Throw e, db') ->
  journal db' = journal db
  /\ (journal db = None -> content db' = content db).
Proof.
  unfold store, transaction_guard.
  destruct (journal db) as [j |] eqn:Hj.
  - intros Hbody. pose proof (store_body_journal _ _ _ _ Hbody) as [Hj' _].
    rewrite Hj'. split; [exact Hj | discriminate].
  - destruct (store_body pkg _) as [[[] | e'] db1] eqn:Hbody; [discriminate |].
    intros [= <- <-]. pose proof (store_body_journal _ _ _ _ Hbody) as [Hj' _].
    cbn in *. rewrite Hj'. cbn. auto.
Qed.

End Store.
End StoreFacts.

(** *** [ORDER BY] *)

Module OrderFacts.
Import Catalog.

Section OrderBy.
Context {R : Type}.
Variable key : R -> string.

Lemma insert_by_permutation r l : Permutation (insert_by key r l) (r :: l).
Proof.
  induction l as [| x l IH]; cbn [insert_by]; [reflexivity |].
  destruct (String.leb (key r) (key x)); [reflexivity |].
  rewrite IH. apply perm_swap.
Qed.

Lemma order_by_permutation l : Permutation (order_by key l) l.
Proof.
  induction l as [| x l IH]; cbn; [reflexivity |].
  fold (order_by key l). rewrite insert_by_permutation. now constructor.
Qed.

Lemma insert_by_sorted r l :
  Sorted (by_key key) l -> Sorted (by_key key) (insert_by key r l).
Proof.
  induction l as [| x l IH]; cbn [insert_by]; intros Hs.
  - repeat constructor.
  - destruct (String.leb (key r) (key x)) eqn:Hle.
    + constructor; [exact Hs | constructor; exact Hle].
    + inversion Hs as [| ? ? Hs' Hhd]; subst. constructor; [apply IH; exact Hs' |].
      assert (Hxr : by_key key x r).
      { unfold by_key. destruct (String.leb_total (key r) (key x)); congruence. }
      destruct l as [| y l]; cbn [insert_by].
      * constructor. exact Hxr.
      * destruct (String.leb (key r) (key y)); constructor; [exact Hxr |].
        now inversion Hhd.
Qed.

Lemma order_by_sorted l : Sorted (by_key key) (order_by key l).
Proof.
  induction l as [| x l IH]; cbn; [constructor |].
  apply insert_by_sorted. exact IH.
Qed.

End OrderBy.

(** Sorting two lists that agree on their keys keeps them side by side. *)
Lemma insert_by_Forall2 {A B} (ka : A -> string) (kb : B -> string)
    (P : A -> B -> Prop) a b l1 l2 :
  (forall x y, P x y -> ka x = kb y) ->
  P a b -> Forall2 P l1 l2 ->
  Forall2 P (insert_by ka a l1) (insert_by kb b l2).
Proof.
  intros Hkey Hab Hall. induction Hall as [| x y l1 l2 Hxy Hall IH]; cbn [insert_by].
  - repeat constructor. exact Hab.
  - rewrite (Hkey _ _ Hab), (Hkey _ _ Hxy).
    destruct (String.leb (kb b) (kb y)); repeat constructor; assumption.
Qed.

Lemma order_by_Forall2 {A B} (ka : A -> string) (kb : B -> string)
    (P : A -> B -> Prop) l1 l2 :
  (forall x y, P x y -> ka x = kb y) ->
  Forall2 P l1 l2 ->
  Forall2 P (order_by ka l1) (order_by kb l2).
Proof.
  intros Hkey Hall. induction Hall; cbn; [constructor |].
  apply insert_by_Forall2; assumption.
Qed.

End OrderFacts.

(** *** [get] after [store] *)

Module GetFacts.
Import Json Catalog CatalogFacts StoreFacts OrderFacts.

Lemma filter_nothing {A} (f : A -> bool) (l : list A) :
  Forall (fun x => f x = false) l -> List.filter f l = [].
Proof.
  induction 1 as [| x l Hx _ IH]; cbn; [reflexivity |]. now rewrite Hx.
Qed.

Lemma filter_everything {A} (f : A -> bool) (l : list A) :
  Forall (fun x => f x = true) l -> List.filter f l = l.
Proof.
  induction 1 as [| x l Hx _ IH]; cbn; [reflexivity |]. now rewrite Hx, IH.
Qed.

Lemma filter_kept_same_key n v rows :
  List.filter (same_key n v) (List.filter (fun r => negb (same_key n v r)) rows) = [].
Proof.
  apply filter_nothing. apply List.Forall_forall. intros r Hin.
  apply List.filter_In in Hin. destruct Hin as [_ Hneg].
  now destruct (same_key n v r).
Qed.

Section Get.
Context `{SemverRoundTrip}.

Lemma deps_of_rows_ok p rows ds :
  Forall2 (row_of_dep p) rows ds -> deps_of_rows rows = Ok ds.
Proof.
  induction 1 as [| r d rows ds Hrd _ IH]; cbn [deps_of_rows]; [reflexivity |].
  destruct Hrd as (_ & Hname & lo & hi & Hver & Hlo & Hhi).
  rewrite Hlo, Hhi, !version_parse_to_string, IH. unfold_result.
  destruct d as [dn dv]. cbn in *. subst. reflexivity.
Qed.

(** C1 (as amended).  After a [store] of [pkg] that succeeded, on a catalog
    whose file satisfies the invariant, [get] on the id of [pkg] returns
    [pkg] with its dependencies ordered by name, provided the [auto_lib] of
    [pkg], if present, has a name that is not empty.  It makes no
    difference whether a package of that id was stored before: its row is
    replaced, and the dependencies read are those of the new row. *)
Theorem store_then_get pkg db db' :
  catalog_inv (content db) ->
  (forall git u, remote pkg = git_remote git -> auto_lib git = Some u ->
                 usage_name u <> "") ->
  store pkg db = (Ok tt, db') ->
  get db' (ident pkg)
  = Ok (Some (mk_package_info (ident pkg) (order_by dep_name (deps pkg))
                              (description pkg) (remote pkg)))
  /\ Permutation (order_by dep_name (deps pkg)) (deps pkg)
  /\ Sorted (by_key dep_name) (order_by dep_name (deps pkg)).
Proof.
  intros (pkgs & old & Hpkgs & Hold & Hbound) Hlib Hstore.
  split; [| split; [apply order_by_permutation | apply order_by_sorted]].
  apply store_ok in Hstore. destruct Hstore as (_ & _ & db0 & db1 & Hc0 & Hbody & Hc1).
  apply store_body_ok in Hbody.
  destruct Hbody as (git & pkgs' & row & new & Hremote & Hpkgs' & Hrow & Hlm
                     & Hnewpkgs & _ & _ & Hnew & Hnewdeps).
  cbn zeta in *. rewrite Hc0 in *. rewrite Hpkgs in Hpkgs'. injection Hpkgs' as <-.
  specialize (Hnewdeps old Hold). rewrite <- Hc1 in Hnewpkgs, Hnewdeps.
  assert (Hkey : same_key (name (ident pkg))
                          (version_to_string (pid_version (ident pkg))) row = true).
  { subst row. unfold same_key, new_pkg_row. cbn. now rewrite !String.eqb_refl. }
  assert (Hrn : row_name row = name (ident pkg)) by (subst row; reflexivity).
  assert (Hrv : row_version row = version_to_string (pid_version (ident pkg)))
    by (subst row; reflexivity).
  rewrite Hrn, Hrv in Hnewpkgs.
  assert (Hsel : List.filter (same_key (name (ident pkg))
                                (version_to_string (pid_version (ident pkg))))
                   (List.filter (fun r => negb (same_key (name (ident pkg))
                                   (version_to_string (pid_version (ident pkg))) r)) pkgs
                    ++ [row])%list = [row]).
  { rewrite List.filter_app, filter_kept_same_key. cbn. now rewrite Hkey. }
  assert (Hid : pkg_id row = largest_rowid pkg_id (seq_pkgs (content db)) pkgs + 1)
    by (subst row; reflexivity).
  assert (Hdeps : List.filter (fun d => existsb (references d) [row]) (old ++ new)%list
                  = new).
  { rewrite List.filter_app, filter_nothing, filter_everything; [reflexivity | |].
    - clear -Hnew. induction Hnew as [| r d ? ? Hrd _ IH]; constructor; [| exact IH].
      destruct Hrd as (Hp & _). unfold references. cbn. rewrite Hp, Z.eqb_refl. reflexivity.
    - eapply List.Forall_impl; [| exact Hbound]. cbn. intros d Hd.
      unfold references. destruct (Z.eqb_spec (dep_pkg_id d) (pkg_id row)); [lia | reflexivity]. }
  unfold get, select_pkg. rewrite Hnewpkgs, Hsel. unfold_result. cbn [head].
  rewrite Hrn, String.eqb_refl, Hrv, version_parse_to_string.
  rewrite bool_decide_eq_true_2 by reflexivity.
  assert (Hurl : git_url row = Some (url git)) by (subst row; reflexivity).
  assert (Href : git_ref row = Some (ref git)) by (subst row; reflexivity).
  rewrite Hurl, Href.
  unfold dependencies_of, select_deps. rewrite Hnewpkgs, Hnewdeps, Hsel, Hdeps.
  unfold_result.
  rewrite (deps_of_rows_ok (pkg_id row) _ (order_by dep_name (deps pkg))).
  2:{ apply order_by_Forall2; [| exact Hnew]. intros r d (_ & Hn & _). exact Hn. }
  assert (Hdescr : row_description row = description pkg) by (subst row; reflexivity).
  rewrite Hdescr, Hremote.
  assert (Hauto : match lm_name row with
                  | Some lm_name =>
                      match
                        match lm_namespace row with
                        | Some a => Ok a
                        | None => Throw (assertion_failure "lm_namespace")
                        end
                      with
                      | Ok a => Ok (Some (mk_usage a lm_name))
                      | Throw e => Throw e
                      end
                  | None => Ok None
                  end = Ok (auto_lib git)).
  { specialize (Hlib git). unfold valid_lm_info in Hlm. subst row. cbn in *.
    destruct (auto_lib git) as [[ns nm] |]; cbn in *.
    - specialize (Hlib _ Hremote eq_refl). cbn in Hlib.
      unfold null_if_empty in *.
      destruct (String.eqb_spec nm ""); [congruence |].
      destruct (String.eqb_spec ns ""); [discriminate | reflexivity].
    - reflexivity. }
  rewrite Hauto. destruct git. reflexivity.
Qed.

End Get.

Import CatalogExamples NumericSemver NumericSemverFacts.

(** Opening a database that does not exist yet creates the catalog. *)
Example open_new_database :
  open example_json_parse example_json_dump empty_file
  = (Ok fresh_catalog, content fresh_catalog).
Proof. vm_compute. reflexivity. Qed.

Lemma fresh_catalog_inv : catalog_inv (content fresh_catalog).
Proof. exists [], []. repeat split. constructor. Qed.

Example get_orders_dependencies :
  get (snd (store pkg_a fresh_catalog)) (ident pkg_a)
  = Ok (Some (mk_package_info (ident pkg_a)
                [single_interval "fmt" (v 6 0 0) (v 7 0 0);
                 single_interval "zlib" (v 1 2 0) (v 2 0 0)]
                "first" (remote pkg_a))).
Proof. vm_compute. reflexivity. Qed.

(** The claim of C1 fails for a package whose [auto_lib] is present but
    blank: it is stored as an absent one, and [get] returns a package that
    differs from the one stored. *)
Lemma blank_auto_lib_is_not_returned :
  exists db' got,
    store pkg_blank_auto_lib fresh_catalog = (Ok tt, db')
    /\ get db' (ident pkg_blank_auto_lib) = Ok (Some got)
    /\ got <> pkg_blank_auto_lib.
Proof.
  eexists _, _. split; [vm_compute; reflexivity |].
  split; [vm_compute; reflexivity |]. discriminate.
Qed.

(** [a@1.0.0] is stored a second time, with other dependencies. *)
Lemma store_then_get_witness :
  let db := snd (store pkg_a fresh_catalog) in
  let db' := snd (store pkg_a' db) in
  get db' (ident pkg_a')
  = Ok (Some (mk_package_info (ident pkg_a') (order_by dep_name (deps pkg_a'))
                              (description pkg_a') (remote pkg_a')))
  /\ Permutation (order_by dep_name (deps pkg_a')) (deps pkg_a')
  /\ Sorted (by_key dep_name) (order_by dep_name (deps pkg_a')).
Proof.
  apply (store_then_get pkg_a' (snd (store pkg_a fresh_catalog))
           (snd (store pkg_a' (snd (store pkg_a fresh_catalog))))).
  - eexists _, _. split; [vm_compute; reflexivity |].
    split; [vm_compute; reflexivity |].
    repeat constructor; vm_compute; discriminate.
  - intros git u [= <-]. discriminate.
  - vm_compute. reflexivity.
Defined.

End GetFacts.

(** *** [import_json_str] *)

Module ImportFacts.
Import Json Catalog CatalogFacts StoreFacts.

Lemma same_key_eq n v r : same_key n v r = true <-> row_name r = n /\ row_version r = v.
Proof.
  unfold same_key. rewrite andb_true_iff, !String.eqb_eq. tauto.
Qed.

Section ImportLoops.
Context `{Semver}.
Variable json_parse : string -> option json.
Variable split_usage_string : string -> result usage.

(** *** The invariant of the catalog file under [store] *)

Lemma store_deps_inv p ds db r db' :
  (exists pkgs, dds_cat_pkgs (content db) = Some pkgs
                /\ p <= largest_rowid pkg_id (seq_pkgs (content db)) pkgs) ->
  catalog_inv (content db) ->
  store_deps p ds db = (r, db') ->
  catalog_inv (content db').
Proof.
  revert db. induction ds as [| d ds IH]; intros db Hp Hinv; cbn [store_deps].
  - unfold_M. now intros [= <- <-].
  - unfold_M. unfold assert.
    destruct (Nat.eqb (num_intervals d) 1); [| now intros [= <- <-]].
    destruct (versions d) as [| iv ivs]; [now intros [= <- <-] |].
    destruct (insert_dep p _ _ _ db) as [r1 db1] eqn:Hins.
    apply insert_dep_inv in Hins.
    destruct Hins as [(e & -> & ->) | (rows & Hrows & -> & ->)]; [now intros [= <- <-] |].
    cbn zeta in Hrows. apply IH.
    + destruct Hp as (pkgs & Hpkgs & Hle). exists pkgs. cbn. auto.
    + destruct Hinv as (pkgs & old & Hpkgs & Hold & Hbound).
      destruct Hp as (pkgs' & Hpkgs' & Hle).
      rewrite Hpkgs in Hpkgs'. injection Hpkgs' as <-.
      rewrite Hold in Hrows. injection Hrows as <-.
      exists pkgs, (old ++ [mk_dep_row (largest_rowid dep_id (seq_deps (content db)) old + 1)
                              p (dep_name d) (version_to_string (fst iv))
                              (version_to_string (snd iv))])%list.
      cbn. repeat split; [exact Hpkgs |].
      apply Forall_app. split; [exact Hbound |]. repeat constructor. exact Hle.
Qed.

Lemma store_body_inv pkg db r db' :
  catalog_inv (content db) ->
  store_body pkg db = (r, db') ->
  catalog_inv (content db').
Proof.
  intros Hinv. unfold store_body, _store_pkg. unfold_M. destruct (remote pkg) as [git].
  destruct (insert_or_replace_pkg _ _ _ _ _ _ _ db) as [r1 db1] eqn:Hins.
  apply insert_or_replace_pkg_inv in Hins.
  destruct Hins as [(e & -> & ->) | (rows & Hrows & -> & Hlm & ->)];
    [now intros [= <- <-] |].
  cbn [last_insert_rowid]. apply store_deps_inv.
  - eexists. cbn. split; [reflexivity |]. apply largest_rowid_ge_seq.
  - destruct Hinv as (pkgs & old & Hpkgs & Hold & Hbound).
    cbn zeta in Hrows. rewrite Hpkgs in Hrows. injection Hrows as <-.
    eexists _, old. cbn. repeat split; [exact Hold |].
    eapply List.Forall_impl; [| exact Hbound]. cbn. intros d Hd.
    etransitivity; [| apply largest_rowid_ge_seq]. unfold new_pkg_row. cbn. lia.
Qed.

(** [store] keeps the invariant of the catalog file, whether it succeeds
    or throws. *)
Lemma store_inv pkg db r db' :
  catalog_inv (content db) ->
  store pkg db = (r, db') ->
  catalog_inv (content db').
Proof.
  intros Hinv. unfold store, transaction_guard.
  destruct (journal db) as [j |] eqn:Hj.
  - apply store_body_inv. exact Hinv.
  - destruct (store_body pkg _) as [[[] | e] db1] eqn:Hbody; intros [= <- <-]; cbn.
    + eapply store_body_inv; [| exact Hbody]. exact Hinv.
    + apply store_body_journal in Hbody. destruct Hbody as [-> _]. exact Hinv.
Qed.

(** *** The packages in the catalog *)

Lemma store_has pkg db db' :
  store pkg db = (Ok tt, db') ->
  has_package (content db') (name (ident pkg))
              (version_to_string (pid_version (ident pkg))).
Proof.
  intros Hstore. apply store_ok in Hstore.
  destruct Hstore as (_ & _ & db0 & db1 & Hc0 & Hbody & Hc1).
  apply store_body_ok in Hbody.
  destruct Hbody as (git & pkgs & row & new & _ & _ & Hrow & _ & Hnewpkgs & _).
  rewrite <- Hc1 in Hnewpkgs. eexists _, row. split; [exact Hnewpkgs |].
  split; [apply in_or_app; right; now left |].
  subst row. apply same_key_eq. split; reflexivity.
Qed.

Lemma store_keeps pkg db db' n v :
  store pkg db = (Ok tt, db') ->
  has_package (content db) n v ->
  has_package (content db') n v.
Proof.
  intros Hstore (rows & r & Hrows & Hin & Hkey). apply store_ok in Hstore.
  destruct Hstore as (_ & _ & db0 & db1 & Hc0 & Hbody & Hc1).
  apply store_body_ok in Hbody.
  destruct Hbody as (git & pkgs & row & new & _ & Hpkgs & Hrow & _ & Hnewpkgs & _).
  cbn zeta in *. rewrite Hc0, Hrows in Hpkgs. injection Hpkgs as <-.
  rewrite <- Hc1 in Hnewpkgs.
  destruct (same_key (row_name row) (row_version row) r) eqn:Hsame.
  - eexists _, row. split; [exact Hnewpkgs |].
    split; [apply in_or_app; right; now left |].
    apply same_key_eq in Hkey, Hsame. apply same_key_eq.
    destruct Hkey, Hsame. split; congruence.
  - eexists _, r. split; [exact Hnewpkgs |]. split; [| exact Hkey].
    apply in_or_app. left. apply List.filter_In. split; [exact Hin |].
    now rewrite Hsame.
Qed.

Lemma store_journal pkg db r db' :
  store pkg db = (r, db') -> journal db' = journal db.
Proof.
  destruct r as [[] | e]; intros Hstore.
  - now apply store_ok in Hstore.
  - now apply store_throw in Hstore.
Qed.

(** The package that [import_info] describes has the name and the version
    of the member it was read from. *)
Lemma import_info_ident pkg_name version_ j info :
  import_info split_usage_string pkg_name version_ j = Ok info ->
  exists v, version_parse version_ = Some v /\ ident info = mk_package_id pkg_name v.
Proof.
  unfold import_info. unfold_result. intros Hinfo.
  destruct (version_parse version_) as [v |]; [| discriminate].
  exists v. split; [reflexivity |].
  repeat match type of Hinfo with
         | context [match ?x with _ => _ end] => destruct x; try discriminate
         end.
  all: now injection Hinfo as <-.
Qed.

(** *** The loops of the import *)

Lemma import_versions_journal pkg_name ms db r db' :
  import_versions split_usage_string pkg_name ms db = (r, db') ->
  journal db' = journal db.
Proof.
  revert db. induction ms as [| [version_ j] ms IH]; intros db; cbn [import_versions].
  - unfold_M. now intros [= <- <-].
  - unfold_M. destruct (import_info _ _ _ _) as [info |]; [| now intros [= <- <-]].
    destruct (store info db) as [[[] | e] db1] eqn:Hstore.
    + intros Hrest. apply IH in Hrest. rewrite Hrest. eapply store_journal; eauto.
    + intros [= <- <-]. eapply store_journal; eauto.
Qed.

Lemma import_packages_journal ms db r db' :
  import_packages split_usage_string ms db = (r, db') ->
  journal db' = journal db.
Proof.
  revert db. induction ms as [| [pkg_name j] ms IH]; intros db; cbn [import_packages].
  - unfold_M. now intros [= <- <-].
  - unfold_M. destruct (check_json _ _); [| now intros [= <- <-]].
    destruct (import_versions _ _ _ db) as [[[] | e] db1] eqn:Hvers.
    + intros Hrest. apply IH in Hrest. rewrite Hrest.
      eapply import_versions_journal; eauto.
    + intros [= <- <-]. eapply import_versions_journal; eauto.
Qed.

Lemma import_versions_stored pkg_name ms db db' :
  import_versions split_usage_string pkg_name ms db = (Ok tt, db') ->
  (forall version_ j, In (version_, j) ms ->
     exists v, version_parse version_ = Some v
               /\ has_package (content db') pkg_name (version_to_string v))
  /\ (forall n v, has_package (content db) n v -> has_package (content db') n v).
Proof.
  revert db. induction ms as [| [version_ j] ms IH]; intros db; cbn [import_versions].
  - unfold_M. intros [= <-]. split; [intros ? ? [] | auto].
  - unfold_M. destruct (import_info _ _ _ _) as [info |] eqn:Hinfo; [| discriminate].
    destruct (store info db) as [[[] | e] db1] eqn:Hstore; [| discriminate].
    intros Hrest. destruct (IH _ Hrest) as [Hall Hkeep]. split.
    + intros version' j' [[= <- <-] | Hin]; [| now apply (Hall version' j')].
      destruct (import_info_ident _ _ _ _ Hinfo) as (v & Hv & Hid).
      exists v. split; [exact Hv |]. apply Hkeep.
      pose proof (store_has _ _ _ Hstore) as Hhas. now rewrite Hid in Hhas.
    + intros n v Hhas. apply Hkeep. eapply store_keeps; eauto.
Qed.

Lemma import_packages_stored ms db db' :
  import_packages split_usage_string ms db = (Ok tt, db') ->
  (forall n version_, In (n, version_) (described_packages (object [("packages", object ms)])) ->
     exists v, version_parse version_ = Some v
               /\ has_package (content db') n (version_to_string v))
  /\ (forall n v, has_package (content db) n v -> has_package (content db') n v).
Proof.
  unfold described_packages. cbn [at_key lookup_key items default from_option id].
  rewrite String.eqb_refl. cbn [default from_option id items].
  revert db. induction ms as [| [pkg_name j] ms IH]; intros db; cbn [import_packages].
  - unfold_M. intros [= <-]. split; [intros ? ? [] | auto].
  - unfold_M. destruct (check_json _ _); [| discriminate].
    destruct (import_versions _ _ _ db) as [[[] | e] db1] eqn:Hvers; [| discriminate].
    intros Hrest. destruct (IH _ Hrest) as [Hall Hkeep].
    destruct (import_versions_stored _ _ _ _ Hvers) as [Hhere Hkeep1]. split.
    + intros n version_ Hin. cbn [flat_map] in Hin. apply in_app_or in Hin.
      destruct Hin as [Hin | Hin]; [| now apply Hall].
      apply List.in_map_iff in Hin. destruct Hin as ([version' j'] & [= <- <-] & Hin).
      destruct (Hhere _ _ Hin) as (v & Hv & Hhas). exists v. split; [exact Hv |].
      now apply Hkeep.
    + intros n v Hhas. apply Hkeep, Hkeep1, Hhas.
Qed.

Lemma import_versions_inv pkg_name ms db r db' :
  catalog_inv (content db) ->
  import_versions split_usage_string pkg_name ms db = (r, db') ->
  catalog_inv (content db').
Proof.
  revert db. induction ms as [| [version_ j] ms IH]; intros db Hinv; cbn [import_versions].
  - unfold_M. now intros [= <- <-].
  - unfold_M. destruct (import_info _ _ _ _) as [info |]; [| now intros [= <- <-]].
    destruct (store info db) as [[[] | e] db1] eqn:Hstore.
    + apply IH. eapply store_inv; eauto.
    + intros [= <- <-]. eapply store_inv; eauto.
Qed.

Lemma import_packages_inv ms db r db' :
  catalog_inv (content db) ->
  import_packages split_usage_string ms db = (r, db') ->
  catalog_inv (content db').
Proof.
  revert db. induction ms as [| [pkg_name j] ms IH]; intros db Hinv; cbn [import_packages].
  - unfold_M. now intros [= <- <-].
  - unfold_M. destruct (check_json _ _); [| now intros [= <- <-]].
    destruct (import_versions _ _ _ db) as [[[] | e] db1] eqn:Hvers.
    + apply IH. eapply import_versions_inv; eauto.
    + intros [= <- <-]. eapply import_versions_inv; eauto.
Qed.

(** The import keeps the invariant of the catalog file. *)
Lemma import_json_str_inv content_ db r db' :
  catalog_inv (content db) ->
  import_json_str json_parse split_usage_string content_ db = (r, db') ->
  catalog_inv (content db').
Proof.
  intros Hinv. unfold import_json_str. unfold_M. unfold or_throw.
  destruct (json_parse content_) as [root |]; [| now intros [= <- <-]].
  destruct (check_json (is_object root) _); [| now intros [= <- <-]].
  destruct (check_json (is_number_integer _) _); [| now intros [= <- <-]].
  destruct (check_json (le_int _ _) _); [| now intros [= <- <-]].
  destruct (check_json (is_object (at_key root "packages")) _); [| now intros [= <- <-]].
  unfold transaction_guard. destruct (journal db) as [j |] eqn:Hj.
  - apply import_packages_inv. exact Hinv.
  - destruct (import_packages _ _ _) as [[[] | e] db1] eqn:Himport; intros [= <- <-]; cbn.
    + eapply import_packages_inv; [| exact Himport]. exact Hinv.
    + apply import_packages_journal in Himport. cbn in Himport. now rewrite Himport.
Qed.


End ImportLoops.

Import CatalogExamples NumericSemver NumericSemverFacts.

(** The second scenario of the specification: after the import, [a@1.0.0]
    depends on [b] from 1.2.0 up to 2.0.0. *)
Example import_then_get :
  let db := snd (import_json_str example_json_parse example_split_usage doc_a_text
                                 fresh_catalog) in
  get db (mk_package_id "a" (v 1 0 0))
  = Ok (Some (mk_package_info (mk_package_id "a" (v 1 0 0))
                [single_interval "b" (v 1 2 0) (v 2 0 0)] ""
                (git_remote (mk_git "u" "r" None)))).
Proof. vm_compute. reflexivity. Qed.

(** A document whose second package lacks its [git] member: the first
    package was stored when the error is met, and is gone afterwards. *)
Example import_partial_failure :
  let out := import_json_str example_json_parse example_split_usage doc_partial_text
                             fresh_catalog in
  fst out = Throw (user_error no_catalog_remote_info "No remote info for /packages/b/2.0.0")
  /\ content (snd out) = content fresh_catalog.
Proof. vm_compute. split; reflexivity. Qed.


End ImportFacts.

(** *** When [store] succeeds *)

Module StoreTotalFacts.
Import Json Catalog CatalogFacts StoreFacts.

Lemma largest_rowid_le {R} (rowid : R -> Z) seq rows b :
  seq <= b -> Forall (fun r => rowid r <= b) rows ->
  largest_rowid rowid seq rows <= b.
Proof.
  intros Hseq Hall. unfold largest_rowid.
  induction Hall as [| r rows Hr _ IH]; cbn; lia.
Qed.

Lemma largest_rowid_app_new {R} (rowid : R -> Z) seq rows r :
  rowid r = largest_rowid rowid seq rows + 1 ->
  largest_rowid rowid (rowid r) (rows ++ [r]) = rowid r.
Proof.
  intros Hr. apply Z.le_antisymm; [| apply largest_rowid_ge_seq].
  apply largest_rowid_le; [lia |]. apply Forall_app. split.
  - apply List.Forall_forall. intros x Hx.
    pose proof (largest_rowid_ge_row rowid seq rows x Hx). lia.
  - repeat constructor. lia.
Qed.

Section StoreTotal.
Context `{Semver}.

Lemma existsb_false {A} (f : A -> bool) (l : list A) :
  (forall x, In x l -> f x = false) -> existsb f l = false.
Proof.
  induction l as [| a l IH]; cbn; [reflexivity |]. intros Hall.
  rewrite (Hall a) by now left. apply IH. intros x Hx. apply Hall. now right.
Qed.

Lemma store_deps_succeeds p ds db rows :
  dds_cat_pkg_deps (content db) = Some rows ->
  foreign_keys db = false ->
  Forall (fun d => num_intervals d = 1%nat) ds ->
  List.NoDup (List.map dep_name ds) ->
  (forall r, In r rows -> dep_pkg_id r = p -> ~ In (row_dep_name r) (List.map dep_name ds)) ->
  largest_rowid dep_id (seq_deps (content db)) rows + Z.of_nat (length ds) <= max_rowid ->
  exists db', store_deps p ds db = (Ok tt, db').
Proof.
  revert db rows. induction ds as [| d ds IH]; intros db rows Hrows Hfk Hone Hnodup Hfresh Hcap.
  - eexists. reflexivity.
  - cbn [store_deps]. unfold_M. unfold assert.
    inversion Hone as [| ? ? Hd Hone']; subst.
    inversion Hnodup as [| ? ? Hnotin Hnodup']; subst.
    rewrite Hd. cbn [Nat.eqb].
    destruct (versions d) as [| iv ivs] eqn:Hver.
    { unfold num_intervals in Hd. rewrite Hver in Hd. discriminate. }
    unfold insert_dep. rewrite Hrows, Hfk. cbn [andb].
    destruct (Z.leb_spec max_rowid (largest_rowid dep_id (seq_deps (content db)) rows))
      as [Hfull | _]; [cbn [length] in Hcap; lia |].
    rewrite existsb_false.
    2:{ intros r Hr. destruct (Z.eqb_spec (dep_pkg_id r) p) as [Hp | _]; [| reflexivity].
        cbn. apply String.eqb_neq. intros Heq. apply (Hfresh r Hr Hp).
        cbn. left. now symmetry. }
    set (row := mk_dep_row _ p (dep_name d) _ _).
    eapply (IH _ (rows ++ [row])%list).
    + reflexivity.
    + reflexivity.
    + exact Hone'.
    + exact Hnodup'.
    + intros r Hr Hp Hin. apply in_app_or in Hr. destruct Hr as [Hr | [<- | []]].
      * apply (Hfresh r Hr Hp). cbn. now right.
      * cbn in Hin. contradiction.
    + cbn [content seq_deps].
      pose proof (largest_rowid_app_new dep_id (seq_deps (content db)) rows row eq_refl)
        as Hlargest.
      cbn [dep_id row] in Hlargest. subst row. rewrite Hlargest.
      cbn [length] in Hcap. lia.
Qed.

(** X27.  With foreign keys off, as they are on every connection the
    catalog opens, [store] succeeds on every package with one interval for each
    dependency, no dependency named twice and an [auto_lib] that is absent
    or names both a library and its namespace, as long as rowids are left.
    In particular it succeeds when a package of the same id is there. *)
Lemma store_succeeds pkg db :
  catalog_inv (content db) ->
  foreign_keys db = false ->
  Forall (fun d => num_intervals d = 1%nat) (deps pkg) ->
  List.NoDup (List.map dep_name (deps pkg)) ->
  (forall git u, remote pkg = git_remote git -> auto_lib git = Some u ->
                 usage_name u <> "" /\ usage_namespace u <> "") ->
  (forall pkgs old,
     dds_cat_pkgs (content db) = Some pkgs ->
     dds_cat_pkg_deps (content db) = Some old ->
     largest_rowid pkg_id (seq_pkgs (content db)) pkgs < max_rowid
     /\ largest_rowid dep_id (seq_deps (content db)) old
        + Z.of_nat (length (deps pkg)) <= max_rowid) ->
  exists db', store pkg db = (Ok tt, db').
Proof.
  intros (pkgs & old & Hpkgs & Hold & Hbound) Hfk Hone Hnodup Hlib Hcap.
  destruct (Hcap pkgs old Hpkgs Hold) as [Hcap1 Hcap2].
  assert (Hbody : forall db0, content db0 = content db -> foreign_keys db0 = false ->
                              exists db1, store_body pkg db0 = (Ok tt, db1)).
  { intros db0 Hc Hfk0. unfold store_body, _store_pkg. unfold_M.
    destruct (remote pkg) as [git] eqn:Hremote.
    unfold insert_or_replace_pkg. rewrite Hc, Hpkgs, Hfk0. cbn [andb].
    destruct (Z.leb_spec max_rowid (largest_rowid pkg_id (seq_pkgs (content db)) pkgs));
      [lia |].
    cbn [has_source_info git_url git_ref not_null andb negb].
    assert (Hlm : valid_lm_info
                    (mk_pkg_row (largest_rowid pkg_id (seq_pkgs (content db)) pkgs + 1)
                       (name (ident pkg)) (version_to_string (pid_version (ident pkg)))
                       (Some (url git)) (Some (ref git))
                       (null_if_empty (usage_name (default (mk_usage "" "") (auto_lib git))))
                       (null_if_empty (usage_namespace (default (mk_usage "" "") (auto_lib git))))
                       (description pkg)) = true).
    { unfold valid_lm_info, null_if_empty. cbn.
      destruct (auto_lib git) as [[ns nm] |] eqn:Hauto; cbn; [| reflexivity].
      destruct (Hlib git _ eq_refl Hauto) as [Hnm Hns]. cbn in Hnm, Hns.
      destruct (String.eqb_spec nm ""); [congruence |].
      destruct (String.eqb_spec ns ""); [congruence | reflexivity]. }
    rewrite Hlm. cbn [negb last_insert_rowid].
    eapply (store_deps_succeeds _ _ _ old).
    - cbn. exact Hold.
    - reflexivity.
    - exact Hone.
    - exact Hnodup.
    - intros r Hr Hp. rewrite List.Forall_forall in Hbound. specialize (Hbound r Hr).
      cbn in Hbound. lia.
    - cbn. exact Hcap2. }
  unfold store, transaction_guard. destruct (journal db) as [j |].
  - apply Hbody; [reflexivity | exact Hfk].
  - destruct (Hbody (mk_database (content db) (Some (content db)) (foreign_keys db)
                                 (last_insert_rowid db)) eq_refl Hfk) as [db1 Hdb1].
    rewrite Hdb1. eauto.
Qed.

End StoreTotal.
End StoreTotalFacts.

(** ** What [store] leaves alone *)

Module FrameFacts.
Import Json Catalog CatalogFacts StoreFacts GetFacts StoreTotalFacts.

Lemma filter_same_key_kept n v n' v' rows :
  (n' <> n \/ v' <> v) ->
  List.filter (same_key n' v') (List.filter (fun r => negb (same_key n v r)) rows)
  = List.filter (same_key n' v') rows.
Proof.
  intros Hother. induction rows as [| r rows IH]; [reflexivity |].
  cbn [List.filter]. destruct (same_key n v r) eqn:Hr; cbn [negb List.filter].
  - rewrite IH. destruct (same_key n' v' r) eqn:Hr'; [| reflexivity].
    unfold same_key in Hr, Hr'.
    apply andb_prop in Hr as [Hn Hv]. apply andb_prop in Hr' as [Hn' Hv'].
    eqb_subst. destruct Hother as [Hne | Hne]; congruence.
  - now rewrite IH.
Qed.

Section Frame.
Context `{Semver}.

(** [get] and [dependencies_of] read the content of the file, not the state
    of the connection. *)
Lemma get_content db1 db2 q : content db1 = content db2 -> get db1 q = get db2 q.
Proof.
  intros Hc. unfold get, select_pkg, dependencies_of, select_deps. now rewrite Hc.
Qed.

Lemma dependencies_of_content db1 db2 q :
  content db1 = content db2 -> dependencies_of db1 q = dependencies_of db2 q.
Proof.
  intros Hc. unfold dependencies_of, select_deps. now rewrite Hc.
Qed.

Lemma store_deps_no_table p ds db r db' :
  store_deps p ds db = (r, db') ->
  dds_cat_pkg_deps (content db) = None ->
  dds_cat_pkg_deps (content db') = None.
Proof.
  intros Hrun Hnone. destruct ds as [| d ds]; cbn [store_deps] in Hrun.
  - unfold_M. now injection Hrun as <- <-.
  - unfold_M. unfold assert in Hrun.
    destruct (Nat.eqb (num_intervals d) 1); [| now injection Hrun as <- <-].
    destruct (versions d); [now injection Hrun as <- <- |].
    unfold insert_dep in Hrun. rewrite Hnone in Hrun. now injection Hrun as <- <-.
Qed.

(** The rows that a query for the key [(n', v')] reads are, after a
    [store] of a package of another key, those it read before. *)
Lemma store_body_frame pkg db db' n' v' :
  store_body pkg db = (Ok tt, db') ->
  (n' <> name (ident pkg) \/ v' <> version_to_string (pid_version (ident pkg))) ->
  (exists pkgs pkgs',
     dds_cat_pkgs (content db) = Some pkgs
     /\ dds_cat_pkgs (content db') = Some pkgs'
     /\ List.filter (same_key n' v') pkgs' = List.filter (same_key n' v') pkgs
     /\ match dds_cat_pkg_deps (content db), dds_cat_pkg_deps (content db') with
        | Some old, Some deps' =>
            List.filter (fun d => existsb (references d) (List.filter (same_key n' v') pkgs))
                        deps'
            = List.filter (fun d => existsb (references d) (List.filter (same_key n' v') pkgs))
                          old
        | None, None => True
        | _, _ => False
        end).
Proof.
  intros Hbody Hother.
  pose proof Hbody as Hraw.
  apply store_body_ok in Hbody.
  destruct Hbody as (git & pkgs & row & new & Hremote & Hpkgs & Hrow & _
                     & Hnewpkgs & _ & _ & Hnew & Hnewdeps).
  cbn zeta in *.
  assert (Hrn : row_name row = name (ident pkg)) by (subst row; reflexivity).
  assert (Hrv : row_version row = version_to_string (pid_version (ident pkg)))
    by (subst row; reflexivity).
  rewrite Hrn, Hrv in Hnewpkgs.
  eexists pkgs, _. split; [exact Hpkgs |]. split; [exact Hnewpkgs |]. split.
  - rewrite List.filter_app, filter_same_key_kept by exact Hother.
    cbn [List.filter]. replace (same_key n' v' row) with false; [apply app_nil_r |].
    symmetry. unfold same_key. rewrite Hrn, Hrv.
    destruct (String.eqb_spec (name (ident pkg)) n'),
             (String.eqb_spec (version_to_string (pid_version (ident pkg))) v');
      try reflexivity.
    destruct Hother; congruence.
  - destruct (dds_cat_pkg_deps (content db)) as [old |] eqn:Hold.
    + rewrite (Hnewdeps old eq_refl). rewrite List.filter_app.
      rewrite (filter_nothing _ new); [apply app_nil_r |].
      assert (Hid : pkg_id row = largest_rowid pkg_id (seq_pkgs (content db)) pkgs + 1)
        by (subst row; reflexivity).
      clear -Hnew Hid. induction Hnew as [| r d ? ? Hrd _ IH]; constructor; [| exact IH].
      destruct Hrd as (Hp & _).
      apply existsb_false. intros x Hx. apply List.filter_In in Hx as [Hx _].
      pose proof (largest_rowid_ge_row pkg_id (seq_pkgs (content db)) pkgs x Hx).
      unfold references. destruct (Z.eqb_spec (dep_pkg_id r) (pkg_id x)); [lia | reflexivity].
    + unfold store_body, _store_pkg in Hraw. unfold_M. rewrite Hremote in Hraw.
      destruct (insert_or_replace_pkg _ _ _ _ _ _ _ db) as [r1 db1] eqn:Hins.
      apply insert_or_replace_pkg_inv in Hins.
      destruct Hins as [(e & -> & ->) | (rows & Hrows & -> & _ & ->)]; [discriminate |].
      apply store_deps_no_table in Hraw; [| exact Hold]. now rewrite Hraw.
Qed.

Lemma store_frame pkg db db' q :
  store pkg db = (Ok tt, db') ->
  (name q <> name (ident pkg)
   \/ version_to_string (pid_version q) <> version_to_string (pid_version (ident pkg))) ->
  get db' q = get db q /\ dependencies_of db' q = dependencies_of db q.
Proof.
  intros Hstore Hother.
  apply store_ok in Hstore. destruct Hstore as (_ & _ & db0 & db1 & Hc0 & Hbody & Hc1).
  rewrite (get_content db' db1), (get_content db db0),
          (dependencies_of_content db' db1), (dependencies_of_content db db0) by congruence.
  destruct (store_body_frame _ _ _ _ _ Hbody Hother)
    as (pkgs & pkgs' & Hpkgs & Hpkgs' & Hsel & Hdeps).
  assert (Hd : dependencies_of db1 q = dependencies_of db0 q).
  { unfold dependencies_of, select_deps. rewrite Hpkgs, Hpkgs', Hsel.
    destruct (dds_cat_pkg_deps (content db0)), (dds_cat_pkg_deps (content db1));
      try contradiction; [now rewrite Hdeps | reflexivity]. }
  split; [| exact Hd].
  unfold get, select_pkg. rewrite Hpkgs, Hpkgs', Hsel, Hd. reflexivity.
Qed.

End Frame.

Section FrameRoundTrip.
Context `{SemverRoundTrip}.

Lemma other_id_other_key (p q : package_id) :
  q <> p ->
  name q <> name p
  \/ version_to_string (pid_version q) <> version_to_string (pid_version p).
Proof.
  intros Hne. destruct (String.eqb_spec (name q) (name p)) as [Hn | Hn]; [| now left].
  right. intros Hv. apply Hne.
  assert (Some (pid_version q) = Some (pid_version p)) as [= Hvv]
    by (rewrite <- !version_parse_to_string; now rewrite Hv).
  destruct p, q; cbn in *; congruence.
Qed.

(** X1.  A [store] that succeeded changes what the catalog holds for the
    stored id only: for every other id, [get] and [dependencies_of] return
    what they returned before. *)
Theorem store_keeps_other_packages pkg db db' q :
  store pkg db = (Ok tt, db') ->
  q <> ident pkg ->
  get db' q = get db q /\ dependencies_of db' q = dependencies_of db q.
Proof.
  intros Hstore Hne. eapply store_frame; [exact Hstore |].
  now apply other_id_other_key.
Qed.

End FrameRoundTrip.

End FrameFacts.

(** ** Opening a catalog: failures and what an open keeps *)

Module OpenFacts.
Import Json Catalog CatalogFacts.

Section OpenMore.
Context `{Semver}.
Variable json_parse : string -> option json.
Variable json_dump : json -> string.

Ltac open_steps :=
  unfold open, ensure_migrated, transaction_guard, database_open;
  unfold_M;
  unfold pragma_foreign_keys_on, create_meta_if_not_exists, select_meta, or_throw,
         migrate_repodb_1, update_meta, set_content;
  cbn [journal content foreign_keys last_insert_rowid
       dds_cat_meta dds_cat_pkgs dds_cat_pkg_deps seq_pkgs seq_deps].

Ltac fields :=
  cbn [journal content foreign_keys last_insert_rowid
       dds_cat_meta dds_cat_pkgs dds_cat_pkg_deps seq_pkgs seq_deps].

(** What leaves the [try] block of [open]: the file is as it was, and the
    exception is [corrupted_catalog_db] (to which every error of SQLite is
    turned there), [catalog_too_new], or the error of the JSON parser on
    the stored metadata, which is passed on as it is. *)
Lemma try_failure_keeps_file file e file' :
  open json_parse json_dump file = (Throw e, file') ->
  file' = file
  /\ (e = json_parse_error
      \/ exists what, e = external_error corrupted_catalog_db what
                      \/ e = external_error catalog_too_new what).
Proof.
  open_steps.
  destruct (dds_cat_meta file) as [[| meta_json rest] |] eqn:Hmeta; fields;
    rewrite ?Hmeta; fields.
  - intros [= <- <-]. split; [reflexivity | right; exists ""; now left].
  - destruct (json_parse meta_json) as [meta |].
    2:{ intros [= <- <-]. split; [reflexivity | now left]. }
    destruct (is_object meta); cbn [negb].
    2:{ intros [= <- <-]. split; [reflexivity | right; eexists; now left]. }
    destruct (is_number_integer (at_key meta "version")) eqn:Hint; cbn [negb].
    2:{ intros [= <- <-]. split; [reflexivity | right; eexists; now left]. }
    destruct (get_int (at_key meta "version")) as [version | e0] eqn:Hget.
    2:{ destruct (at_key meta "version"); discriminate. }
    destruct (version >? current_database_version).
    { intros [= <- <-]. split; [reflexivity | right; eexists; now right]. }
    destruct (version <? 1).
    + fields. destruct (dds_cat_pkgs file); fields.
      { intros [= <- <-]. split; [reflexivity | right; exists ""; now left]. }
      fields. destruct (dds_cat_pkg_deps file); fields.
      { intros [= <- <-]. split; [reflexivity | right; exists ""; now left]. }
      rewrite Hmeta. discriminate.
    + fields. rewrite Hmeta. discriminate.
  - destruct (json_parse initial_meta) as [meta |].
    2:{ intros [= <- <-]. split; [reflexivity | now left]. }
    destruct (is_object meta); cbn [negb].
    2:{ intros [= <- <-]. split; [reflexivity | right; eexists; now left]. }
    destruct (is_number_integer (at_key meta "version")) eqn:Hint; cbn [negb].
    2:{ intros [= <- <-]. split; [reflexivity | right; eexists; now left]. }
    destruct (get_int (at_key meta "version")) as [version | e0] eqn:Hget.
    2:{ destruct (at_key meta "version"); discriminate. }
    destruct (version >? current_database_version).
    { intros [= <- <-]. split; [reflexivity | right; eexists; now right]. }
    destruct (version <? 1).
    + fields. destruct (dds_cat_pkgs file); fields.
      { intros [= <- <-]. split; [reflexivity | right; exists ""; now left]. }
      fields. destruct (dds_cat_pkg_deps file); fields.
      { intros [= <- <-]. split; [reflexivity | right; exists ""; now left]. }
      discriminate.
    + fields. discriminate.
Qed.

Variable weakly_canonical : string -> result string.
Variable parent_path : string -> string.
Variable create_directories : string -> result unit.
Variable connect_error : string -> option string.

(** X3.  An [open] that fails leaves the database file as it was.  It
    fails before the [try] with what [fs::weakly_canonical],
    [fs::create_directories] or [sqlite3::database::open] threw, passed on
    as it is (the error of SQLite too: no [catch] stands around the
    connection), and for [":memory:"] no directory is made.  Otherwise it
    fails in one of three ways: with [corrupted_catalog_db], to which every
    error of SQLite inside the [try] is turned, with [catalog_too_new], or
    with the error of the JSON parser on the stored metadata. *)
Theorem open_failure_keeps_file db_path file e file' :
  CatalogOpen.open json_parse json_dump weakly_canonical parent_path create_directories
                   connect_error db_path file = (Throw e, file') ->
  file' = file
  /\ ((db_path <> ":memory:"
       /\ (weakly_canonical db_path = Throw e
           \/ exists dir, weakly_canonical db_path = Ok dir
                          /\ create_directories (parent_path dir) = Throw e))
      \/ (exists what, connect_error db_path = Some what /\ e = sqlite3_error what)
      \/ e = json_parse_error
      \/ exists what, e = external_error corrupted_catalog_db what
                      \/ e = external_error catalog_too_new what).
Proof.
  assert (Hconnect : forall f r f',
             CatalogOpen.connect json_parse json_dump connect_error db_path f = (r, f') ->
             r = Throw e ->
             f' = f
             /\ ((exists what, connect_error db_path = Some what /\ e = sqlite3_error what)
                 \/ e = json_parse_error
                 \/ exists what, e = external_error corrupted_catalog_db what
                                 \/ e = external_error catalog_too_new what)).
  { intros f r f'. unfold CatalogOpen.connect.
    destruct (connect_error db_path) as [what |].
    - intros [= <- <-] [= <-]. split; [reflexivity |]. left. eauto.
    - intros Hopen ->. apply try_failure_keeps_file in Hopen as [-> Hkind]. auto. }
  unfold CatalogOpen.open.
  destruct (String.eqb_spec db_path ":memory:") as [-> | Hpath]; cbn [negb].
  - destruct (CatalogOpen.connect _ _ _ _ empty_file) as [r f'] eqn:Hc. cbn [fst].
    intros [= -> <-]. split; [reflexivity |].
    destruct (Hconnect _ _ _ Hc eq_refl) as [_ Hkind]. now right.
  - unfold_result. destruct (weakly_canonical db_path) as [dir | e0] eqn:Hdir.
    + destruct (create_directories (parent_path dir)) as [[] | e0] eqn:Hmk.
      * intros Hc. destruct (Hconnect _ _ _ Hc eq_refl) as [-> Hkind]. auto.
      * intros [= <- <-]. split; [reflexivity |]. left. eauto.
    + intros [= <- <-]. split; [reflexivity |]. left. auto.
Qed.

(** X4.  An [open] that succeeds on a file that holds a table of packages
    keeps the two tables and their counters as they are: only the metadata
    is written. *)
Theorem open_keeps_packages file pkgs db file' :
  dds_cat_pkgs file = Some pkgs ->
  open json_parse json_dump file = (Ok db, file') ->
  file' = content db
  /\ dds_cat_pkgs file' = Some pkgs
  /\ dds_cat_pkg_deps file' = dds_cat_pkg_deps file
  /\ seq_pkgs file' = seq_pkgs file
  /\ seq_deps file' = seq_deps file.
Proof.
  intros Hpkgs. open_steps.
  destruct (dds_cat_meta file) as [[| meta_json rest] |] eqn:Hmeta; fields;
    rewrite ?Hmeta; fields; [discriminate | |].
  - destruct (json_parse meta_json) as [meta |]; [| discriminate].
    destruct (is_object meta); cbn [negb]; [| discriminate].
    destruct (is_number_integer (at_key meta "version")); cbn [negb]; [| discriminate].
    destruct (get_int (at_key meta "version")) as [version | e0];
      [| destruct e0; discriminate].
    destruct (version >? current_database_version); [discriminate |].
    destruct (version <? 1); fields.
    + rewrite Hpkgs. discriminate.
    + rewrite Hmeta. intros [= <- <-]. cbn. auto.
  - destruct (json_parse initial_meta) as [meta |]; [| discriminate].
    destruct (is_object meta); cbn [negb]; [| discriminate].
    destruct (is_number_integer (at_key meta "version")); cbn [negb]; [| discriminate].
    destruct (get_int (at_key meta "version")) as [version | e0];
      [| destruct e0; discriminate].
    destruct (version >? current_database_version); [discriminate |].
    destruct (version <? 1); fields.
    + rewrite Hpkgs. discriminate.
    + intros [= <- <-]. cbn. auto.
Qed.

End OpenMore.
End OpenFacts.

(** ** The listings of the catalog *)

Module ListingFacts.
Import Json Catalog CatalogListing CatalogFacts StoreFacts GetFacts.

Section Listing.
Context `{SemverRoundTrip}.
Variable table_scan : list pkg_row -> list pkg_row.
Hypothesis table_scan_permutation : forall rows, Permutation (table_scan rows) rows.

Local Abbreviation listing := (CatalogListing.listing table_scan).

Lemma to_pkg_ids_spec pairs ids :
  to_pkg_ids pairs = Ok ids <-> Forall2 listed_as pairs ids.
Proof.
  revert ids. induction pairs as [| p pairs IH]; intros ids; cbn [to_pkg_ids].
  - split; [intros [= <-]; constructor | inversion 1; reflexivity].
  - unfold listed_as at 1. unfold_result.
    destruct (pair_to_pkg_id p) as [id | e] eqn:Hp.
    + destruct (to_pkg_ids pairs) as [ids0 | e] eqn:Hrest.
      * split.
        -- intros [= <-]. constructor; [exact Hp | now apply IH].
        -- inversion 1 as [| ? id' ? ids' Hid Hrest']; subst.
           unfold listed_as in Hid. rewrite Hp in Hid. injection Hid as <-.
           apply IH in Hrest'. now injection Hrest' as <-.
      * split; [discriminate |].
        inversion 1 as [| ? id' ? ids' Hid Hrest']; subst.
        apply IH in Hrest'. discriminate.
    + split; [discriminate |].
      inversion 1 as [| ? id' ? ids' Hid Hrest']; subst.
      unfold listed_as in Hid. rewrite Hp in Hid. discriminate.
Qed.

Lemma listed_as_name p id : listed_as p id -> name id = fst p.
Proof.
  unfold listed_as, pair_to_pkg_id. destruct p as [n v]. unfold_result.
  destruct (version_parse v); [| discriminate]. now intros [= <-].
Qed.

Lemma Forall2_listed_permutation l l' ids :
  Forall2 listed_as l ids -> Permutation l l' ->
  exists ids', Forall2 listed_as l' ids' /\ Permutation ids ids'.
Proof.
  intros Hall Hperm.
  destruct (Permutation_Forall2 Hperm Hall) as (ids' & Hp & Hall').
  exists ids'. auto.
Qed.

Lemma filter_permutation {A} (f : A -> bool) (l l' : list A) :
  Permutation l l' -> Permutation (List.filter f l) (List.filter f l').
Proof.
  induction 1 as [| x l l' _ IH | x y l | l l' l'' _ IH1 _ IH2]; cbn [List.filter].
  - constructor.
  - destruct (f x); [now constructor | exact IH].
  - destruct (f x), (f y); try reflexivity. apply perm_swap.
  - now transitivity (List.filter f l').
Qed.

Lemma Forall2_listed_filter (w : string * string -> bool) (w' : package_id -> bool) l ids :
  (forall p id, listed_as p id -> w p = w' id) ->
  Forall2 listed_as l ids ->
  Forall2 listed_as (List.filter w l) (List.filter w' ids).
Proof.
  intros Hw. induction 1 as [| p id l ids Hp _ IH]; cbn [List.filter]; [constructor |].
  rewrite <- (Hw p id Hp). destruct (w p); [now constructor | exact IH].
Qed.

Lemma filter_true {A} (l : list A) : List.filter (fun _ => true) l = l.
Proof. induction l as [| x l IH]; cbn; [reflexivity | now rewrite IH]. Qed.

(** What a listing returns, up to the order of the scan: the ids of the
    rows that its [WHERE] selects, each listed as its row reads. *)
Lemma listing_rows where_ db ids :
  listing where_ db = Ok ids ->
  exists rows ids0,
    dds_cat_pkgs (content db) = Some rows
    /\ Forall2 listed_as (List.map name_version (List.filter where_ rows)) ids0
    /\ Permutation ids0 ids.
Proof.
  unfold CatalogListing.listing, select_name_version. unfold_result.
  destruct (dds_cat_pkgs (content db)) as [rows |]; [| discriminate].
  fold name_version. rewrite to_pkg_ids_spec. intros Hall. exists rows.
  destruct (Forall2_listed_permutation _ (List.map name_version (List.filter where_ rows))
              _ Hall) as (ids0 & Hall0 & Hp).
  { apply Permutation_map, table_scan_permutation. }
  exists ids0. repeat split; [exact Hall0 | now symmetry].
Qed.

Lemma listing_of_rows where_ db rows ids0 :
  dds_cat_pkgs (content db) = Some rows ->
  Forall2 listed_as (List.map name_version (List.filter where_ rows)) ids0 ->
  exists ids, listing where_ db = Ok ids /\ Permutation ids0 ids.
Proof.
  intros Hrows Hall0. unfold CatalogListing.listing, select_name_version. unfold_result.
  rewrite Hrows. fold name_version.
  destruct (Forall2_listed_permutation
              _ (List.map name_version (table_scan (List.filter where_ rows))) _ Hall0)
    as (ids & Hall & Hp).
  { apply Permutation_map. symmetry. apply table_scan_permutation. }
  exists ids. split; [| exact Hp]. now apply to_pkg_ids_spec.
Qed.

Lemma all_listing db : all table_scan db = listing (fun _ => true) db.
Proof. reflexivity. Qed.

Lemma by_name_listing db sv :
  by_name table_scan db sv = listing (fun r => String.eqb (row_name r) sv) db.
Proof. reflexivity. Qed.

Lemma filter_map_name_version (w : string * string -> bool) rows :
  List.filter w (List.map name_version rows)
  = List.map name_version (List.filter (fun r => w (name_version r)) rows).
Proof.
  induction rows as [| r rows IH]; cbn; [reflexivity |].
  destruct (w (name_version r)); cbn; now rewrite IH.
Qed.

(** X6.  Whenever [all] returns, [by_name] returns too, and what it lists
    are the ids of [all] that bear the name asked for, as often as [all]
    lists them; the order of either list is that of the scan. *)
Theorem by_name_lists_all_of_that_name db sv ids :
  all table_scan db = Ok ids ->
  exists ids',
    by_name table_scan db sv = Ok ids'
    /\ Permutation ids' (List.filter (fun id => String.eqb (name id) sv) ids).
Proof.
  rewrite all_listing, by_name_listing. intros Hall.
  apply listing_rows in Hall. destruct Hall as (rows & ids0 & Hrows & Hall0 & Hp).
  rewrite filter_true in Hall0.
  pose proof (Forall2_listed_filter (fun p => String.eqb (fst p) sv)
                (fun id => String.eqb (name id) sv) _ _
                ltac:(intros p id Hl; cbn beta; now rewrite (listed_as_name _ _ Hl)) Hall0) as Hsel.
  rewrite filter_map_name_version in Hsel. cbn [name_version fst] in Hsel.
  destruct (listing_of_rows _ db rows _ Hrows Hsel) as (ids' & Hby & Hp').
  exists ids'. split; [exact Hby |].
  symmetry. etransitivity; [| exact Hp']. apply filter_permutation. now symmetry.
Qed.

Lemma Forall2_listed_In l ids q :
  Forall2 listed_as l ids ->
  In q ids <-> exists p, In p l /\ listed_as p q.
Proof.
  induction 1 as [| p id l ids Hp _ IH]; cbn [In].
  - split; [contradiction | intros (? & [] & _)].
  - rewrite IH. split.
    + intros [<- | (p' & Hin & Hl)]; [exists p; auto | exists p'; auto].
    + intros (p' & [<- | Hin] & Hl).
      * left. unfold listed_as in *. congruence.
      * right. exists p'. auto.
Qed.

Lemma Forall2_listed_exists_of l ids p :
  Forall2 listed_as l ids -> In p l -> exists id, listed_as p id.
Proof.
  induction 1 as [| p' id l ids Hp _ IH]; cbn [In]; [contradiction |].
  intros [<- | Hin]; [now exists id | now apply IH].
Qed.

Lemma Forall2_listed_exists l :
  (forall p, In p l -> exists id, listed_as p id) ->
  exists ids, Forall2 listed_as l ids.
Proof.
  induction l as [| p l IH]; intros Hall; [exists []; constructor |].
  destruct (Hall p (or_introl eq_refl)) as (id & Hid).
  destruct IH as (ids & Hids); [intros p' Hin; apply Hall; now right |].
  exists (id :: ids). now constructor.
Qed.

(** What [all] lists, as a set. *)
Lemma all_In db ids q :
  all table_scan db = Ok ids ->
  In q ids <-> exists rows r, dds_cat_pkgs (content db) = Some rows
                              /\ In r rows /\ listed_as (name_version r) q.
Proof.
  rewrite all_listing. intros Hall. apply listing_rows in Hall.
  destruct Hall as (rows & ids0 & Hrows & Hall0 & Hp). rewrite filter_true in Hall0.
  rewrite <- (Permutation_in' (eq_refl q) Hp), (Forall2_listed_In _ _ q Hall0). split.
  - intros (p & Hin & Hl). apply List.in_map_iff in Hin. destruct Hin as (r & <- & Hin).
    exists rows, r. auto.
  - intros (rows' & r & Hrows' & Hin & Hl). rewrite Hrows in Hrows'. injection Hrows' as <-.
    exists (name_version r). split; [now apply List.in_map | exact Hl].
Qed.

(** X8.  A package that [get] finds is one that [all] lists. *)
Theorem get_finds_listed_packages db q info ids :
  get db q = Ok (Some info) ->
  all table_scan db = Ok ids ->
  In q ids.
Proof.
  intros Hget Hall. apply (all_In _ _ q Hall).
  unfold get, select_pkg in Hget. unfold_result.
  destruct (dds_cat_pkgs (content db)) as [rows |]; [| discriminate].
  destruct (head (List.filter _ rows)) as [row |] eqn:Hhead; [| discriminate].
  exists rows, row. split; [reflexivity |].
  assert (Hin : In row rows).
  { destruct (List.filter _ rows) as [| r0 l] eqn:Hf; [discriminate |].
    injection Hhead as ->.
    assert (Hin : In row (List.filter
                            (same_key (name q) (version_to_string (pid_version q))) rows))
      by (rewrite Hf; now left).
    now apply List.filter_In in Hin. }
  split; [exact Hin |].
  destruct (String.eqb_spec (name q) (row_name row)) as [Hn |]; [| discriminate].
  destruct (version_parse (row_version row)) as [v |] eqn:Hv; [| discriminate].
  destruct (bool_decide_reflect (pid_version q = v)) as [Hvv |]; [| discriminate].
  unfold listed_as, name_version, pair_to_pkg_id. unfold_result. rewrite Hv.
  destruct q; cbn in *; congruence.
Qed.

(** X7.  After a [store] that succeeded, [all] lists the id that was
    stored and the ids that it listed before, and no other. *)
Theorem store_then_all pkg db db' ids :
  all table_scan db = Ok ids ->
  store pkg db = (Ok tt, db') ->
  exists ids',
    all table_scan db' = Ok ids'
    /\ forall q, In q ids' <-> q = ident pkg \/ In q ids.
Proof.
  intros Hall Hstore.
  apply store_ok in Hstore. destruct Hstore as (_ & _ & db0 & db1 & Hc0 & Hbody & Hc1).
  apply store_body_ok in Hbody.
  destruct Hbody as (git & pkgs & row & new & _ & Hpkgs & Hrow & _ & Hnewpkgs & _).
  cbn zeta in *. rewrite Hc0 in *. rewrite <- Hc1 in Hnewpkgs.
  assert (Hrn : row_name row = name (ident pkg)) by (subst row; reflexivity).
  assert (Hrv : row_version row = version_to_string (pid_version (ident pkg)))
    by (subst row; reflexivity).
  assert (Hlisted : listed_as (name_version row) (ident pkg)).
  { unfold listed_as, name_version, pair_to_pkg_id. unfold_result.
    rewrite Hrn, Hrv, version_parse_to_string. now destruct (ident pkg). }
  pose proof Hall as Hall'. rewrite all_listing in Hall'. apply listing_rows in Hall'.
  destruct Hall' as (rows & ids0 & Hrows & Hall0 & Hp).
  rewrite Hpkgs in Hrows. injection Hrows as <-. rewrite filter_true in Hall0.
  set (kept := List.filter (fun r => negb (same_key (row_name row) (row_version row) r))
                           pkgs) in *.
  destruct (Forall2_listed_exists (List.map name_version (kept ++ [row])%list))
    as (ids1 & Hall1).
  { intros p Hin. apply List.in_map_iff in Hin. destruct Hin as (r & <- & Hin).
    apply List.in_app_iff in Hin. destruct Hin as [Hin | [<- | []]].
    - apply List.filter_In in Hin as [Hin _].
      destruct (Forall2_listed_exists_of _ _ (name_version r) Hall0) as (id & Hid);
        [now apply List.in_map |]. now exists id.
    - now exists (ident pkg). }
  destruct (listing_of_rows (fun _ => true) db' _ ids1 Hnewpkgs) as (ids' & Hall'' & Hp').
  { now rewrite filter_true. }
  exists ids'. split; [exact Hall'' |].
  intros q. rewrite (all_In _ _ q Hall), (all_In _ _ q Hall''). split.
  - intros (rows' & r & Hrows' & Hin & Hl). rewrite Hnewpkgs in Hrows'.
    injection Hrows' as <-. apply List.in_app_iff in Hin. destruct Hin as [Hin | [<- | []]].
    + right. apply List.filter_In in Hin as [Hin _]. exists pkgs, r. auto.
    + left. unfold listed_as in *. congruence.
  - intros [-> | (rows' & r & Hrows' & Hin & Hl)].
    + eexists _, row. split; [exact Hnewpkgs |]. split; [| exact Hlisted].
      apply List.in_app_iff. right. now left.
    + rewrite Hpkgs in Hrows'. injection Hrows' as <-.
      destruct (same_key (row_name row) (row_version row) r) eqn:Hkey.
      * eexists _, row. split; [exact Hnewpkgs |]. split; [apply List.in_app_iff; right; now left |].
        unfold same_key in Hkey. apply andb_prop in Hkey as [Hn Hv]. eqb_subst.
        unfold listed_as, name_version in *. rewrite <- Hn, <- Hv. 
        assert (q = ident pkg) as -> by congruence. exact Hl.
      * eexists _, r. split; [exact Hnewpkgs |]. split; [| exact Hl].
        apply List.in_app_iff. left. apply List.filter_In. split; [exact Hin |].
        now rewrite Hkey.
Qed.

Variable json_parse : string -> option json.
Variable json_dump : json -> string.

Lemma table_scan_nil : table_scan [] = [].
Proof. apply Permutation_nil. symmetry. apply table_scan_permutation. Qed.

(** X5.  The catalog that [open] creates where there was no database holds
    no package: [get] finds none, whatever the id, and [all] and [by_name]
    list none. *)
Theorem new_catalog_is_empty members :
  json_parse initial_meta = Some (object members) ->
  lookup_key "version" members = Some (number_unsigned 0) ->
  exists db,
    open json_parse json_dump empty_file = (Ok db, content db)
    /\ (forall q, get db q = Ok None)
    /\ all table_scan db = Ok []
    /\ (forall sv, by_name table_scan db sv = Ok []).
Proof.
  intros Hparse Hkey.
  unfold open, ensure_migrated, transaction_guard, database_open.
  unfold_M. unfold pragma_foreign_keys_on, create_meta_if_not_exists, select_meta, or_throw.
  cbn [journal content foreign_keys last_insert_rowid empty_file dds_cat_meta set_content].
  rewrite Hparse. cbn [is_object negb at_key items]. rewrite Hkey.
  cbn [default from_option id is_number_integer negb get_int].
  change (to_int 0) with 0. unfold current_database_version.
  cbn [Z.gtb Z.ltb Z.compare].
  unfold migrate_repodb_1, update_meta.
  cbn [journal content foreign_keys last_insert_rowid set_content
       dds_cat_meta dds_cat_pkgs dds_cat_pkg_deps seq_pkgs seq_deps].
  unfold empty_file, set_content. cbn -[initial_meta].
  match goal with |- exists db, (Ok ?X, _) = _ /\ _ => exists X end.
  split; [reflexivity |]. split; [reflexivity |].
  unfold all, by_name, select_name_version.
  cbn [content dds_cat_pkgs List.filter]. rewrite table_scan_nil. split; reflexivity.
Qed.

End Listing.
End ListingFacts.

(** ** [store] as a transaction, and the dependencies read back *)

Module StoreMoreFacts.
Import Json Catalog CatalogListing CatalogFacts StoreFacts OrderFacts GetFacts ImportFacts.

Section StoreMore.
Context `{Semver}.

(** X2.  Outside of a transaction, [store] is all or nothing: either it
    succeeds and the package has its row, or it throws and the content of
    the database is what it was.  No transaction is left open. *)
Theorem store_is_atomic pkg db r db' :
  in_transaction db = false ->
  store pkg db = (r, db') ->
  in_transaction db' = false
  /\ ((r = Ok tt
       /\ has_package (content db') (name (ident pkg))
                      (version_to_string (pid_version (ident pkg))))
      \/ (exists e, r = Throw e /\ content db' = content db)).
Proof.
  unfold in_transaction. intros Hj Hstore.
  destruct (journal db) eqn:Hjournal; [discriminate |].
  rewrite (store_journal _ _ _ _ Hstore), Hjournal. split; [reflexivity |].
  destruct r as [[] | e].
  - left. split; [reflexivity |]. eapply store_has. exact Hstore.
  - right. exists e. split; [reflexivity |].
    apply store_throw in Hstore. now apply Hstore.
Qed.

Lemma deps_of_rows_read_as rows ds :
  deps_of_rows rows = Ok ds -> Forall2 read_as rows ds.
Proof.
  revert ds. induction rows as [| r rows IH]; intros ds; cbn [deps_of_rows].
  - intros [= <-]. constructor.
  - unfold_result.
    destruct (version_parse (low r)); [| discriminate].
    destruct (version_parse (high r)); [| discriminate].
    destruct (deps_of_rows rows) as [ds0 |]; [| discriminate].
    intros [= <-]. constructor; [| now apply IH]. split; reflexivity.
Qed.

Lemma sorted_read_as rows ds :
  Forall2 read_as rows ds ->
  Sorted (by_key row_dep_name) rows -> Sorted (by_key dep_name) ds.
Proof.
  induction 1 as [| r d rows ds [Hrd _] Hrest IH]; intros Hsorted; [constructor |].
  inversion Hsorted as [| ? ? Hs Hhd]; subst. constructor; [now apply IH |].
  destruct Hrest as [| r' d' rows' ds' [Hrd' _] _]; [constructor |].
  inversion Hhd; subst. constructor. unfold by_key in *. now rewrite Hrd, Hrd'.
Qed.

(** X9.  What [dependencies_of] returns is ordered by dependency name, in
    the byte order of the names, and every dependency in it has exactly
    one version interval. *)
Theorem dependencies_of_sorted db pkg ds :
  dependencies_of db pkg = Ok ds ->
  Sorted (by_key dep_name) ds
  /\ Forall (fun d => num_intervals d = 1%nat) ds.
Proof.
  unfold dependencies_of, select_deps. unfold_result.
  destruct (dds_cat_pkgs (content db)) as [pkgs |]; [| discriminate].
  destruct (dds_cat_pkg_deps (content db)) as [deps |]; [| discriminate].
  intros Hrows. apply deps_of_rows_read_as in Hrows. split.
  - eapply sorted_read_as; [exact Hrows | apply order_by_sorted].
  - clear -Hrows. induction Hrows as [| r d rows ds [_ Hone] _ IH]; constructor; assumption.
Qed.

(** X10.  For an id that [get] does not find, [dependencies_of] returns the
    empty list: it does not tell an unknown package from one without
    dependencies. *)
Theorem dependencies_of_unknown db pkg :
  get db pkg = Ok None ->
  dds_cat_pkg_deps (content db) <> None ->
  dependencies_of db pkg = Ok [].
Proof.
  unfold get, select_pkg, dependencies_of, select_deps. unfold_result.
  destruct (dds_cat_pkgs (content db)) as [pkgs |]; [| discriminate].
  destruct (List.filter _ pkgs) as [| row rest] eqn:Hsel.
  - intros _ Hdeps. destruct (dds_cat_pkg_deps (content db)) as [deps |]; [| contradiction].
    rewrite (filter_nothing _ deps); [reflexivity |].
    apply List.Forall_forall. reflexivity.
  - cbn [head]. intros Hget. exfalso.
    destruct (String.eqb (name pkg) (row_name row)); [| discriminate].
    destruct (version_parse (row_version row)) as [v |]; [| discriminate].
    destruct (bool_decide (pid_version pkg = v)); [| discriminate].
    destruct (git_url row); [| discriminate].
    destruct (git_ref row); [| discriminate].
    cbn in Hget.
    destruct (dds_cat_pkg_deps (content db)); [| discriminate].
    destruct (deps_of_rows _); [| discriminate].
    destruct (lm_name row); [destruct (lm_namespace row) |]; discriminate.
Qed.

(** X12.  [store] deletes no row of dependencies: it adds one row for each
    dependency of the package, after the rows that were there.  The rows of
    a package that it replaces stay in the table, referring to a package
    row that is gone. *)
Theorem store_keeps_dependency_rows pkg db db' old :
  store pkg db = (Ok tt, db') ->
  dds_cat_pkg_deps (content db) = Some old ->
  exists new,
    dds_cat_pkg_deps (content db') = Some (old ++ new)%list
    /\ length new = length (deps pkg).
Proof.
  intros Hstore Hold.
  apply store_ok in Hstore. destruct Hstore as (_ & _ & db0 & db1 & Hc0 & Hbody & Hc1).
  apply store_body_ok in Hbody.
  destruct Hbody as (git & pkgs & row & new & _ & _ & _ & _ & _ & _ & _ & Hnew & Hdeps).
  cbn zeta in *. rewrite Hc0 in Hdeps. exists new. rewrite Hc1. split; [now apply Hdeps |].
  clear -Hnew. induction Hnew; cbn; congruence.
Qed.

End StoreMore.
End StoreMoreFacts.

(** ** What an import leaves alone, and what it lists *)

Module ImportMoreFacts.
Import Json Catalog CatalogListing CatalogFacts StoreFacts GetFacts ImportFacts.
Import FrameFacts ListingFacts.

Section ImportMore.
Context `{SemverRoundTrip}.
Variable json_parse : string -> option json.
Variable split_usage_string : string -> result usage.
Variable table_scan : list pkg_row -> list pkg_row.
Hypothesis table_scan_permutation : forall rows, Permutation (table_scan rows) rows.

(** An import that succeeded ran its loop over the members of [packages]
    and kept what the loop wrote. *)
Lemma import_json_str_ok content_ db db' :
  import_json_str json_parse split_usage_string content_ db = (Ok tt, db') ->
  exists root ms db0 db1,
    json_parse content_ = Some root
    /\ at_key root "packages" = object ms
    /\ content db0 = content db
    /\ import_packages split_usage_string ms db0 = (Ok tt, db1)
    /\ content db' = content db1.
Proof.
  unfold import_json_str. unfold_M. unfold or_throw.
  destruct (json_parse content_) as [root |]; [| discriminate].
  destruct (check_json (is_object root) _); [| discriminate].
  destruct (check_json (is_number_integer _) _); [| discriminate].
  destruct (check_json (le_int _ _) _); [| discriminate].
  destruct (check_json (is_object (at_key root "packages")) _) eqn:Hpk; [| discriminate].
  unfold check_json in Hpk.
  destruct (at_key root "packages") as [| | | | | | | ms] eqn:Hms; try discriminate.
  cbn [items]. unfold transaction_guard. destruct (journal db) as [j |] eqn:Hj.
  - intros Himport. exists root, ms, db, db'. auto.
  - destruct (import_packages _ _ _) as [[[] | e] db1] eqn:Himport; intros [= <-].
    exists root, ms, (mk_database (content db) (Some (content db)) (foreign_keys db)
                                   (last_insert_rowid db)), db1.
    repeat split; first [reflexivity | exact Hms | exact Himport].
Qed.

Lemma described_packages_members root ms :
  at_key root "packages" = object ms ->
  described_packages root = described_packages (object [("packages", object ms)]).
Proof.
  intros Hms. unfold described_packages. rewrite Hms. reflexivity.
Qed.

Lemma described_packages_In ms n version_ :
  In (n, version_) (described_packages (object [("packages", object ms)]))
  <-> exists versions_map j, In (n, versions_map) ms /\ In (version_, j) (items versions_map).
Proof.
  unfold described_packages. cbn [at_key lookup_key items default from_option id].
  rewrite String.eqb_refl. cbn [from_option id]. rewrite List.in_flat_map. split.
  - intros ([n' vm] & Hin & Hv). apply List.in_map_iff in Hv.
    destruct Hv as ([v' j] & [= <- <-] & Hj). exists vm, j. auto.
  - intros (vm & j & Hin & Hj). exists (n, vm). split; [exact Hin |].
    apply List.in_map_iff. exists (version_, j). auto.
Qed.

Lemma import_versions_frame pkg_name ms db db' q :
  import_versions split_usage_string pkg_name ms db = (Ok tt, db') ->
  (forall version_ j v, In (version_, j) ms -> version_parse version_ = Some v ->
                        mk_package_id pkg_name v <> q) ->
  get db' q = get db q /\ dependencies_of db' q = dependencies_of db q.
Proof.
  revert db. induction ms as [| [version_ j] ms IH]; intros db; cbn [import_versions].
  - unfold_M. intros [= <-]. auto.
  - unfold_M. intros Hrun Hother.
    destruct (import_info split_usage_string pkg_name version_ j) as [info | e] eqn:Hinfo;
      [| discriminate].
    destruct (store info db) as [[[] | e] db1] eqn:Hstore; [| discriminate].
    destruct (import_info_ident split_usage_string _ _ _ _ Hinfo) as (v & Hv & Hident).
    destruct (store_frame info db db1 q Hstore) as [Hget Hdeps].
    { apply other_id_other_key. rewrite Hident. intros ->.
      now apply (Hother version_ j v (or_introl eq_refl) Hv). }
    destruct (IH db1 Hrun) as [Hget' Hdeps'].
    { intros version' j' v' Hin. apply (Hother version' j' v'). now right. }
    split; congruence.
Qed.

Lemma import_packages_frame ms db db' q :
  import_packages split_usage_string ms db = (Ok tt, db') ->
  (forall n version_ v,
     In (n, version_) (described_packages (object [("packages", object ms)])) ->
     version_parse version_ = Some v -> mk_package_id n v <> q) ->
  get db' q = get db q /\ dependencies_of db' q = dependencies_of db q.
Proof.
  revert db. induction ms as [| [pkg_name versions_map] ms IH]; intros db;
    cbn [import_packages].
  - unfold_M. intros [= <-]. auto.
  - unfold_M. intros Hrun Hother.
    destruct (check_json _ _); [| discriminate].
    destruct (import_versions _ _ _ db) as [[[] | e] db1] eqn:Hversions; [| discriminate].
    destruct (import_versions_frame _ _ _ _ q Hversions) as [Hget Hdeps].
    { intros version_ j v Hin. apply (Hother pkg_name version_ v).
      apply described_packages_In.
      exists versions_map, j. split; [now left | exact Hin]. }
    destruct (IH db1 Hrun) as [Hget' Hdeps'].
    { intros n version_ v Hin. apply (Hother n version_ v).
      apply described_packages_In in Hin. destruct Hin as (vm & j & Hin & Hj).
      apply described_packages_In. exists vm, j. split; [now right | exact Hj]. }
    split; congruence.
Qed.

(** X11.  An import that succeeded changes what the catalog holds for the
    ids that the document describes only: for every other id, [get] and
    [dependencies_of] return what they returned before. *)
Theorem import_keeps_other_packages content_ root db db' q :
  import_json_str json_parse split_usage_string content_ db = (Ok tt, db') ->
  json_parse content_ = Some root ->
  (forall n version_ v, In (n, version_) (described_packages root) ->
                        version_parse version_ = Some v -> mk_package_id n v <> q) ->
  get db' q = get db q /\ dependencies_of db' q = dependencies_of db q.
Proof.
  intros Himport Hroot Hother.
  apply import_json_str_ok in Himport.
  destruct Himport as (root' & ms & db0 & db1 & Hroot' & Hms & Hc0 & Hrun & Hc1).
  rewrite Hroot in Hroot'. injection Hroot' as <-.
  rewrite (get_content db' db1), (get_content db db0),
          (dependencies_of_content db' db1), (dependencies_of_content db db0) by congruence.
  apply (import_packages_frame ms); [exact Hrun |].
  intros n version_ v Hin. apply (Hother n version_ v).
  now rewrite (described_packages_members _ _ Hms).
Qed.

(** X13.  After an import that succeeded, [all] lists every package that
    the document describes. *)
Theorem import_then_all content_ root db db' ids :
  import_json_str json_parse split_usage_string content_ db = (Ok tt, db') ->
  json_parse content_ = Some root ->
  all table_scan db' = Ok ids ->
  forall n version_, In (n, version_) (described_packages root) ->
    exists v, version_parse version_ = Some v /\ In (mk_package_id n v) ids.
Proof.
  intros Himport Hroot Hall n version_ Hin.
  apply import_json_str_ok in Himport.
  destruct Himport as (root' & ms & db0 & db1 & Hroot' & Hms & Hc0 & Hrun & Hc1).
  rewrite Hroot in Hroot'. injection Hroot' as <-.
  rewrite (described_packages_members _ _ Hms) in Hin.
  apply import_packages_stored in Hrun. destruct Hrun as [Hstored _].
  destruct (Hstored n version_ Hin) as (v & Hv & rows & r & Hrows & Hr & Hkey).
  exists v. split; [exact Hv |].
  apply (all_In table_scan table_scan_permutation _ _ _ Hall).
  exists rows, r. rewrite Hc1. split; [exact Hrows |]. split; [exact Hr |].
  apply same_key_eq in Hkey. destruct Hkey as [Hn Hver].
  unfold listed_as, name_version, pair_to_pkg_id. unfold_result.
  now rewrite Hn, Hver, version_parse_to_string.
Qed.

Lemma import_info_remote pkg_name version_ pkg_info info :
  import_info split_usage_string pkg_name version_ pkg_info = Ok info ->
  has_git_remote pkg_info.
Proof.
  unfold import_info, has_git_remote. unfold_result.
  destruct (version_parse version_); [| discriminate].
  destruct (check_json (is_object pkg_info) _); [| discriminate].
  match goal with
  | |- context [if negb (is_null (at_key pkg_info "depends")) then ?a else ?b] =>
      destruct (if negb (is_null (at_key pkg_info "depends")) then a else b);
      [| discriminate]
  end.
  destruct (is_null (at_key pkg_info "git")); cbn [negb]; [discriminate |].
  destruct (check_json (is_object (at_key pkg_info "git")) _); [| discriminate].
  destruct (at_key (at_key pkg_info "git") "url") as [| | | | | url | |]; try discriminate.
  destruct (at_key (at_key pkg_info "git") "ref") as [| | | | | ref | |]; try discriminate.
  intros _. exists url, ref. auto.
Qed.

Lemma import_versions_remote pkg_name ms db db' :
  import_versions split_usage_string pkg_name ms db = (Ok tt, db') ->
  forall version_ j, In (version_, j) ms -> has_git_remote j.
Proof.
  revert db. induction ms as [| [version_ j] ms IH]; intros db; cbn [import_versions].
  - intros _ ? ? [].
  - unfold_M. intros Hrun version' j' Hin.
    destruct (import_info split_usage_string pkg_name version_ j) as [info | e] eqn:Hinfo;
      [| discriminate].
    destruct (store info db) as [[[] | e] db1]; [| discriminate].
    destruct Hin as [[= <- <-] | Hin].
    + eapply import_info_remote. exact Hinfo.
    + eapply IH; eauto.
Qed.

(** X28.  An import succeeds only on a document in which every package
    version names a git remote, with a URL and a ref that are strings: no
    package is ever imported without its remote. *)
Theorem import_requires_remote content_ root db db' :
  import_json_str json_parse split_usage_string content_ db = (Ok tt, db') ->
  json_parse content_ = Some root ->
  forall pkg_name versions_map version_ pkg_info,
    In (pkg_name, versions_map) (items (at_key root "packages")) ->
    In (version_, pkg_info) (items versions_map) ->
    has_git_remote pkg_info.
Proof.
  intros Himport Hroot.
  apply import_json_str_ok in Himport.
  destruct Himport as (root' & ms & db0 & db1 & Hroot' & Hms & _ & Hrun & _).
  rewrite Hroot in Hroot'. injection Hroot' as <-. rewrite Hms. cbn [items].
  clear -Hrun. revert db0 Hrun.
  induction ms as [| [n vm] ms IH]; intros db0; cbn [import_packages].
  - intros _ ? ? ? ? [].
  - unfold_M. intros Hrun pkg_name versions_map version_ pkg_info Hin Hv.
    destruct (check_json _ _); [| discriminate].
    destruct (import_versions _ _ _ db0) as [[[] | e] db2] eqn:Hversions; [| discriminate].
    destruct Hin as [[= <- <-] | Hin].
    + eapply import_versions_remote; eauto.
    + eapply IH; eauto.
Qed.

End ImportMore.
End ImportMoreFacts.

(** ** Package manifests: what a loaded manifest is known to satisfy *)

Module ManifestMoreFacts.
Import Fs Manifest ManifestKeys ManifestFacts PackageIdFacts.

(** *** Paths *)

Lemma rindex_app_right (c : ascii) (d r : string) :
  Text.rindex c r = None -> Text.rindex c (d ++ r) = Text.rindex c d.
Proof.
  intros Hr. induction d as [| a d IH].
  - change ("" ++ r) with r. now rewrite Hr.
  - change (String a d ++ r) with (String a (d ++ r)). cbn [Text.rindex]. now rewrite IH.
Qed.

Lemma substring_suffix (d c : string) :
  String.substring (String.length d) (String.length (d ++ c) - String.length d) (d ++ c) = c.
Proof.
  induction d as [| a d IH].
  - change ("" ++ c) with c. cbn [String.length]. rewrite Nat.sub_0_r. apply substring_all.
  - change (String a d ++ c) with (String a (d ++ c)). cbn [String.length String.substring].
    exact IH.
Qed.

(** The file name of [dir / c] is [c], for a name [c] without a slash. *)
Lemma filename_join (d c : string) :
  Text.rindex "/"%char c = None -> filename (d // c) = c.
Proof.
  intros Hc. unfold join. destruct (String.eqb_spec d "") as [-> | Hd].
  - unfold filename. now rewrite Hc.
  - unfold ends_with_slash. destruct (Text.rindex "/"%char d) as [i |] eqn:Hi.
    + destruct (Nat.eqb_spec (S i) (String.length d)) as [Hlast | Hlast].
      * unfold filename. rewrite rindex_app_right, Hi by exact Hc.
        rewrite Hlast. apply substring_suffix.
      * unfold filename.
        change (d ++ "/" ++ c) with (d ++ String "/"%char c).
        rewrite (rindex_app _ _ _ Hc). apply (substring_after d c "/"%char).
    + unfold filename.
      change (d ++ "/" ++ c) with (d ++ String "/"%char c).
      rewrite (rindex_app _ _ _ Hc). apply (substring_after d c "/"%char).
Qed.

Lemma extension_join (d c : string) :
  Text.rindex "/"%char c = None -> extension (d // c) = extension c.
Proof.
  intros Hc. unfold extension. rewrite (filename_join d c Hc).
  unfold filename. now rewrite Hc.
Qed.

Section ManifestMore.
Context `{Semver}.
Variable parse_data : string -> option Json5.data.
Variable lm_parse_string : string -> list (string * string).
Variable lm_read : list (string * string) -> result dds_fields.
Variable parse_depends_string : string -> result dependency.
Variable did_you_mean : string -> list string -> option string.
Variable status_error : filesystem -> string -> option string.

Local Abbreviation load_dds :=
  (load_from_dds_file lm_parse_string lm_read parse_depends_string did_you_mean).
Local Abbreviation load_json := (load_from_file parse_data did_you_mean).
Local Abbreviation load_dir :=
  (load_from_directory parse_data lm_parse_string lm_read parse_depends_string did_you_mean
                       status_error).

(** *** Which file is read, and by which parser *)

(** X15.  [find_in_directory] returns the first of [package.json5],
    [package.jsonc], [package.json] and [package.dds], in this order, that
    is a regular file of the directory. *)
Theorem find_in_directory_precedence fs dirpath i c :
  manifest_names !! i = Some c ->
  Throwing.is_regular_file status_error fs (dirpath // c) = Ok true ->
  (forall j c', (j < i)%nat -> manifest_names !! j = Some c' ->
                Throwing.is_regular_file status_error fs (dirpath // c') = Ok false) ->
  find_in_directory status_error fs dirpath = Ok (Some (dirpath // c)).
Proof.
  intros Hc Hreg Hbefore. unfold find_in_directory, cands. cbn [first_regular_file].
  unfold_result.
  destruct i as [| [| [| [| i]]]]; cbn in Hc; [| | | | discriminate];
    injection Hc as <-.
  - now rewrite Hreg.
  - rewrite (Hbefore 0%nat "package.json5") by (reflexivity || lia). now rewrite Hreg.
  - rewrite (Hbefore 0%nat "package.json5") by (reflexivity || lia).
    rewrite (Hbefore 1%nat "package.jsonc") by (reflexivity || lia). now rewrite Hreg.
  - rewrite (Hbefore 0%nat "package.json5") by (reflexivity || lia).
    rewrite (Hbefore 1%nat "package.jsonc") by (reflexivity || lia).
    rewrite (Hbefore 2%nat "package.json") by (reflexivity || lia). now rewrite Hreg.
Qed.

(** X18.  [load_from_directory] reads [package.dds] with the parser of the
    legacy format and each of the three other files with the JSON parser,
    whatever the directory is called. *)
Theorem load_from_directory_dispatch fs dirpath :
  (find_in_directory status_error fs dirpath = Ok (Some (dirpath // "package.dds")) ->
   load_from_directory parse_data lm_parse_string lm_read parse_depends_string did_you_mean
                       status_error fs dirpath
   = Some <$> load_from_dds_file lm_parse_string lm_read parse_depends_string did_you_mean fs (dirpath // "package.dds"))
  /\ (forall c, In c cands ->
        find_in_directory status_error fs dirpath = Ok (Some (dirpath // c)) ->
        load_from_directory parse_data lm_parse_string lm_read parse_depends_string did_you_mean
                            status_error fs dirpath
        = Some <$> load_from_file parse_data did_you_mean fs (dirpath // c)).
Proof.
  split.
  - intros Hfound. unfold load_from_directory. rewrite Hfound. cbn [mbind result_bind].
    now rewrite extension_join by reflexivity.
  - intros c Hc Hfound. unfold load_from_directory. rewrite Hfound. cbn [mbind result_bind].
    cbn in Hc. destruct Hc as [<- | [<- | [<- | []]]];
      now rewrite extension_join by reflexivity.
Qed.

(** *** The two loaders *)

Lemma read_test_driver_keeps_dependencies s m m' :
  read_test_driver did_you_mean s m = Ok m' -> dependencies m' = dependencies m.
Proof.
  unfold read_test_driver. unfold_result.
  destruct (String.eqb s "Catch-Main"); [now intros [= <-] |].
  destruct (String.eqb s "Catch"); [now intros [= <-] |].
  destruct (did_you_mean _ _); discriminate.
Qed.

Lemma load_from_dds_file_named fs fpath m :
  load_dds fs fpath = Ok m -> name (pkg_id m) <> "" /\ namespace_ m <> "".
Proof.
  unfold load_from_dds_file. unfold_result.
  destruct (slurp_file fs fpath) as [content |]; [| discriminate].
  destruct (lm_read (lm_parse_string content)) as [f |]; [| discriminate].
  simpl.
  destruct (String.eqb_spec (f_name f) "") as [| Hname]; [discriminate |].
  destruct (String.eqb (f_version f) ""); [discriminate |].
  set (ret0 := set_namespace (f_namespace f) (set_name (f_name f) empty_manifest)).
  destruct (match f_test_driver f with
            | Some s => read_test_driver did_you_mean s ret0
            | None => Ok ret0
            end) as [ret1 |] eqn:Hdrv; [| discriminate].
  assert (Hkeep : namespace_ ret1 = f_namespace f /\ pkg_id ret1 = pkg_id ret0).
  { destruct (f_test_driver f).
    - apply read_test_driver_keeps in Hdrv. exact Hdrv.
    - injection Hdrv as <-. auto. }
  destruct Hkeep as [Hns Hid].
  destruct (version_parse (f_version f)); [| discriminate].
  destruct (parse_all_depends parse_depends_string (f_depends f)); [| discriminate].
  intros [= <-].
  destruct (String.eqb_spec (namespace_ ret1) "") as [Hempty | Hfull];
    cbn [set_dependencies set_version set_namespace pkg_id name namespace_];
    rewrite ?Hid; cbn [ret0 pkg_id name]; auto.
Qed.

Lemma load_from_file_named fs fpath m :
  load_json fs fpath = Ok m -> name (pkg_id m) <> "" /\ namespace_ m <> "".
Proof.
  unfold load_from_file. unfold_result.
  destruct (slurp_file fs fpath) as [content |]; [| discriminate].
  destruct (parse_data content) as [[| | | | | entries] |]; try discriminate.
  destruct (decompose_mapping did_you_mean entries empty_manifest) as [[res ret] |];
    [| discriminate].
  destruct res; try discriminate.
  - destruct (String.eqb_spec (name (pkg_id ret)) ""); [discriminate |].
    destruct (String.eqb_spec (namespace_ ret) ""); [discriminate |].
    intros [= <-]. auto.
  - destruct (String.eqb_spec (name (pkg_id ret)) ""); [discriminate |].
    destruct (String.eqb_spec (namespace_ ret) ""); [discriminate |].
    intros [= <-]. auto.
Qed.

(** X14.  A manifest that [load_from_directory] returns has a name and a
    namespace, neither of them empty, whichever of the two formats it was
    read from. *)
Theorem loaded_manifest_is_named fs dirpath m :
  load_from_directory parse_data lm_parse_string lm_read parse_depends_string did_you_mean
                      status_error fs dirpath
  = Ok (Some m) ->
  name (pkg_id m) <> "" /\ namespace_ m <> "".
Proof.
  unfold load_from_directory.
  destruct (find_in_directory status_error fs dirpath) as [[found |] | e];
    cbn [mbind result_bind]; [| discriminate | discriminate].
  destruct (String.eqb (extension found) ".dds").
  - destruct (load_dds fs found) as [m' |] eqn:Hload; [| discriminate].
    intros [= <-]. now apply load_from_dds_file_named in Hload.
  - destruct (load_json fs found) as [m' |] eqn:Hload; [| discriminate].
    intros [= <-]. now apply load_from_file_named in Hload.
Qed.

Lemma manifest_entry_unknown key value ret :
  ~ In key known_keys ->
  manifest_entry did_you_mean key value ret
  = Ok (dc_reject ("Unknown key `" ++ key ++ "` in package manifest"), ret).
Proof.
  intros Hkey. unfold manifest_entry.
  repeat match goal with
    | |- context [String.eqb key ?k] =>
        destruct (String.eqb_spec key k) as [-> |];
        [exfalso; apply Hkey; cbn; tauto |]
    end.
  reflexivity.
Qed.

Lemma decompose_mapping_unknown entries ret r ret' :
  (exists key value, In (key, value) entries /\ ~ In key known_keys) ->
  decompose_mapping did_you_mean entries ret = Ok (r, ret') ->
  exists msg, r = dc_reject msg.
Proof.
  revert ret. induction entries as [| [k v] entries IH]; intros ret (key & value & Hin & Hkey).
  - destruct Hin.
  - cbn [decompose_mapping]. unfold_result.
    destruct (manifest_entry did_you_mean k v ret) as [[r0 ret0] |] eqn:Hentry;
      [| discriminate].
    destruct r0 as [| msg |].
    + destruct Hin as [[= -> ->] | Hin].
      * rewrite (manifest_entry_unknown _ _ _ Hkey) in Hentry. discriminate.
      * apply IH. eauto.
    + intros [= <- <-]. eauto.
    + destruct Hin as [[= -> ->] | Hin].
      * rewrite (manifest_entry_unknown _ _ _ Hkey) in Hentry. discriminate.
      * apply IH. eauto.
Qed.

(** X16.  A JSON manifest with a key other than [$schema], [name],
    [namespace], [version], [depends] and [test_driver] is never loaded:
    [load_from_file] throws. *)
Theorem unknown_key_is_refused fs fpath content entries key value :
  slurp_file fs fpath = Ok content ->
  parse_data content = Some (Json5.mapping entries) ->
  In (key, value) entries ->
  ~ In key known_keys ->
  exists e, load_from_file parse_data did_you_mean fs fpath = Throw e.
Proof.
  intros Hslurp Hparse Hin Hkey. unfold load_from_file. rewrite Hslurp. unfold_result.
  rewrite Hparse.
  destruct (decompose_mapping did_you_mean entries empty_manifest) as [[res ret] | e]
    eqn:Hdec; [| eauto].
  destruct (decompose_mapping_unknown _ _ _ _ (ex_intro _ key (ex_intro _ value
              (conj Hin Hkey))) Hdec) as (msg & ->).
  eauto.
Qed.

Lemma depends_entries_single entries ret ret' :
  depends_entries entries ret = Ok ret' -> single_intervals ret -> single_intervals ret'.
Proof.
  revert ret. induction entries as [| [k v] entries IH]; intros ret; cbn [depends_entries].
  - now intros [= <-].
  - unfold_result. destruct (depends_entry k v ret) as [ret0 |] eqn:Hentry; [| discriminate].
    intros Hrest Hsingle. apply (IH ret0 Hrest).
    unfold depends_entry in Hentry. destruct v; try discriminate.
    destruct (range_parse_restricted s) as [[low high] |]; [| discriminate].
    injection Hentry as <-. unfold single_intervals in *. cbn [push_dependency dependencies].
    apply Forall_app. split; [exact Hsingle | repeat constructor].
Qed.

Lemma manifest_entry_single key value ret r ret' :
  manifest_entry did_you_mean key value ret = Ok (r, ret') ->
  single_intervals ret -> single_intervals ret'.
Proof.
  unfold manifest_entry. unfold_result.
  repeat match goal with
    | |- context [String.eqb key ?k] => destruct (String.eqb key k)
    end;
    try (destruct value; now intros [= <- <-]); try now intros [= <- <-].
  - destruct value; try now intros [= <- <-].
    destruct (version_parse s); [| discriminate]. now intros [= <- <-].
  - destruct value; try now intros [= <- <-].
    destruct (depends_entries entries ret) as [ret0 |] eqn:Hdeps; [| discriminate].
    intros [= <- <-]. now apply (depends_entries_single _ _ _ Hdeps).
  - destruct value; try now intros [= <- <-].
    destruct (read_test_driver did_you_mean s ret) as [ret0 |] eqn:Hdrv; [| discriminate].
    intros [= <- <-]. unfold single_intervals.
    now rewrite (read_test_driver_keeps_dependencies _ _ _ Hdrv).
Qed.

Lemma decompose_mapping_single entries ret r ret' :
  decompose_mapping did_you_mean entries ret = Ok (r, ret') ->
  single_intervals ret -> single_intervals ret'.
Proof.
  revert ret. induction entries as [| [k v] entries IH]; intros ret; cbn [decompose_mapping].
  - now intros [= <- <-].
  - unfold_result.
    destruct (manifest_entry did_you_mean k v ret) as [[r0 ret0] |] eqn:Hentry;
      [| discriminate].
    intros Hrest Hsingle.
    pose proof (manifest_entry_single _ _ _ _ _ Hentry Hsingle) as Hsingle0.
    destruct r0; [now apply (IH ret0) | now injection Hrest as <- <- | now apply (IH ret0)].
Qed.

(** X17.  Every dependency of a manifest that [load_from_file] returns has
    exactly one version interval, which is what [catalog::store] asserts of
    the dependencies it is given. *)
Theorem json_manifest_dependencies_are_intervals fs fpath m :
  load_from_file parse_data did_you_mean fs fpath = Ok m -> single_intervals m.
Proof.
  unfold load_from_file. unfold_result.
  destruct (slurp_file fs fpath) as [content |]; [| discriminate].
  destruct (parse_data content) as [[| | | | | entries] |]; try discriminate.
  destruct (decompose_mapping did_you_mean entries empty_manifest) as [[res ret] |]
    eqn:Hdec; [| discriminate].
  assert (Hsingle : single_intervals ret)
    by (apply (decompose_mapping_single _ _ _ _ Hdec); constructor).
  destruct res; try discriminate;
    destruct (String.eqb (name (pkg_id ret)) ""); try discriminate;
    destruct (String.eqb (namespace_ ret) ""); try discriminate;
    now intros [= <-].
Qed.

End ManifestMore.
End ManifestMoreFacts.

(** ** The compile executor: what a compilation returns *)

Module CompileMoreFacts.
Import Fs CompileExec CompileRuns PoolFacts.

Section DoCompile.
Variable quote_command : list string -> string.
Variable run_proc : list string -> filesystem -> proc_result * filesystem.
Variable create_directories : string -> filesystem -> filesystem.
Variable parent_path : string -> string.
Variable parse_mkfile_deps_file : filesystem -> string -> result file_deps_info.
Variable parse_msvc_output_for_deps : string -> string -> msvc_deps_info.
Variable deps_mode : file_deps_mode.

Local Abbreviation compile :=
  (do_compile quote_command run_proc create_directories parent_path
              parse_mkfile_deps_file parse_msvc_output_for_deps deps_mode).

(** X19.  [do_compile] returns only when the compiler process succeeded: if
    the process failed it throws, whatever the toolchain's way of reporting
    dependencies, and so no record of a failed compilation is ever
    returned. *)
Theorem do_compile_returns_on_success_only cf fs :
  (forall r,
     fst (do_compile quote_command run_proc create_directories parent_path
                  parse_mkfile_deps_file parse_msvc_output_for_deps deps_mode cf fs) = Ok r ->
     okay (compiler_run run_proc create_directories parent_path cf fs) = true)
  /\ (okay (compiler_run run_proc create_directories parent_path cf fs) = false ->
      exists e,
        fst (do_compile quote_command run_proc create_directories parent_path
                     parse_mkfile_deps_file parse_msvc_output_for_deps deps_mode cf fs) = Throw e).
Proof.
  unfold do_compile, CompileRuns.compiler_run.
  destruct (run_proc _ _) as [proc_res fs1]. cbn [fst].
  match goal with
  | |- context [mbind _ ?m] => destruct m as [ret |]
  end; unfold_result; destruct (okay proc_res); cbn [negb]; split;
    (discriminate || eauto).
Qed.

Lemma do_compile_some cf fs d :
  fst (compile cf fs) = Ok (Some d) ->
  output d = object_file_path cf
  /\ command d = quote_command (cmd (cmd_info cf)).
Proof.
  unfold do_compile.
  destruct (run_proc _ _) as [proc_res fs1]. cbn [fst].
  destruct deps_mode; unfold_result.
  - destruct (okay proc_res); discriminate.
  - destruct (gnu_depfile_path (cmd_info cf)) as [df_path |]; [| discriminate].
    destruct (is_regular_file fs1 df_path); cbn [negb];
      [| destruct (okay proc_res); discriminate].
    destruct (parse_mkfile_deps_file fs1 df_path) as [dep_info |]; [| discriminate].
    destruct (String.eqb_spec (output dep_info) (object_file_path cf)) as [Hout |];
      [| discriminate].
    destruct (okay proc_res); [| discriminate]. cbn [negb].
    intros [= <-]. auto.
  - destruct (is_empty (inputs (deps_info _))); cbn [negb];
      destruct (okay proc_res); try discriminate.
    cbn [negb]. intros [= <-]. auto.
Qed.

(** X20.  A record that [do_compile] returns is the record of the object
    file it was asked to make, and the command it holds is the quoted
    command of that compilation. *)
Theorem do_compile_record cf fs d :
  fst (do_compile quote_command run_proc create_directories parent_path
                  parse_mkfile_deps_file parse_msvc_output_for_deps deps_mode cf fs) = Ok (Some d) ->
  output d = object_file_path cf
  /\ command d = quote_command (cmd (cmd_info cf)).
Proof. apply do_compile_some. Qed.

(** X30.  A compilation that was recorded is not repeated: once the
    record that [do_compile] returned is in the database, [should_compile]
    is false for that file for as long as its object file exists and none
    of the recorded inputs is newer than it (the quoted command not being
    empty, which would read as no command). *)
Theorem recorded_compile_is_not_repeated cf fs d fs' (db : database) :
  fst (do_compile quote_command run_proc create_directories parent_path
                  parse_mkfile_deps_file parse_msvc_output_for_deps deps_mode cf fs)
  = Ok (Some d) ->
  quote_command (cmd (cmd_info cf)) <> "" ->
  exists_ fs' (object_file_path cf) = true ->
  (forall input, In input (inputs d) ->
                 newer_than fs' (object_file_path cf) input = false) ->
  should_compile quote_command fs' (update_deps_info db d) cf = false.
Proof.
  intros Hrecord Hcommand Hexists Hinputs.
  destruct (do_compile_some _ _ _ Hrecord) as [Hout Hcmd].
  unfold should_compile, get_rebuild_info, update_deps_info.
  rewrite Hexists, Hout, lookup_insert_eq. cbn [negb previous_command newer_inputs].
  rewrite Hcmd. destruct (String.eqb_spec (quote_command (cmd (cmd_info cf))) "");
    [contradiction |].
  replace (List.filter _ (inputs d)) with (@nil string).
  - cbn [is_empty negb]. now rewrite String.eqb_refl.
  - symmetry. clear -Hinputs. induction (inputs d) as [| x l IH]; [reflexivity |].
    cbn [List.filter]. rewrite (Hinputs x (or_introl eq_refl)).
    apply IH. intros y Hy. apply Hinputs. now right.
Qed.

End DoCompile.
End CompileMoreFacts.

(** ** The worker pool: what the jobs have done when it returns *)

Module PoolMoreFacts.
Import Fs CompileExec CompileRuns PoolFacts.

Section PoolMore.
Context {Item Shared : Type}.
Variable fn : Item -> Shared -> result unit * Shared.

Lemma steps_invariant (I : pool Item Shared -> Prop) :
  (forall p q, step fn p q -> I p -> I q) ->
  forall p q, steps fn p q -> I p -> I q.
Proof.
  intros Hstep p q Hsteps. induction Hsteps as [| p q r Hpq _ IH]; [auto |].
  intros Hp. apply IH. eapply Hstep; eauto.
Qed.

Lemma step_workers_length p q : step fn p q -> length (workers q) = length (workers p).
Proof. intros Hstep. destruct Hstep; cbn; now rewrite length_insert. Qed.

Lemma running_items_cons (w : worker Item) (ws : list (worker Item)) :
  running_items (w :: ws) = (option_list (job_of w) ++ running_items ws)%list.
Proof. unfold running_items. cbn. now destruct (job_of w). Qed.

Lemma running_items_insert (ws : list (worker Item)) i w w' :
  ws !! i = Some w ->
  Permutation (option_list (job_of w') ++ running_items ws)
              (option_list (job_of w) ++ running_items (<[i := w']> ws)).
Proof.
  revert i. induction ws as [| a ws IH]; intros [| i] Hi; try discriminate.
  - injection Hi as ->. change (<[0%nat := w']> (w :: ws)) with (w' :: ws).
    rewrite !running_items_cons, !app_assoc. apply Permutation_app_tail.
    apply Permutation_app_comm.
  - change (<[S i := w']> (a :: ws)) with (a :: <[i := w']> ws).
    rewrite !running_items_cons. specialize (IH i Hi).
    rewrite !app_assoc.
    rewrite (Permutation_app_comm (option_list (job_of w')) (option_list (job_of a))).
    rewrite (Permutation_app_comm (option_list (job_of w)) (option_list (job_of a))).
    rewrite <- !app_assoc. now apply Permutation_app_head.
Qed.

Lemma running_items_returned (ws : list (worker Item)) :
  Forall (fun w => w = returned) ws -> running_items ws = [].
Proof.
  induction 1 as [| w ws -> _ IH]; [reflexivity |].
  now rewrite running_items_cons, IH.
Qed.

Lemma returned_workers_insert (ws : list (worker Item)) i w w' :
  ws !! i = Some w ->
  (returned_workers (<[i := w']> ws) + Nat.b2n (has_returned w)
   = returned_workers ws + Nat.b2n (has_returned w'))%nat.
Proof.
  unfold returned_workers.
  revert i. induction ws as [| a ws IH]; intros [| i] Hi; try discriminate.
  - injection Hi as ->. change (<[0%nat := w']> (w :: ws)) with (w' :: ws).
    cbn [List.filter]. destruct (has_returned w), (has_returned w'); cbn; lia.
  - change (<[S i := w']> (a :: ws)) with (a :: <[i := w']> ws).
    cbn [List.filter]. specialize (IH i Hi). destruct (has_returned a); cbn; lia.
Qed.

Lemma returned_workers_le (ws : list (worker Item)) : (returned_workers ws <= length ws)%nat.
Proof.
  unfold returned_workers. induction ws as [| a ws IH]; cbn; [lia |].
  destruct (has_returned a); cbn; lia.
Qed.

Lemma step_exceptions_bound p q :
  step fn p q ->
  (length (exceptions p) <= returned_workers (workers p))%nat ->
  (length (exceptions q) <= returned_workers (workers q))%nat.
Proof.
  intros Hstep Hle.
  destruct Hstep as [p i Hw _ | p i Hw _ _ | p i item rest Hw _ _
                    | p i item sh1 Hw _ | p i item e sh1 Hw _];
    cbn [exceptions workers set_worker].
  - pose proof (returned_workers_insert _ _ _ returned Hw). cbn in *. lia.
  - pose proof (returned_workers_insert _ _ _ returned Hw). cbn in *. lia.
  - pose proof (returned_workers_insert _ _ _ (running item) Hw). cbn in *. lia.
  - pose proof (returned_workers_insert _ _ _ at_loop_head Hw). cbn in *. lia.
  - pose proof (returned_workers_insert _ _ _ returned Hw). rewrite length_app.
    cbn in *. lia.
Qed.

(** X29.  A worker leaves the loop when its job throws, so the pool records
    at most one exception for each worker: the error log that
    [parallel_run] writes holds no more messages than the pool has
    workers, however many jobs there are. *)
Theorem parallel_run_logs_one_error_per_worker
    rng hardware_concurrency n_jobs sh r log sh' :
  parallel_run fn rng hardware_concurrency n_jobs sh r log sh' ->
  (length log <= Z.to_nat (effective_jobs hardware_concurrency n_jobs))%nat.
Proof.
  intros (p & Hsteps & _ & Hjoin & _).
  assert (Hlen : length (workers p)
                 = Z.to_nat (effective_jobs hardware_concurrency n_jobs)).
  { apply (steps_invariant
             (fun q => length (workers q)
                       = Z.to_nat (effective_jobs hardware_concurrency n_jobs))
             (fun a b Hab Ha => eq_trans (step_workers_length a b Hab) Ha) _ _ Hsteps).
    cbn. apply length_replicate. }
  assert (Hbound : (length (exceptions p) <= returned_workers (workers p))%nat).
  { apply (steps_invariant _ step_exceptions_bound _ _ Hsteps). cbn. lia. }
  unfold after_join in Hjoin. injection Hjoin as _ <-. rewrite length_map.
  pose proof (returned_workers_le (workers p)). lia.
Qed.

Section NoFailure.
Variable rng : list Item.
Variable sh : Shared.
Hypothesis fn_returns : forall item s, fst (fn item s) = Ok tt.

Local Abbreviation run := (CompileRuns.run fn).
Local Abbreviation all_accounted := (CompileRuns.all_accounted fn rng sh).

Lemma lookup_insert_returned (ws : list (worker Item)) i j w :
  w <> returned ->
  <[i := w]> ws !! j = Some returned -> ws !! j = Some returned.
Proof.
  intros Hw Hj. destruct (decide (i = j)) as [-> | Hne].
  - destruct (decide (j < length ws)%nat) as [Hlt | Hge].
    + rewrite list_lookup_insert_eq in Hj by exact Hlt. congruence.
    + rewrite list_insert_ge in Hj by lia. exact Hj.
  - rewrite list_lookup_insert_ne in Hj by exact Hne. exact Hj.
Qed.

Lemma step_all_accounted p q : step fn p q -> all_accounted p -> all_accounted q.
Proof.
  intros Hstep (Hex & (done & Hperm & Hsh) & Hleft).
  destruct Hstep as [p i Hw Hne | p i Hw _ Hrem | p i item rest Hw _ Hrem
                    | p i item sh1 Hw Hfn | p i item e sh1 Hw Hfn];
    cbn [exceptions remaining workers shared set_worker].
  - contradiction.
  - repeat split; [exact Hex | | auto].
    exists done. split; [| exact Hsh].
    pose proof (running_items_insert _ _ _ returned Hw) as Hins. cbn in Hins.
    now rewrite <- Hins.
  - repeat split; [exact Hex | |].
    + exists done. split; [| exact Hsh].
      pose proof (running_items_insert _ _ _ (running item) Hw) as Hins. cbn in Hins.
      rewrite <- Hperm, Hrem, <- Hins. cbn.
      apply Permutation_app_head. apply Permutation_middle.
    + intros (j & Hj). apply lookup_insert_returned in Hj; [| discriminate].
      rewrite Hleft in Hrem by eauto. discriminate.
  - repeat split; [exact Hex | |].
    + exists (done ++ [item])%list. split.
      * pose proof (running_items_insert _ _ _ at_loop_head Hw) as Hins. cbn in Hins.
        rewrite <- Hperm, Hins, <- app_assoc. reflexivity.
      * rewrite fold_left_app. cbn. unfold CompileRuns.run at 1. rewrite <- Hsh, Hfn. reflexivity.
    + intros (j & Hj). apply lookup_insert_returned in Hj; [| discriminate]. eauto.
  - pose proof (fn_returns item (shared p)) as Hok. rewrite Hfn in Hok. discriminate.
Qed.

(** X23.  When no job throws and the pool has at least one worker,
    [parallel_run] returns [true], logs nothing, and has run every item of
    the range exactly once: what the jobs share is what running them one
    after another, in some order of the items, makes of it. *)
Theorem parallel_run_runs_every_item hardware_concurrency n_jobs r log sh' :
  0 < effective_jobs hardware_concurrency n_jobs ->
  parallel_run fn rng hardware_concurrency n_jobs sh r log sh' ->
  r = Ok true
  /\ log = []
  /\ exists order, Permutation order rng /\ sh' = fold_left run order sh.
Proof.
  intros Hjobs (p & Hsteps & Hall & Hjoin & Hshared).
  assert (Hinv : all_accounted p).
  { apply (steps_invariant all_accounted step_all_accounted _ _ Hsteps).
    repeat split; [| intros (i & Hi)].
    - exists []. cbn. split; [| reflexivity].
      unfold running_items.
      induction (Z.to_nat _) as [| n IH]; cbn; [reflexivity | exact IH].
    - cbn in Hi. apply lookup_replicate in Hi. destruct Hi as [[=] _]. }
  assert (Hlen : length (workers p)
                 = Z.to_nat (effective_jobs hardware_concurrency n_jobs)).
  { apply (steps_invariant
             (fun q => length (workers q)
                       = Z.to_nat (effective_jobs hardware_concurrency n_jobs))
             (fun a b Hab Ha => eq_trans (step_workers_length a b Hab) Ha) _ _ Hsteps).
    cbn. apply length_replicate. }
  destruct Hinv as (Hex & (done & Hperm & Hsh) & Hleft).
  unfold after_join in Hjoin. rewrite Hex in Hjoin. injection Hjoin as <- <-.
  repeat split. exists done. split; [| congruence].
  rewrite (running_items_returned _ Hall), Hleft in Hperm.
  - now rewrite !app_nil_r in Hperm.
  - destruct (workers p) as [| w ws] eqn:Hws; [cbn in Hlen; lia |].
    exists 0%nat. unfold all_returned in Hall. rewrite Hws in Hall.
    inversion Hall; subst. reflexivity.
Qed.

End NoFailure.

(** What every job keeps of the shared state, the pool keeps. *)
Lemma parallel_run_keeps (P : Shared -> Prop) rng hardware_concurrency n_jobs sh r log sh' :
  (forall item s, In item rng -> P s -> P (snd (fn item s))) ->
  parallel_run fn rng hardware_concurrency n_jobs sh r log sh' ->
  P sh -> P sh'.
Proof.
  intros Hkeep (p & Hsteps & _ & _ & <-) Hsh.
  set (I := fun q : pool Item Shared =>
              P (shared q)
              /\ (forall item, In item (remaining q) -> In item rng)
              /\ (forall i item, workers q !! i = Some (running item) -> In item rng)).
  assert (Hins : forall (ws : list (worker Item)) i w j item,
             (forall item', w = running item' -> In item' rng) ->
             (forall k item', ws !! k = Some (running item') -> In item' rng) ->
             <[i := w]> ws !! j = Some (running item) -> In item rng).
  { intros ws i w j item Hw Hws Hj. destruct (decide (i = j)) as [-> | Hne].
    - destruct (decide (j < length ws)%nat) as [Hlt | Hge].
      + rewrite list_lookup_insert_eq in Hj by exact Hlt. injection Hj as ->. now apply Hw.
      + rewrite list_insert_ge in Hj by lia. eauto.
    - rewrite list_lookup_insert_ne in Hj by exact Hne. eauto. }
  assert (Hinv : I p).
  { apply (steps_invariant I) with (p := start rng hardware_concurrency n_jobs sh);
      [| exact Hsteps |].
    - clear Hsteps Hsh. intros a b Hstep (HP & Hrem & Hrun).
      destruct Hstep as [a i Hw Hne | a i Hw _ Hr | a i item rest Hw _ Hr
                        | a i item sh1 Hw Hfn | a i item e sh1 Hw Hfn];
        unfold I; cbn [exceptions remaining workers shared set_worker].
      + repeat split; [exact HP | exact Hrem |].
        intros j it Hj. eapply Hins; [| exact Hrun | exact Hj]. discriminate.
      + repeat split; [exact HP | exact Hrem |].
        intros j it Hj. eapply Hins; [| exact Hrun | exact Hj]. discriminate.
      + repeat split; [exact HP | |].
        * intros it Hit. apply Hrem. rewrite Hr. now right.
        * intros j it Hj. eapply Hins; [| exact Hrun | exact Hj].
          intros it' [= <-]. apply Hrem. rewrite Hr. now left.
      + repeat split; [| exact Hrem |].
        * replace sh1 with (snd (fn item (shared a))) by now rewrite Hfn.
          apply Hkeep; [eapply Hrun; eauto | exact HP].
        * intros j it Hj. eapply Hins; [| exact Hrun | exact Hj]. discriminate.
      + repeat split; [| exact Hrem |].
        * replace sh1 with (snd (fn item (shared a))) by now rewrite Hfn.
          apply Hkeep; [eapply Hrun; eauto | exact HP].
        * intros j it Hj. eapply Hins; [| exact Hrun | exact Hj]. discriminate.
    - repeat split; [exact Hsh | auto |].
      intros i item Hi. cbn in Hi. apply lookup_replicate in Hi. destruct Hi as [[=] _]. }
  apply Hinv.
Qed.

End PoolMore.
End PoolMoreFacts.

(** ** [compile_all]: what a build writes to the database *)

Module CompileAllMoreFacts.
Import Fs CompileExec CompileRuns PoolFacts CompileMoreFacts PoolMoreFacts.

Section EmptyRange.
Context {Item Shared : Type}.
Variable fn : Item -> Shared -> result unit * Shared.

(** With no item to run, the workers leave the loop one by one and nothing
    else happens. *)
Lemma steps_nothing_to_run hardware_concurrency n_jobs sh p :
  steps fn (start [] hardware_concurrency n_jobs sh) p ->
  remaining p = [] /\ exceptions p = [] /\ shared p = sh
  /\ Forall (fun w => job_of w = None) (workers p).
Proof.
  intros Hsteps.
  eapply (steps_invariant fn
            (fun q => remaining q = [] /\ exceptions q = [] /\ shared q = sh
                      /\ Forall (fun w => job_of w = None) (workers q)));
    [| exact Hsteps |].
  - intros a b Hstep (Hrem & Hex & Hsh & Hidle).
    assert (Hnone : forall i item, workers a !! i = Some (running item) -> False).
    { intros i item Hi. rewrite Forall_forall in Hidle.
      apply list_elem_of_lookup_2 in Hi. apply Hidle in Hi. discriminate. }
    destruct Hstep as [a i Hw Hne | a i Hw _ Hr | a i item rest Hw _ Hr
                      | a i item sh1 Hw Hfn | a i item e sh1 Hw Hfn];
      cbn [exceptions remaining workers shared set_worker].
    + contradiction.
    + repeat split; try assumption. apply Forall_insert; [exact Hidle | reflexivity].
    + rewrite Hrem in Hr. discriminate.
    + destruct (Hnone _ _ Hw).
    + destruct (Hnone _ _ Hw).
  - cbn. repeat split. apply Forall_replicate. reflexivity.
Qed.

Lemma parallel_run_nothing hardware_concurrency n_jobs sh :
  parallel_run fn [] hardware_concurrency n_jobs sh (Ok true) [] sh
  /\ forall r log sh',
       parallel_run fn [] hardware_concurrency n_jobs sh r log sh' ->
       r = Ok true /\ log = [] /\ sh' = sh.
Proof.
  assert (Hall : forall r log sh',
             parallel_run fn [] hardware_concurrency n_jobs sh r log sh' ->
             r = Ok true /\ log = [] /\ sh' = sh).
  { intros r log sh' (p & Hsteps & _ & Hjoin & <-).
    destruct (steps_nothing_to_run _ _ _ _ Hsteps) as (_ & Hex & Hsh & _).
    unfold after_join in Hjoin. rewrite Hex in Hjoin. injection Hjoin as <- <-. auto. }
  split; [| exact Hall].
  destruct (completes fn (start [] hardware_concurrency n_jobs sh)) as (q & Hsteps & Hq).
  destruct (Hall (fst (after_join q)) (snd (after_join q)) (shared q)) as (Hr & Hlog & Hsh).
  { exists q. split; [exact Hsteps |]. split; [exact Hq |].
    split; [now destruct (after_join q) | reflexivity]. }
  exists q. split; [exact Hsteps |]. split; [exact Hq |]. split; [| exact Hsh].
  rewrite <- Hr, <- Hlog. now destruct (after_join q).
Qed.

End EmptyRange.

Section CompileAllMore.
Variable quote_command : list string -> string.
Variable run_proc : list string -> filesystem -> proc_result * filesystem.
Variable create_directories : string -> filesystem -> filesystem.
Variable parent_path : string -> string.
Variable parse_mkfile_deps_file : filesystem -> string -> result file_deps_info.
Variable parse_msvc_output_for_deps : string -> string -> msvc_deps_info.
Variable deps_mode : file_deps_mode.
Variable generate_compile_command : compile_file_plan -> compile_command_info.
Variable calc_object_file_path : compile_file_plan -> string.
Variable hardware_concurrency : Z.

Local Abbreviation job :=
  (compile_job quote_command run_proc create_directories parent_path
               parse_mkfile_deps_file parse_msvc_output_for_deps deps_mode).
Local Abbreviation run_all :=
  (compile_all quote_command run_proc create_directories parent_path
               parse_mkfile_deps_file parse_msvc_output_for_deps deps_mode
               generate_compile_command calc_object_file_path
               hardware_concurrency).
Local Abbreviation realize :=
  (realize_plan generate_compile_command calc_object_file_path).
Local Abbreviation stale := (should_compile quote_command).

Lemma filter_none {A} (f : A -> bool) (l : list A) :
  (forall x, In x l -> f x = false) -> List.filter f l = [].
Proof.
  induction l as [| x l IH]; intros Hall; cbn; [reflexivity |].
  rewrite (Hall x (or_introl eq_refl)). apply IH. intros y Hy. apply Hall. now right.
Qed.

(** X22.  When no file of the plan needs to be compiled, [compile_all]
    returns [true] and changes nothing: the compiler is not run, the file
    system and the database are what they were, and nothing is logged,
    whatever the number of jobs. *)
Theorem compile_all_up_to_date compiles njobs fs db :
  (forall p, In p compiles ->
             should_compile quote_command fs db (realize_plan generate_compile_command calc_object_file_path p) = false) ->
  compile_all quote_command run_proc create_directories parent_path
              parse_mkfile_deps_file parse_msvc_output_for_deps deps_mode
              generate_compile_command calc_object_file_path hardware_concurrency
              compiles njobs fs db (Ok true) [] fs db
  /\ forall r log fs' db',
       compile_all quote_command run_proc create_directories parent_path
                   parse_mkfile_deps_file parse_msvc_output_for_deps deps_mode
                   generate_compile_command calc_object_file_path hardware_concurrency
                   compiles njobs fs db r log fs' db' ->
       r = Ok true /\ log = [] /\ fs' = fs /\ db' = db.
Proof.
  intros Hfresh.
  assert (Hnone : List.filter (stale fs db) (List.map realize compiles) = []).
  { apply filter_none. intros x Hx. apply List.in_map_iff in Hx.
    destruct Hx as (p & <- & Hp). now apply Hfresh. }
  unfold compile_all. rewrite Hnone.
  destruct (parallel_run_nothing job hardware_concurrency njobs (fs, [])) as [Hrun Hall].
  split.
  - exists (Ok true), []. auto.
  - intros r log fs' db' (okay & all_new_deps & Hpool & -> & ->).
    destruct (Hall _ _ _ Hpool) as (-> & -> & [= -> ->]). auto.
Qed.

(** The records that the jobs of a build add are records of object files
    of that build. *)
Lemma compile_job_outputs rng item fs deps :
  In item rng ->
  Forall (fun d => exists it, In it rng /\ output d = object_file_path it) deps ->
  Forall (fun d => exists it, In it rng /\ output d = object_file_path it)
         (snd (snd (job item (fs, deps)))).
Proof.
  intros Hitem Hdeps. unfold compile_job.
  destruct (do_compile _ _ _ _ _ _ _ item fs) as [[[d |] | e] fs1] eqn:Hcompile; cbn;
    try exact Hdeps.
  apply Forall_app. split; [exact Hdeps |]. constructor; [| constructor].
  exists item. split; [exact Hitem |].
  eapply do_compile_some. rewrite Hcompile. reflexivity.
Qed.

Lemma update_deps_info_other (deps : list file_deps_info) (db : database) path :
  Forall (fun d => output d <> path) deps ->
  fold_left update_deps_info deps db !! path = db !! path.
Proof.
  revert db. induction deps as [| d deps IH]; intros db Hall; [reflexivity |].
  inversion Hall as [| ? ? Hd Hrest]; subst. cbn [fold_left]. rewrite IH by exact Hrest.
  unfold update_deps_info. now rewrite lookup_insert_ne.
Qed.

(** X21.  [compile_all] changes the records of the object files it compiled
    and of no other: the record of every other path is, after the build,
    what it was before. *)
Theorem compile_all_keeps_other_records compiles njobs fs db r log fs' db' path :
  compile_all quote_command run_proc create_directories parent_path
              parse_mkfile_deps_file parse_msvc_output_for_deps deps_mode
              generate_compile_command calc_object_file_path hardware_concurrency
              compiles njobs fs db r log fs' db' ->
  (forall p, In p compiles ->
             should_compile quote_command fs db (realize_plan generate_compile_command calc_object_file_path p) = true ->
             calc_object_file_path p <> path) ->
  db' !! path = db !! path.
Proof.
  intros (okay & all_new_deps & Hpool & -> & _) Hother.
  apply update_deps_info_other.
  set (rng := List.filter (stale fs db) (List.map realize compiles)) in *.
  pose proof (parallel_run_keeps job
                (fun s => Forall (fun d => exists it, In it rng
                                                      /\ output d = object_file_path it)
                                 (snd s))
                rng hardware_concurrency njobs (fs, []) okay log (fs', all_new_deps)) as Hkeep.
  cbn [snd] in Hkeep.
  assert (Hdeps : Forall (fun d => exists it, In it rng /\ output d = object_file_path it)
                         all_new_deps).
  { apply Hkeep; [| exact Hpool | constructor].
    intros item [fs0 deps0] Hitem Hd. now apply compile_job_outputs. }
  eapply List.Forall_impl; [| exact Hdeps].
  intros d (it & Hit & ->). subst rng. apply List.filter_In in Hit as [Hit Hstale].
  apply List.in_map_iff in Hit. destruct Hit as (p & <- & Hp).
  now apply Hother.
Qed.

End CompileAllMore.
End CompileAllMoreFacts.

(** ** The catalog properties on the example data *)

Module CatalogMoreExamples.
Import Json Catalog CatalogListing CatalogExamples ListingExamples OpenExamples.
Import NumericSemver NumericSemverFacts.
Import CatalogFacts StoreFacts GetFacts ImportFacts StoreTotalFacts.
Import FrameFacts OpenFacts ListingFacts StoreMoreFacts ImportMoreFacts.

Lemma rowid_order_permutation rows : Permutation (rowid_order rows) rows.
Proof. reflexivity. Qed.

Example listing_after_two_stores :
  all rowid_order catalog_ab = Ok [ident pkg_a; ident pkg_b]
  /\ by_name rowid_order catalog_ab "b" = Ok [ident pkg_b]
  /\ by_name rowid_order catalog_ab "c" = Ok [].
Proof. vm_compute. repeat split. Qed.

Lemma store_keeps_other_packages_witness :
  get catalog_ab (ident pkg_a) = get catalog_a (ident pkg_a)
  /\ dependencies_of catalog_ab (ident pkg_a) = dependencies_of catalog_a (ident pkg_a).
Proof.
  apply (store_keeps_other_packages pkg_b catalog_a catalog_ab (ident pkg_a));
    [vm_compute; reflexivity | discriminate].
Defined.

Lemma store_is_atomic_witness :
  in_transaction catalog_a = false
  /\ ((fst (store pkg_a fresh_catalog) = Ok tt
       /\ has_package (content catalog_a) "a" "1.0.0")
      \/ (exists e, fst (store pkg_a fresh_catalog) = Throw e
                    /\ content catalog_a = content fresh_catalog)).
Proof.
  apply (store_is_atomic pkg_a fresh_catalog (fst (store pkg_a fresh_catalog)) catalog_a);
    [reflexivity | vm_compute; reflexivity].
Defined.

(** The error of SQLite on a database that cannot be opened leaves [open]
    as it is: it is not turned into [corrupted_catalog_db]. *)
Example open_read_only :
  CatalogOpen.open example_json_parse example_json_dump canonical_as_given directory_of
                   directories_made read_only_connect_error "ro/catalog.db" next_release_file
  = (Throw (sqlite3_error "unable to open database file"), next_release_file).
Proof. vm_compute. reflexivity. Qed.

Example open_too_new_at_path :
  CatalogOpen.open example_json_parse example_json_dump canonical_as_given directory_of
                   directories_made read_only_connect_error "cache/catalog.db"
                   next_release_file
  = (Throw (external_error catalog_too_new ""), next_release_file).
Proof. vm_compute. reflexivity. Qed.

Lemma open_failure_keeps_file_witness :
  next_release_file = next_release_file
  /\ (("ro/catalog.db" <> ":memory:"
       /\ (canonical_as_given "ro/catalog.db"
           = Throw (sqlite3_error "unable to open database file")
           \/ exists dir,
                canonical_as_given "ro/catalog.db" = Ok dir
                /\ directories_made (directory_of dir)
                   = Throw (sqlite3_error "unable to open database file")))
      \/ (exists what,
            read_only_connect_error "ro/catalog.db" = Some what
            /\ sqlite3_error "unable to open database file" = sqlite3_error what)
      \/ sqlite3_error "unable to open database file" = json_parse_error
      \/ exists what,
           sqlite3_error "unable to open database file"
           = external_error corrupted_catalog_db what
           \/ sqlite3_error "unable to open database file"
              = external_error catalog_too_new what).
Proof.
  apply (open_failure_keeps_file example_json_parse example_json_dump canonical_as_given
           directory_of directories_made read_only_connect_error
           "ro/catalog.db" next_release_file).
  vm_compute. reflexivity.
Defined.

Lemma open_keeps_packages_witness :
  let file := content catalog_ab in
  file = content (database_open file)
  /\ dds_cat_pkgs file = Some (default [] (dds_cat_pkgs file))
  /\ dds_cat_pkg_deps file = dds_cat_pkg_deps file
  /\ seq_pkgs file = seq_pkgs file
  /\ seq_deps file = seq_deps file.
Proof.
  apply (open_keeps_packages example_json_parse example_json_dump
           (content catalog_ab) (default [] (dds_cat_pkgs (content catalog_ab)))
           (database_open (content catalog_ab)) (content catalog_ab));
    vm_compute; reflexivity.
Defined.

Example reopen_keeps_catalog :
  open example_json_parse example_json_dump (content catalog_ab)
  = (Ok (database_open (content catalog_ab)), content catalog_ab).
Proof. vm_compute. reflexivity. Qed.

Lemma new_catalog_is_empty_witness :
  exists db,
    open example_json_parse example_json_dump empty_file = (Ok db, content db)
    /\ (forall q, get db q = Ok None)
    /\ all rowid_order db = Ok []
    /\ (forall sv, by_name rowid_order db sv = Ok []).
Proof.
  apply (new_catalog_is_empty rowid_order rowid_order_permutation
           example_json_parse example_json_dump [("version", number_unsigned 0)]);
    reflexivity.
Defined.

Lemma by_name_lists_all_of_that_name_witness :
  exists ids',
    by_name rowid_order catalog_ab "b" = Ok ids'
    /\ Permutation ids'
         (List.filter (fun id => String.eqb (name id) "b") [ident pkg_a; ident pkg_b]).
Proof.
  apply (by_name_lists_all_of_that_name rowid_order rowid_order_permutation
           catalog_ab "b" [ident pkg_a; ident pkg_b]).
  vm_compute. reflexivity.
Defined.

Lemma get_finds_listed_packages_witness :
  In (ident pkg_b) [ident pkg_a; ident pkg_b].
Proof.
  apply (get_finds_listed_packages rowid_order rowid_order_permutation
           catalog_ab (ident pkg_b) pkg_b [ident pkg_a; ident pkg_b]);
    vm_compute; reflexivity.
Defined.

Lemma store_then_all_witness :
  exists ids',
    all rowid_order catalog_ab = Ok ids'
    /\ forall q, In q ids' <-> q = ident pkg_b \/ In q [ident pkg_a].
Proof.
  apply (store_then_all rowid_order rowid_order_permutation
           pkg_b catalog_a catalog_ab [ident pkg_a]);
    vm_compute; reflexivity.
Defined.

Lemma dependencies_of_sorted_witness :
  Sorted (by_key dep_name)
         [single_interval "fmt" (v 6 0 0) (v 7 0 0);
          single_interval "zlib" (v 1 2 0) (v 2 0 0)]
  /\ Forall (fun d => num_intervals d = 1%nat)
            [single_interval "fmt" (v 6 0 0) (v 7 0 0);
             single_interval "zlib" (v 1 2 0) (v 2 0 0)].
Proof.
  apply (dependencies_of_sorted catalog_ab (ident pkg_a)).
  vm_compute. reflexivity.
Defined.

Lemma dependencies_of_unknown_witness :
  dependencies_of catalog_ab (mk_package_id "c" (v 1 0 0)) = Ok [].
Proof.
  apply (dependencies_of_unknown catalog_ab (mk_package_id "c" (v 1 0 0)));
    [vm_compute; reflexivity | discriminate].
Defined.

Lemma import_keeps_other_packages_witness :
  let db' := snd (import_json_str example_json_parse example_split_usage doc_a_text
                                  (snd (store pkg_b fresh_catalog))) in
  get db' (ident pkg_b) = get (snd (store pkg_b fresh_catalog)) (ident pkg_b)
  /\ dependencies_of db' (ident pkg_b)
     = dependencies_of (snd (store pkg_b fresh_catalog)) (ident pkg_b).
Proof.
  apply (import_keeps_other_packages example_json_parse example_split_usage
           doc_a_text doc_a (snd (store pkg_b fresh_catalog)) _ (ident pkg_b)).
  - vm_compute. reflexivity.
  - vm_compute. reflexivity.
  - intros n version_ ver Hin Hparse. cbn in Hin.
    destruct Hin as [[= <- <-] | []]. vm_compute in Hparse.
    injection Hparse as <-. discriminate.
Defined.

Lemma import_then_all_witness :
  exists ver, version_parse "1.0.0" = Some ver
              /\ In (mk_package_id "a" ver) [ident pkg_a].
Proof.
  apply (import_then_all example_json_parse example_split_usage
           rowid_order rowid_order_permutation doc_a_text doc_a fresh_catalog
           (snd (import_json_str example_json_parse example_split_usage doc_a_text
                                 fresh_catalog))
           [ident pkg_a]);
    [vm_compute; reflexivity | vm_compute; reflexivity | vm_compute; reflexivity |].
  left. reflexivity.
Defined.

Lemma store_succeeds_witness : exists db', store pkg_a' catalog_ab = (Ok tt, db').
Proof.
  apply (store_succeeds pkg_a' catalog_ab).
  - exists (default [] (dds_cat_pkgs (content catalog_ab))),
           (default [] (dds_cat_pkg_deps (content catalog_ab))).
    vm_compute. repeat split; repeat constructor; discriminate.
  - reflexivity.
  - repeat constructor.
  - repeat constructor. intros [].
  - intros git u [= <-]. discriminate.
  - intros pkgs old [= <-] [= <-]. vm_compute. split; [reflexivity | discriminate].
Defined.

Lemma store_keeps_dependency_rows_witness :
  exists new,
    dds_cat_pkg_deps (content (snd (store pkg_a' catalog_a)))
    = Some (default [] (dds_cat_pkg_deps (content catalog_a)) ++ new)%list
    /\ length new = length (deps pkg_a').
Proof.
  apply (store_keeps_dependency_rows pkg_a' catalog_a (snd (store pkg_a' catalog_a))
           (default [] (dds_cat_pkg_deps (content catalog_a))));
    vm_compute; reflexivity.
Defined.

(** After [a@1.0.0] was stored a second time, with one dependency where it
    had two, the table holds the three rows. *)
Example replaced_package_leaves_rows :
  List.map row_dep_name
           (default [] (dds_cat_pkg_deps (content (snd (store pkg_a' catalog_a)))))
  = ["zlib"; "fmt"; "spdlog"].
Proof. vm_compute. reflexivity. Qed.

(** The description of [a@1.0.0] in the document of the examples. *)
Lemma import_requires_remote_witness :
  has_git_remote
    (object [("depends", object [("b", jstring "^1.2.0")]);
             ("git", object [("ref", jstring "r"); ("url", jstring "u")])]).
Proof.
  assert (Himport : import_json_str example_json_parse example_split_usage doc_a_text
                                    fresh_catalog
                    = (Ok tt, snd (import_json_str example_json_parse example_split_usage
                                                   doc_a_text fresh_catalog)))
    by (vm_compute; reflexivity).
  assert (Hroot : example_json_parse doc_a_text = Some doc_a) by (vm_compute; reflexivity).
  apply (import_requires_remote example_json_parse example_split_usage doc_a_text doc_a
           fresh_catalog _ Himport Hroot "a"
           (object [("1.0.0",
                     object [("depends", object [("b", jstring "^1.2.0")]);
                             ("git", object [("ref", jstring "r"); ("url", jstring "u")])])])
           "1.0.0");
    left; reflexivity.
Defined.

End CatalogMoreExamples.

(** ** The manifest and executor properties on the example data *)

Module ManifestMoreExampleFacts.
Import Fs Manifest NumericSemver NumericSemverFacts ManifestExamples ManifestMoreExamples.
Import ManifestKeys ManifestFacts ManifestMoreFacts.

Example load_modern_directory :
  load_from_directory modern_parse_data example_lm_parse example_lm_read no_depends
                      no_suggestion no_status_error modern_fs "full"
  = Ok (Some manifest_full).
Proof. vm_compute. reflexivity. Qed.

Lemma loaded_manifest_is_named_witness :
  name (pkg_id manifest_full) <> "" /\ namespace_ manifest_full <> "".
Proof.
  apply (loaded_manifest_is_named modern_parse_data example_lm_parse example_lm_read
           no_depends no_suggestion no_status_error modern_fs "full" manifest_full).
  vm_compute. reflexivity.
Defined.

Lemma find_in_directory_precedence_witness :
  find_in_directory no_status_error modern_fs "full" = Ok (Some ("full" // "package.json")).
Proof.
  apply (find_in_directory_precedence no_status_error modern_fs "full" 2 "package.json").
  - reflexivity.
  - vm_compute. reflexivity.
  - intros [| [| j]] c' Hj; [| | lia]; intros [= <-]; vm_compute; reflexivity.
Defined.

Lemma unknown_key_is_refused_witness :
  exists e, load_from_file modern_parse_data no_suggestion modern_fs "odd/package.jsonc"
            = Throw e.
Proof.
  apply (unknown_key_is_refused modern_parse_data no_suggestion modern_fs
           "odd/package.jsonc" odd_text odd_entries "license" (Json5.str "MIT")).
  - vm_compute. reflexivity.
  - vm_compute. reflexivity.
  - right. left. reflexivity.
  - unfold known_keys. cbn. intros H.
    repeat (destruct H as [H | H]; [discriminate |]). exact H.
Defined.

Example unknown_key_message :
  load_from_file modern_parse_data no_suggestion modern_fs "odd/package.jsonc"
  = Throw (user_error invalid_pkg_manifest "Unknown key `license` in package manifest").
Proof. vm_compute. reflexivity. Qed.

Lemma json_manifest_dependencies_are_intervals_witness : single_intervals manifest_full.
Proof.
  apply (json_manifest_dependencies_are_intervals modern_parse_data no_suggestion
           modern_fs "full/package.json" manifest_full).
  vm_compute. reflexivity.
Defined.

End ManifestMoreExampleFacts.

Module CompileMoreExampleFacts.
Import Fs CompileExec CompileExamples CompileMoreExamples.
Import CompileRuns PoolFacts CompileMoreFacts PoolMoreFacts CompileAllMoreFacts.

Lemma do_compile_record_witness :
  output record_a = object_file_path full_a
  /\ command record_a = example_quote (cmd (cmd_info full_a)).
Proof.
  apply (do_compile_record example_quote msvc_proc no_directories example_parent
           no_mkfile_deps example_msvc_parse deps_msvc full_a edited_fs record_a).
  vm_compute. reflexivity.
Defined.

(** One worker compiles [a.cpp]: it takes the job, completes it, finds no
    other and leaves the loop. *)
Lemma msvc_pool_run :
  parallel_run msvc_job [full_a] 4 1 (edited_fs, []) (Ok true) [] (edited_fs, [record_a]).
Proof.
  exists (mk_pool [] [] [returned] (edited_fs, [record_a])).
  split; [| split; [repeat constructor | split; reflexivity]].
  eapply steps_cons.
  { apply (step_take msvc_job _ 0%nat full_a []); reflexivity. }
  eapply steps_cons.
  { apply (step_job_returns msvc_job _ 0%nat full_a (edited_fs, [record_a]));
      [reflexivity | vm_compute; reflexivity]. }
  eapply steps_cons.
  { apply (step_break_at_stop msvc_job _ 0%nat); reflexivity. }
  apply steps_refl.
Qed.

Lemma msvc_job_returns item s : fst (msvc_job item s) = Ok tt.
Proof.
  destruct s as [fs deps]. unfold msvc_job, compile_job, do_compile, msvc_proc. cbn.
  reflexivity.
Qed.

Lemma parallel_run_runs_every_item_witness :
  Ok true = Ok true
  /\ @nil string = []
  /\ exists order,
       Permutation order [full_a]
       /\ (edited_fs, [record_a]) = fold_left (run msvc_job) order (edited_fs, []).
Proof.
  apply (parallel_run_runs_every_item msvc_job [full_a] (edited_fs, [])
           msvc_job_returns 4 1 (Ok true) [] (edited_fs, [record_a]));
    [reflexivity | exact msvc_pool_run].
Defined.

Lemma msvc_build_run :
  compile_all example_quote msvc_proc no_directories example_parent
              no_mkfile_deps example_msvc_parse deps_msvc
              example_command example_object 4 [plan_a] 1 edited_fs other_db
              (Ok true) [] edited_fs (<["_build/a.cpp.o" := record_a]> other_db).
Proof.
  exists (Ok true), [record_a]. split; [| split; reflexivity].
  replace (List.filter _ _) with [full_a] by (vm_compute; reflexivity).
  exact msvc_pool_run.
Qed.

Lemma compile_all_keeps_other_records_witness :
  (<["_build/a.cpp.o" := record_a]> other_db : database) !! "_build/z.cpp.o"
  = other_db !! "_build/z.cpp.o".
Proof.
  apply (compile_all_keeps_other_records
           example_quote msvc_proc no_directories example_parent
           no_mkfile_deps example_msvc_parse deps_msvc
           example_command example_object 4 [plan_a] 1 edited_fs other_db
           (Ok true) [] edited_fs (<["_build/a.cpp.o" := record_a]> other_db)
           "_build/z.cpp.o" msvc_build_run).
  intros p [<- | []] _. discriminate.
Defined.

Lemma compile_all_up_to_date_witness :
  let run := compile_all example_quote msvc_proc no_directories example_parent
                         no_mkfile_deps example_msvc_parse deps_msvc
                         example_command example_object 4 [plan_a] 1 built_fs edited_db in
  run (Ok true) [] built_fs edited_db
  /\ forall r log fs' db', run r log fs' db' ->
       r = Ok true /\ log = [] /\ fs' = built_fs /\ db' = edited_db.
Proof.
  apply (compile_all_up_to_date
           example_quote msvc_proc no_directories example_parent
           no_mkfile_deps example_msvc_parse deps_msvc
           example_command example_object 4 [plan_a] 1 built_fs edited_db).
  intros p [<- | []]. vm_compute. reflexivity.
Defined.

(** After the build of [a.cpp] that the record is of, and with the sources
    untouched, the file is up to date. *)
Lemma recorded_compile_is_not_repeated_witness :
  should_compile example_quote built_fs (update_deps_info other_db record_a) full_a = false.
Proof.
  apply (recorded_compile_is_not_repeated example_quote msvc_proc no_directories
           example_parent no_mkfile_deps example_msvc_parse deps_msvc
           full_a edited_fs record_a built_fs other_db).
  - vm_compute. reflexivity.
  - discriminate.
  - vm_compute. reflexivity.
  - intros input [<- | [<- | []]]; vm_compute; reflexivity.
Defined.

(** Two workers and two sources that do not compile: the first worker
    fails on [a.cpp], and the second leaves before it takes [b.cpp]. *)
Lemma failing_pool_run :
  parallel_run (compile_job example_quote failing_proc no_directories example_parent
                            no_mkfile_deps example_msvc_parse deps_none)
               [full_a; realize_plan example_command example_object plan_b] 4 2 (∅, [])
               (Ok false) ["Compilation failed [a.cpp]"] (∅, []).
Proof.
  set (job := compile_job example_quote failing_proc no_directories example_parent
                          no_mkfile_deps example_msvc_parse deps_none).
  set (full_b := realize_plan example_command example_object plan_b).
  set (e := user_error compile_failure "Compilation failed [a.cpp]").
  exists (mk_pool [full_b] [e] [returned; returned] (∅, [])).
  split; [| split; [repeat constructor | split; reflexivity]].
  eapply steps_cons.
  { apply (step_take job _ 0%nat full_a [full_b]); reflexivity. }
  eapply steps_cons.
  { apply (step_job_throws job _ 0%nat full_a e (∅, [])); reflexivity. }
  eapply steps_cons.
  { apply (step_break_on_exception job _ 1%nat); [reflexivity | discriminate]. }
  apply steps_refl.
Qed.

Lemma parallel_run_logs_one_error_per_worker_witness :
  (length ["Compilation failed [a.cpp]"] <= Z.to_nat (effective_jobs 4 2))%nat.
Proof.
  apply (parallel_run_logs_one_error_per_worker
           (compile_job example_quote failing_proc no_directories example_parent
                        no_mkfile_deps example_msvc_parse deps_none)
           [full_a; realize_plan example_command example_object plan_b] 4 2 (∅, [])
           (Ok false) ["Compilation failed [a.cpp]"] (∅, []) failing_pool_run).
Defined.

End CompileMoreExampleFacts.

(** ** The order of package ids *)

Module OrderFactsOfStrings.

Lemma ascii_compare_refl a : Ascii.compare a a = Eq.
Proof. unfold Ascii.compare. apply N.compare_refl. Qed.

Lemma ascii_compare_lt_trans a b c :
  Ascii.compare a b = Lt -> Ascii.compare b c = Lt -> Ascii.compare a c = Lt.
Proof.
  unfold Ascii.compare. rewrite !N.compare_lt_iff. lia.
Qed.

Lemma string_compare_refl s : String.compare s s = Eq.
Proof.
  induction s as [| a s IH]; cbn; [reflexivity |]. now rewrite ascii_compare_refl.
Qed.

Lemma string_compare_lt_trans s t u :
  String.compare s t = Lt -> String.compare t u = Lt -> String.compare s u = Lt.
Proof.
  revert t u. induction s as [| a s IH]; intros [| b t] [| c u]; cbn;
    try discriminate; try reflexivity.
  destruct (Ascii.compare a b) eqn:Hab; try discriminate.
  - apply Ascii.compare_eq_iff in Hab. subst b.
    destruct (Ascii.compare a c); try discriminate; [apply IH | reflexivity].
  - destruct (Ascii.compare b c) eqn:Hbc; try discriminate.
    + apply Ascii.compare_eq_iff in Hbc. subst c. now rewrite Hab.
    + now rewrite (ascii_compare_lt_trans _ _ _ Hab Hbc).
Qed.

Lemma ltb_irrefl s : String.ltb s s = false.
Proof. unfold String.ltb. now rewrite string_compare_refl. Qed.

Lemma ltb_trans s t u :
  String.ltb s t = true -> String.ltb t u = true -> String.ltb s u = true.
Proof.
  unfold String.ltb.
  destruct (String.compare s t) eqn:Hst; try discriminate.
  destruct (String.compare t u) eqn:Htu; try discriminate.
  now rewrite (string_compare_lt_trans _ _ _ Hst Htu).
Qed.

Lemma ltb_total s t : String.ltb s t = false -> String.ltb t s = false -> s = t.
Proof.
  unfold String.ltb. rewrite (String.compare_antisym t s).
  destruct (String.compare s t) eqn:Hst; cbn; try discriminate.
  intros _ _. now apply String.compare_eq_iff.
Qed.

Lemma ltb_asym s t : String.ltb s t = true -> String.ltb t s = false.
Proof.
  unfold String.ltb. rewrite (String.compare_antisym t s).
  destruct (String.compare s t); cbn; try discriminate. reflexivity.
Qed.

End OrderFactsOfStrings.

Module PackageIdOrderFacts.
Import PackageIdOrder OrderFactsOfStrings.

Section Order.
Context `{SemverStrictOrder}.

Lemma eq_spec (p q : package_id) : eq p q = true <-> p = q.
Proof.
  unfold eq. rewrite andb_true_iff, String.eqb_eq, bool_decide_eq_true.
  destruct p, q; cbn. split; [intros [-> ->]; reflexivity | intros [= -> ->]; auto].
Qed.

Lemma lt_trans_holds (p q r : package_id) :
  lt p q = true -> lt q r = true -> lt p r = true.
Proof.
  unfold lt.
  destruct (String.ltb (name p) (name q)) eqn:Hpq.
  - intros _.
    destruct (String.ltb (name q) (name r)) eqn:Hqr.
    + intros _. now rewrite (ltb_trans _ _ _ Hpq Hqr).
    + destruct (String.ltb (name r) (name q)) eqn:Hrq; [discriminate |].
      intros _. rewrite (ltb_total _ _ Hqr Hrq) in Hpq. now rewrite Hpq.
  - destruct (String.ltb (name q) (name p)) eqn:Hqp; [discriminate |].
    pose proof (ltb_total _ _ Hpq Hqp) as Hname. rewrite Hname. intros Hv.
    destruct (String.ltb (name q) (name r)); [reflexivity |].
    destruct (String.ltb (name r) (name q)); [discriminate |].
    now apply version_lt_trans.
Qed.

(** X24.  [operator<] of [package_id] is a strict total order whenever that
    of [semver::version] is, and two ids are [==] exactly when neither is
    smaller than the other: ids can be kept in ordered containers and
    looked up there by [==]. *)
Theorem package_id_order (p q r : package_id) :
  lt p p = false
  /\ (lt p q = true -> lt q r = true -> lt p r = true)
  /\ (eq p q = true <-> p = q)
  /\ (eq p q = true <-> lt p q = false /\ lt q p = false).
Proof.
  split; [| split; [| split]].
  - unfold lt. now rewrite ltb_irrefl, version_lt_irrefl.
  - apply lt_trans_holds.
  - apply eq_spec.
  - rewrite eq_spec. unfold lt. split.
    + intros <-. now rewrite ltb_irrefl, version_lt_irrefl.
    + destruct (String.ltb (name p) (name q)) eqn:Hpq; [intros [[=] _] |].
      destruct (String.ltb (name q) (name p)) eqn:Hqp; [intros [_ [=]] |].
      intros [Hv Hv']. pose proof (ltb_total _ _ Hpq Hqp) as Hname.
      pose proof (version_lt_total _ _ Hv Hv') as Hversion.
      destruct p, q; cbn in *; congruence.
Qed.

End Order.

Import NumericSemver OrderExamples CatalogExamples.

#[export] Instance numeric_strict_order : SemverStrictOrder.
Proof.
  split.
  - intros [[a1 a2] a3]. unfold version_lt, numeric_order, triple_lt.
    repeat match goal with
      | |- context [Nat.ltb ?x ?y] => destruct (Nat.ltb_spec x y)
      end; try reflexivity; lia.
  - intros [[a1 a2] a3] [[b1 b2] b3] [[c1 c2] c3].
    unfold version_lt, numeric_order, triple_lt.
    repeat match goal with
      | |- context [Nat.ltb ?x ?y] => destruct (Nat.ltb_spec x y)
      end; try discriminate; try reflexivity; try lia.
  - intros [[a1 a2] a3] [[b1 b2] b3].
    unfold version_lt, numeric_order, triple_lt.
    repeat match goal with
      | |- context [Nat.ltb ?x ?y] => destruct (Nat.ltb_spec x y)
      end; try discriminate; intros _ _; repeat f_equal; lia.
Qed.

Example fmt_is_ordered :
  lt (mk_package_id "fmt" (v 6 1 2)) (mk_package_id "fmt" (v 6 10 0)) = true
  /\ lt (mk_package_id "fmt" (v 7 0 0)) (mk_package_id "spdlog" (v 1 4 0)) = true
  /\ lt (mk_package_id "spdlog" (v 1 4 0)) (mk_package_id "fmt" (v 7 0 0)) = false.
Proof. repeat split. Qed.

Lemma package_id_order_witness :
  let p := mk_package_id "fmt" (v 6 1 2) in
  let q := mk_package_id "fmt" (v 6 10 0) in
  let r := mk_package_id "spdlog" (v 1 4 0) in
  lt p p = false
  /\ (lt p q = true -> lt q r = true -> lt p r = true)
  /\ (eq p q = true <-> p = q)
  /\ (eq p q = true <-> lt p q = false /\ lt q p = false).
Proof.
  apply (package_id_order (mk_package_id "fmt" (v 6 1 2))
                          (mk_package_id "fmt" (v 6 10 0))
                          (mk_package_id "spdlog" (v 1 4 0))).
Defined.

End PackageIdOrderFacts.

(** ** Archives *)

Module ArchiveFacts.
Import Fs CompileExec Paths Archive ManifestMoreFacts.

(** *** Text *)

Lemma length_append (s t : string) :
  String.length (s ++ t) = (String.length s + String.length t)%nat.
Proof.
  induction s as [| a s IH]; [reflexivity |].
  change (String a s ++ t) with (String a (s ++ t)). cbn. now rewrite IH.
Qed.

Lemma append_inv_head (d s t : string) : d ++ s = d ++ t -> s = t.
Proof.
  induction d as [| a d IH]; [auto |].
  change (String a d ++ s) with (String a (d ++ s)).
  change (String a d ++ t) with (String a (d ++ t)). intros [= Hst]. now apply IH.
Qed.

Lemma append_inv_tail (s t u : string) : s ++ u = t ++ u -> s = t.
Proof.
  revert t. induction s as [| a s IH]; intros [| b t] Heq.
  - reflexivity.
  - apply (f_equal String.length) in Heq. rewrite !length_append in Heq.
    cbn in Heq. lia.
  - apply (f_equal String.length) in Heq. rewrite !length_append in Heq.
    cbn in Heq. lia.
  - change (String a s ++ u) with (String a (s ++ u)) in Heq.
    change (String b t ++ u) with (String b (t ++ u)) in Heq.
    injection Heq as -> Heq. f_equal. now apply IH.
Qed.

(** *** Paths *)

Lemma no_slash_cons (a : ascii) (s : string) :
  Text.rindex "/"%char (String a s) = None ->
  Ascii.eqb a "/" = false /\ Text.rindex "/"%char s = None.
Proof.
  cbn [Text.rindex]. destruct (Text.rindex "/"%char s); [discriminate |].
  destruct (Ascii.eqb a "/"); [discriminate | auto].
Qed.

Lemma split_at_slash_name (f : string) :
  Text.rindex "/"%char f = None -> split_at_slash f = [f].
Proof.
  induction f as [| a f IH]; [reflexivity |].
  intros Hf. apply no_slash_cons in Hf as [Ha Hf].
  cbn [split_at_slash]. now rewrite Ha, IH.
Qed.

Lemma split_at_slash_not_nil (p : string) : split_at_slash p <> [].
Proof.
  destruct p as [| a p]; [discriminate |]. cbn [split_at_slash].
  destruct (Ascii.eqb a "/"); [discriminate |].
  destruct (split_at_slash p); discriminate.
Qed.

Lemma split_at_slash_app (d r : string) :
  split_at_slash (d ++ String "/"%char r) = (split_at_slash d ++ split_at_slash r)%list.
Proof.
  induction d as [| a d IH].
  - reflexivity.
  - change (String a d ++ String "/"%char r) with (String a (d ++ String "/"%char r)).
    cbn [split_at_slash]. rewrite IH.
    destruct (Ascii.eqb a "/"); [reflexivity |].
    pose proof (split_at_slash_not_nil d).
    destruct (split_at_slash d); [contradiction | reflexivity].
Qed.

Lemma ends_with_slash_inv (d : string) :
  ends_with_slash d = true -> exists d', d = d' ++ "/".
Proof.
  unfold ends_with_slash. induction d as [| a d IH]; [discriminate |].
  cbn [Text.rindex String.length].
  destruct (Text.rindex "/"%char d) as [i |].
  - intros Hlast. destruct IH as [d' ->].
    { destruct (Nat.eqb_spec (S (S i)) (S (String.length d))) as [Heq |]; [| discriminate].
      apply Nat.eqb_eq. lia. }
    exists (String a d'). reflexivity.
  - destruct (Ascii.eqb_spec a "/") as [-> |]; [| discriminate].
    destruct d; [| discriminate]. intros _. exists "". reflexivity.
Qed.

Lemma append_assoc (s t u : string) : (s ++ t) ++ u = s ++ t ++ u.
Proof.
  induction s as [| a s IH]; [reflexivity |].
  change ((String a s ++ t) ++ u) with (String a ((s ++ t) ++ u)). now rewrite IH.
Qed.

(** The names that [dir / f] visits are those of [dir] and then [f], for
    a name [f] that is not empty and holds no slash. *)
Lemma names_of_join (d f : string) :
  f <> "" -> Text.rindex "/"%char f = None ->
  snd (fst (path_elements (d // f))) = (snd (fst (path_elements d)) ++ [f])%list.
Proof.
  intros Hne Hf. unfold path_elements. cbn [fst snd].
  assert (Hkeep : List.filter (fun e => negb (String.eqb e "")) [f] = [f]).
  { cbn. destruct (String.eqb_spec f ""); [contradiction | reflexivity]. }
  unfold join. destruct (String.eqb_spec d "") as [-> | Hd].
  - now rewrite (split_at_slash_name f Hf), Hkeep.
  - destruct (ends_with_slash d) eqn:Hslash.
    + destruct (ends_with_slash_inv d Hslash) as [d' ->].
      rewrite append_assoc.
      change ("/" ++ f) with (String "/"%char f).
      change (d' ++ "/") with (d' ++ String "/"%char "").
      rewrite !split_at_slash_app, !List.filter_app, (split_at_slash_name f Hf), Hkeep.
      cbn. now rewrite app_nil_r.
    + change ("/" ++ f) with (String "/"%char f).
      now rewrite split_at_slash_app, List.filter_app, (split_at_slash_name f Hf), Hkeep.
Qed.

Section ArchiveFacts.
Variable output_root : string.
Variable archive_suffix : string.
Variable create_archive_command : archive_spec -> list string.
Variable calc_object_file_path : compile_file_plan -> string.
Variable run_proc : list string -> filesystem -> proc_result * filesystem.
Variable parent_path : string -> string.
Variable status_error : filesystem -> string -> option string.
Variable remove_error : filesystem -> string -> option string.
Variable create_directories : string -> filesystem -> result unit * filesystem.
Variable relative : string -> string -> filesystem -> result string.

Local Abbreviation archive_path := (calc_archive_file_path output_root archive_suffix).
Local Abbreviation setup :=
  (archive_setup output_root archive_suffix parent_path status_error remove_error
                 create_directories).
Local Abbreviation command :=
  (archive_command output_root archive_suffix create_archive_command calc_object_file_path).
Local Abbreviation make_archive :=
  (archive output_root archive_suffix create_archive_command calc_object_file_path
           run_proc parent_path status_error remove_error create_directories relative).

(** X25.  Two libraries of different names that are built into the same
    directory have archive files that are different paths, also as
    [fs::path] compares them, when neither file name holds a slash; and
    the file of such a library is called [lib<name><suffix>]. *)
Theorem archive_files_are_distinct plan plan' :
  Text.rindex "/"%char ("lib" ++ _name plan ++ archive_suffix) = None ->
  Text.rindex "/"%char ("lib" ++ _name plan' ++ archive_suffix) = None ->
  _subdir plan = _subdir plan' ->
  _name plan <> _name plan' ->
  ~ same_path (calc_archive_file_path output_root archive_suffix plan)
              (calc_archive_file_path output_root archive_suffix plan')
  /\ filename (calc_archive_file_path output_root archive_suffix plan)
     = "lib" ++ _name plan ++ archive_suffix.
Proof.
  intros Hf Hf' Hdir Hname. unfold calc_archive_file_path. split.
  - unfold same_path. intros Heq.
    apply (f_equal (fun e => snd (fst e))) in Heq.
    rewrite (names_of_join _ ("lib" ++ _name plan ++ archive_suffix)) in Heq
      by (assumption || discriminate).
    rewrite (names_of_join _ ("lib" ++ _name plan' ++ archive_suffix)) in Heq
      by (assumption || discriminate).
    rewrite Hdir in Heq. apply app_inj_tail in Heq as [_ Heq].
    apply (append_inv_head "lib") in Heq. apply append_inv_tail in Heq. contradiction.
  - now apply filename_join.
Qed.

Lemma remove_removes (fs fs' : filesystem) p :
  remove remove_error fs p = Ok fs' -> fs' !! p = None.
Proof.
  unfold remove. destruct (remove_error fs p); [discriminate |].
  destruct (fs !! p) as [[t c | t] |] eqn:Hp.
  - intros [= <-]. apply lookup_delete_eq.
  - destruct (has_entries fs p); [discriminate |]. intros [= <-]. apply lookup_delete_eq.
  - now intros [= <-].
Qed.

(** X26.  The archiver is run only where there is no prior copy of the
    archive: the file system that [archive] has set up when it runs the
    command holds nothing at the path of the archive, given that making
    the directory of the archive does not make the archive.  Whatever
    [archive] returns, either it ran the archiver once, on that file
    system, and returns normally exactly when the archiver succeeded; or
    it threw what [fs::relative] or the setup threw and ran no archiver.
    The setup throws what the probe for the prior copy, its removal or the
    making of the directory threw; in the first two cases the file system
    is as it was, with the prior copy in place. *)
Theorem archive_starts_without_prior_copy plan fs :
  (forall fs0 fs1,
     create_directories
       (parent_path (calc_archive_file_path output_root archive_suffix plan)) fs0
     = (Ok tt, fs1) ->
     fs0 !! calc_archive_file_path output_root archive_suffix plan = None ->
     fs1 !! calc_archive_file_path output_root archive_suffix plan = None) ->
  (forall fs1,
     archive_setup output_root archive_suffix parent_path status_error remove_error
                   create_directories plan fs = (Ok tt, fs1) ->
     exists_ fs1 (calc_archive_file_path output_root archive_suffix plan) = false)
  /\ (forall r fs',
        archive output_root archive_suffix create_archive_command calc_object_file_path
                run_proc parent_path status_error remove_error create_directories relative
                plan fs = (r, fs') ->
        (exists fs1 ar_res,
           archive_setup output_root archive_suffix parent_path status_error remove_error
                         create_directories plan fs = (Ok tt, fs1)
           /\ run_proc (archive_command output_root archive_suffix create_archive_command
                                        calc_object_file_path plan) fs1 = (ar_res, fs')
           /\ (r = Ok tt <-> okay ar_res = true))
        \/ (exists e,
              r = Throw e
              /\ ((relative (calc_archive_file_path output_root archive_suffix plan)
                            output_root fs = Throw e /\ fs' = fs)
                  \/ archive_setup output_root archive_suffix parent_path status_error
                                   remove_error create_directories plan fs
                     = (Throw e, fs'))))
  /\ (forall e fs',
        archive_setup output_root archive_suffix parent_path status_error remove_error
                      create_directories plan fs = (Throw e, fs') ->
        (Throwing.exists_ status_error fs
                          (calc_archive_file_path output_root archive_suffix plan) = Throw e
         /\ fs' = fs)
        \/ (exists_ fs (calc_archive_file_path output_root archive_suffix plan) = true
            /\ remove remove_error fs (calc_archive_file_path output_root archive_suffix plan)
               = Throw e
            /\ fs' = fs)
        \/ exists fs0,
             create_directories
               (parent_path (calc_archive_file_path output_root archive_suffix plan)) fs0
             = (Throw e, fs')).
Proof.
  intros Hparent. split; [| split].
  - intros fs1. unfold archive_setup, Throwing.exists_, Throwing.status, exists_.
    destruct (status_error fs (archive_path plan)); [discriminate |].
    destruct (fs !! archive_path plan) as [n |] eqn:Hp.
    + destruct (remove remove_error fs (archive_path plan)) as [fs0 |] eqn:Hrm;
        [| discriminate].
      intros Hmk. apply remove_removes in Hrm.
      now rewrite (Hparent _ _ Hmk Hrm).
    + intros Hmk. now rewrite (Hparent _ _ Hmk Hp).
  - intros r fs'. unfold archive.
    destruct (relative (archive_path plan) output_root fs) as [out_relpath | e].
    2:{ intros [= <- <-]. right. eauto. }
    destruct (setup plan fs) as [[[] | e] fs1].
    2:{ intros [= <- <-]. right. eauto. }
    destruct (run_proc (command plan) fs1) as [ar_res fs2] eqn:Hrun.
    destruct (okay ar_res) eqn:Hokay; cbn [negb]; intros [= <- <-]; left;
      exists fs1, ar_res; (split; [reflexivity |]); (split; [exact Hrun |]);
      rewrite Hokay; split; (reflexivity || discriminate).
  - intros e fs'. unfold archive_setup.
    destruct (Throwing.exists_ status_error fs (archive_path plan)) as [found | e0] eqn:Hex.
    2:{ intros [= <- <-]. now left. }
    destruct found.
    + destruct (remove remove_error fs (archive_path plan)) as [fs0 | e0] eqn:Hrm.
      * intros Hmk. right. right. eauto.
      * intros [= <- <-]. right. left. repeat split.
        unfold Throwing.exists_, Throwing.status in Hex.
        destruct (status_error fs (archive_path plan)); [discriminate |]. congruence.
    + intros Hmk. right. right. eauto.
Qed.

End ArchiveFacts.

Import CompileExamples ArchiveExamples.

Example archive_replaces_prior_copy :
  archive "_build" ".a" ar_command example_object ar_proc example_parent
          nothing_refused nothing_refused directory_stands relative_to_root lib_a stale_fs
  = (Ok tt, <["_build/liba.a" := regular_file 9 "new objects"]> stale_fs).
Proof. vm_compute. reflexivity. Qed.

(** Where the build tree may not be written the prior copy stays, and no
    archiver is run. *)
Example archive_keeps_what_it_cannot_remove :
  archive "_build" ".a" ar_command example_object ar_proc example_parent
          nothing_refused build_tree_is_read_only directory_stands relative_to_root
          lib_a stale_fs
  = (Throw (system_error
              "filesystem error: cannot remove: Permission denied [_build/liba.a]"),
     stale_fs).
Proof. vm_compute. reflexivity. Qed.

Example archive_command_of_lib_a :
  archive_command "_build" ".a" ar_command example_object lib_a
  = ["ar"; "rcs"; "_build/liba.a"; "_build/a.cpp.o"].
Proof. reflexivity. Qed.

(** [x/y] and [x//y] are one path, and so are the archives of libraries
    with these names: the names of X25 hold no slash. *)
Example names_with_slashes :
  same_path (calc_archive_file_path "_build" ".a" (mk_archive_plan "x/y" "" []))
            (calc_archive_file_path "_build" ".a" (mk_archive_plan "x//y" "" [])).
Proof. reflexivity. Qed.

Lemma archive_files_are_distinct_witness :
  ~ same_path (calc_archive_file_path "_build" ".a" lib_a)
              (calc_archive_file_path "_build" ".a" lib_b)
  /\ filename (calc_archive_file_path "_build" ".a" lib_a) = "lib" ++ _name lib_a ++ ".a".
Proof.
  apply (archive_files_are_distinct "_build" ".a" lib_a lib_b);
    [reflexivity | reflexivity | reflexivity | discriminate].
Defined.

Lemma archive_starts_without_prior_copy_witness :
  exists_ stale_fs (calc_archive_file_path "_build" ".a" lib_a) = true
  /\ archive_setup "_build" ".a" example_parent nothing_refused nothing_refused
                   directory_stands lib_a stale_fs
     = (Ok tt, delete "_build/liba.a" stale_fs)
  /\ forall fs1,
       archive_setup "_build" ".a" example_parent nothing_refused nothing_refused
                     directory_stands lib_a stale_fs = (Ok tt, fs1) ->
       exists_ fs1 (calc_archive_file_path "_build" ".a" lib_a) = false.
Proof.
  split; [reflexivity |]. split; [vm_compute; reflexivity |].
  apply (archive_starts_without_prior_copy "_build" ".a" ar_command example_object ar_proc
           example_parent nothing_refused nothing_refused directory_stands relative_to_root
           lib_a stale_fs).
  intros fs0 fs1 [= <-] Hnone. exact Hnone.
Defined.

End ArchiveFacts.
